(** * The in-process bot engine (BotService): risk ladder, outcome tracker,
      bid sending and resume state, embedded from the TypeScript source.

    Conventions of the embedding.
    - JavaScript numbers are modelled exactly: counters, refs, epoch
      milliseconds and amounts in minor units are [Z]; rates, balances,
      profits and configured amounts are [Q].  A value that the source reads
      through [Number(...)] and that may be [NaN] is an [option]: [None] is
      "not a finite number".  Rounding error of IEEE doubles is outside the
      model.
    - The numeric fields of TradeConfig are strings in the source and every
      use goes through [Number(field)]; the record stores what [Number]
      returns.  The step thresholds (maxMartingale, resetMartingale, stopLoss,
      interval) are whole numbers: the option tables of the configuration
      module offer -1, 0 .. 10 only.
    - A [Date] is its epoch milliseconds; its fields are read and written in
      local time, and the local time zone is an input of the model (the
      offset at an instant and the offset of a local time), so that a
      daylight-saving change is covered.
    - The engine object is one record, [Engine]; methods are computations in
      a state-and-output monad [M]: they read and update the record and emit
      events (log, error, status, refresh, ws) and socket frames.
    - Only the in-process engine is modelled (nativeEnabled = false); with the
      native engine enabled [start] returns before any of these methods run. *)

From Stdlib Require Import ZArith QArith Qround List String Ascii Bool Lia Lqa.
Import ListNotations.
Local Open Scope string_scope.
Local Open Scope list_scope.
Local Open Scope Z_scope.

(** ** JavaScript helpers *)

(** Truthiness of a string: the empty string is falsy. *)
Definition nonEmpty (s : string) : bool :=
  match s with EmptyString => false | String _ _ => true end.

(** [a ?? b] on optional values. *)
Definition orElse {A : Type} (a b : option A) : option A :=
  match a with Some _ => a | None => b end.

(** [a ?? d] with a default that is always present. *)
Definition orDefault {A : Type} (a : option A) (d : A) : A :=
  match a with Some x => x | None => d end.

(** [Math.round]: the nearest integer, halves towards plus infinity. *)
Definition mathRound (x : Q) : Z := Qfloor (x + (1 # 2))%Q.

Definition Qltb (a b : Q) : bool := negb (Qle_bool b a).
Definition Qgtb (a b : Q) : bool := Qltb b a.

Definition lowerAscii (c : ascii) : ascii :=
  let n := nat_of_ascii c in
  if (Nat.leb 65 n && Nat.leb n 90)%bool then ascii_of_nat (n + 32) else c.

Definition upperAscii (c : ascii) : ascii :=
  let n := nat_of_ascii c in
  if (Nat.leb 97 n && Nat.leb n 122)%bool then ascii_of_nat (n - 32) else c.

(** [String.prototype.toUpperCase] on the ASCII range. *)
Fixpoint toUpperCase (s : string) : string :=
  match s with
  | EmptyString => EmptyString
  | String c r => String (upperAscii c) (toUpperCase r)
  end.

(** [String.prototype.toLowerCase] on the ASCII range. *)
Fixpoint toLowerCase (s : string) : string :=
  match s with
  | EmptyString => EmptyString
  | String c r => String (lowerAscii c) (toLowerCase r)
  end.

(** A JavaScript [Set<string>]: a list in insertion order. *)
Definition StrSet := list string.

Definition set_has (k : string) (s : StrSet) : bool :=
  existsb (String.eqb k) s.

Definition set_add (k : string) (s : StrSet) : StrSet :=
  if set_has k s then s else s ++ [k].

Definition set_delete (k : string) (s : StrSet) : StrSet :=
  filter (fun x => negb (String.eqb k x)) s.

(** [Array.from(set).slice(0, n).forEach(entry => set.delete(entry))]. *)
Definition set_evict (n : nat) (s : StrSet) : StrSet :=
  fold_left (fun acc entry => set_delete entry acc) (firstn n s) s.

Definition size {A : Type} (l : list A) : Z := Z.of_nat (List.length l).

(** A value read from JSON that is passed to [safeNumber]. *)
Inductive JsNum : Type :=
| JUndefined
| JNull
| JNumber (q : Q).

(** [safeNumber]: [Number(value)] when finite, else null.  [Number(null)] is
    0 and [Number(undefined)] is NaN. *)
Definition safeNumber (v : JsNum) : option Q :=
  match v with
  | JUndefined => None
  | JNull => Some 0%Q
  | JNumber q => Some q
  end.

(** ** Data model *)

Inductive BotStatus : Type := Idle | Starting | Running | Stopped | Failed.
Inductive Trend : Type := Call | Put.
Inductive Wallet : Type := Real | Demo.
Inductive Strategy : Type :=
| Signal | Fast | Momentum | Flash5st | OtherStrategy.
Inductive ReadyState : Type := CONNECTING | OPEN | CLOSING | CLOSED.
Inductive Outcome : Type := Win | Loss | Tie.

Definition status_eqb (a b : BotStatus) : bool :=
  match a, b with
  | Idle, Idle | Starting, Starting | Running, Running
  | Stopped, Stopped | Failed, Failed => true
  | _, _ => false
  end.

Definition trend_eqb (a b : Trend) : bool :=
  match a, b with Call, Call | Put, Put => true | _, _ => false end.

Definition wallet_eqb (a b : Wallet) : bool :=
  match a, b with Real, Real | Demo, Demo => true | _, _ => false end.

Definition strategy_eqb (a b : Strategy) : bool :=
  match a, b with
  | Signal, Signal | Fast, Fast | Momentum, Momentum
  | Flash5st, Flash5st | OtherStrategy, OtherStrategy => true
  | _, _ => false
  end.

Definition isOpen (sock : option ReadyState) : bool :=
  match sock with Some OPEN => true | _ => false end.

Record TradeConfig : Type := {
  asset : string;
  strategy : Strategy;
  interval : option Z;
  walletType : Wallet;
  bidAmountIdr : option Q;
  bidAmountUsd : option Q;
  bidAmountEur : option Q;
  autoSwitchDemo : bool;
  martingale : option Q;
  maxMartingale : option Z;
  resetMartingale : option Z;
  stopLoss : option Z;
  stopProfitAfter : option Q
}.

Record OpenedBid : Type := {
  assetRic : string;
  closeAt : string;
  openRate : Q;
  trend : Trend;
  uuid : option string;
  amount : option Q;
  payment : option Q;
  dealType : Wallet
}.

(** The persisted BotState ([bot_state] in AsyncStorage). *)
Record BotState : Type := {
  lastStep : option Z;
  lastWasSwitchDemo : bool;
  lastTrend : option Trend;
  lastAmount : option Z
}.

(** What [AsyncStorage.getItem(BOT_STATE_KEY)] holds: nothing, text that
    [JSON.parse] rejects, or a state object. *)
Inductive Stored : Type :=
| NoItem
| Corrupt
| Item (b : BotState).

Inductive ResumeReason : Type :=
| NONE | UNCLOSED_BID | LAST_BID_LOST | LAST_BID_WON_IN_SWITCH_DEMO.

Record DealItem : Type := {
  deal_status : option string;
  deal_created_at : option string;
  deal_win : JsNum;
  deal_amount : JsNum;
  deal_asset_ric : option string
}.

Record ResumeState : Type := {
  shouldResume : bool;
  resumeStep : Z;
  reason : ResumeReason;
  lastDeal : option DealItem
}.

Definition MIN_BID_BY_CURRENCY (currency : string) : option Z :=
  if String.eqb currency "IDR" then Some 14000
  else if String.eqb currency "USD" then Some 1
  else if String.eqb currency "EUR" then Some 1
  else None.

Definition MAX_BID_BY_CURRENCY (currency : string) : option Z :=
  if String.eqb currency "IDR" then Some 74000000
  else if String.eqb currency "USD" then Some 5000
  else if String.eqb currency "EUR" then Some 4600
  else None.

Definition MAX_K_STEP : Z := 100.

(** The fields of BotService that the modelled methods read or write, under
    the names of the source; [storage] is the AsyncStorage entry of the
    persisted state, the timers are kept as counts and flags. *)
Record Engine : Type := {
  tradeSocket : option ReadyState;
  streamSocket : option ReadyState;
  heartbeatTimer : bool;
  signalTimers : nat;
  status : BotStatus;
  pendingUUIDs : StrSet;
  openedBids : list OpenedBid;
  processedBatches : StrSet;
  martingaleStep : Z;
  lossStreak : Z;
  totalProfit : Q;
  balanceReal : Q;
  balanceDemo : Q;
  userCurrency : string;
  currentWalletType : Wallet;
  forceDemo : bool;
  allowAutoSwitch : bool;
  nextRef : Z;
  joinRefs : list (string * Z);
  lastBidStep : Z;
  lastBidWasSwitchDemo : bool;
  reconnectTimer : bool;
  lastWsError : option string * option string;
  cooldownActive : bool;
  cooldownCount : Z;
  cooldownMax : Z;
  shouldUseSignal : bool;
  repeatStep : Z;
  lastSignalTrend : option Trend;
  pendingResumeState : option ResumeState;
  tradeReady : bool;
  streamReady : bool;
  tradeConnected : bool;
  streamConnected : bool;
  lastFastBidTrend : option Trend;
  fastRepeatTrend : option Trend;
  bidInFlightUntil : option Z;
  switchDemoActive : bool;
  switchDemoStep : option Z;
  switchDemoReturnWallet : option Wallet;
  disableRepeatAfterDemo : bool;
  skipStopLossOnce : bool;
  profitReal : Q;
  profitDemo : Q;
  lastBidAt : Z;
  lastBidAmount : option Z;
  disconnecting : bool;
  storage : Stored
}.

(** Field assignment [this.f = v].  The record is rebuilt from its own
    projections and the one projection being assigned is abstracted. *)
Definition rebuild (e : Engine) : Engine :=
  Build_Engine (tradeSocket e) (streamSocket e) (heartbeatTimer e)
    (signalTimers e) (status e) (pendingUUIDs e) (openedBids e)
    (processedBatches e) (martingaleStep e) (lossStreak e) (totalProfit e)
    (balanceReal e) (balanceDemo e) (userCurrency e) (currentWalletType e)
    (forceDemo e) (allowAutoSwitch e) (nextRef e) (joinRefs e)
    (lastBidStep e) (lastBidWasSwitchDemo e) (reconnectTimer e)
    (lastWsError e) (cooldownActive e) (cooldownCount e) (cooldownMax e)
    (shouldUseSignal e) (repeatStep e) (lastSignalTrend e)
    (pendingResumeState e) (tradeReady e) (streamReady e) (tradeConnected e)
    (streamConnected e) (lastFastBidTrend e) (fastRepeatTrend e)
    (bidInFlightUntil e) (switchDemoActive e) (switchDemoStep e)
    (switchDemoReturnWallet e) (disableRepeatAfterDemo e)
    (skipStopLossOnce e) (profitReal e) (profitDemo e) (lastBidAt e)
    (lastBidAmount e) (disconnecting e) (storage e).

Ltac assign_field proj v e :=
  let body := eval cbv delta [rebuild] beta in (rebuild e) in
  match eval pattern (proj e) in body with
  | ?f _ => let r := eval cbv beta in (f v) in exact r
  end.

Definition set_tradeSocket (v : option ReadyState) (e : Engine) : Engine :=
  ltac:(assign_field tradeSocket v e).
Definition set_streamSocket (v : option ReadyState) (e : Engine) : Engine :=
  ltac:(assign_field streamSocket v e).
Definition set_heartbeatTimer (v : bool) (e : Engine) : Engine :=
  ltac:(assign_field heartbeatTimer v e).
Definition set_signalTimers (v : nat) (e : Engine) : Engine :=
  ltac:(assign_field signalTimers v e).
Definition set_status (v : BotStatus) (e : Engine) : Engine :=
  ltac:(assign_field status v e).
Definition set_pendingUUIDs (v : StrSet) (e : Engine) : Engine :=
  ltac:(assign_field pendingUUIDs v e).
Definition set_openedBids (v : list OpenedBid) (e : Engine) : Engine :=
  ltac:(assign_field openedBids v e).
Definition set_processedBatches (v : StrSet) (e : Engine) : Engine :=
  ltac:(assign_field processedBatches v e).
Definition set_martingaleStep (v : Z) (e : Engine) : Engine :=
  ltac:(assign_field martingaleStep v e).
Definition set_lossStreak (v : Z) (e : Engine) : Engine :=
  ltac:(assign_field lossStreak v e).
Definition set_totalProfit (v : Q) (e : Engine) : Engine :=
  ltac:(assign_field totalProfit v e).
Definition set_balanceReal (v : Q) (e : Engine) : Engine :=
  ltac:(assign_field balanceReal v e).
Definition set_balanceDemo (v : Q) (e : Engine) : Engine :=
  ltac:(assign_field balanceDemo v e).
Definition set_userCurrency (v : string) (e : Engine) : Engine :=
  ltac:(assign_field userCurrency v e).
Definition set_currentWalletType (v : Wallet) (e : Engine) : Engine :=
  ltac:(assign_field currentWalletType v e).
Definition set_forceDemo (v : bool) (e : Engine) : Engine :=
  ltac:(assign_field forceDemo v e).
Definition set_allowAutoSwitch (v : bool) (e : Engine) : Engine :=
  ltac:(assign_field allowAutoSwitch v e).
Definition set_nextRef (v : Z) (e : Engine) : Engine :=
  ltac:(assign_field nextRef v e).
Definition set_joinRefs (v : list (string * Z)) (e : Engine) : Engine :=
  ltac:(assign_field joinRefs v e).
Definition set_lastBidStep (v : Z) (e : Engine) : Engine :=
  ltac:(assign_field lastBidStep v e).
Definition set_lastBidWasSwitchDemo (v : bool) (e : Engine) : Engine :=
  ltac:(assign_field lastBidWasSwitchDemo v e).
Definition set_reconnectTimer (v : bool) (e : Engine) : Engine :=
  ltac:(assign_field reconnectTimer v e).
Definition set_lastWsError (v : option string * option string) (e : Engine)
  : Engine := ltac:(assign_field lastWsError v e).
Definition set_cooldownActive (v : bool) (e : Engine) : Engine :=
  ltac:(assign_field cooldownActive v e).
Definition set_cooldownCount (v : Z) (e : Engine) : Engine :=
  ltac:(assign_field cooldownCount v e).
Definition set_cooldownMax (v : Z) (e : Engine) : Engine :=
  ltac:(assign_field cooldownMax v e).
Definition set_shouldUseSignal (v : bool) (e : Engine) : Engine :=
  ltac:(assign_field shouldUseSignal v e).
Definition set_repeatStep (v : Z) (e : Engine) : Engine :=
  ltac:(assign_field repeatStep v e).
Definition set_lastSignalTrend (v : option Trend) (e : Engine) : Engine :=
  ltac:(assign_field lastSignalTrend v e).
Definition set_pendingResumeState (v : option ResumeState) (e : Engine)
  : Engine := ltac:(assign_field pendingResumeState v e).
Definition set_tradeReady (v : bool) (e : Engine) : Engine :=
  ltac:(assign_field tradeReady v e).
Definition set_streamReady (v : bool) (e : Engine) : Engine :=
  ltac:(assign_field streamReady v e).
Definition set_tradeConnected (v : bool) (e : Engine) : Engine :=
  ltac:(assign_field tradeConnected v e).
Definition set_streamConnected (v : bool) (e : Engine) : Engine :=
  ltac:(assign_field streamConnected v e).
Definition set_lastFastBidTrend (v : option Trend) (e : Engine) : Engine :=
  ltac:(assign_field lastFastBidTrend v e).
Definition set_fastRepeatTrend (v : option Trend) (e : Engine) : Engine :=
  ltac:(assign_field fastRepeatTrend v e).
Definition set_bidInFlightUntil (v : option Z) (e : Engine) : Engine :=
  ltac:(assign_field bidInFlightUntil v e).
Definition set_switchDemoActive (v : bool) (e : Engine) : Engine :=
  ltac:(assign_field switchDemoActive v e).
Definition set_switchDemoStep (v : option Z) (e : Engine) : Engine :=
  ltac:(assign_field switchDemoStep v e).
Definition set_switchDemoReturnWallet (v : option Wallet) (e : Engine)
  : Engine := ltac:(assign_field switchDemoReturnWallet v e).
Definition set_disableRepeatAfterDemo (v : bool) (e : Engine) : Engine :=
  ltac:(assign_field disableRepeatAfterDemo v e).
Definition set_skipStopLossOnce (v : bool) (e : Engine) : Engine :=
  ltac:(assign_field skipStopLossOnce v e).
Definition set_profitReal (v : Q) (e : Engine) : Engine :=
  ltac:(assign_field profitReal v e).
Definition set_profitDemo (v : Q) (e : Engine) : Engine :=
  ltac:(assign_field profitDemo v e).
Definition set_lastBidAt (v : Z) (e : Engine) : Engine :=
  ltac:(assign_field lastBidAt v e).
Definition set_lastBidAmount (v : option Z) (e : Engine) : Engine :=
  ltac:(assign_field lastBidAmount v e).
Definition set_disconnecting (v : bool) (e : Engine) : Engine :=
  ltac:(assign_field disconnecting v e).
Definition set_storage (v : Stored) (e : Engine) : Engine :=
  ltac:(assign_field storage v e).

(** ** Events and frames leaving the engine *)

Inductive Channel : Type := TradeChannel | StreamChannel.
Inductive OptionType : Type := Blitz | Turbo.

(** Outgoing frames: the connection ping and the bid-create message
    [{topic: 'bo', event: 'create', payload: {...}, ref, join_ref}]. *)
Inductive Frame : Type :=
| PingFrame (ref : Z) (join_ref : option Z)
| BidCreate (created_at : Z) (expire_at : option Z) (ric : string)
    (deal_type : Wallet) (option_type : OptionType) (bid_trend : Trend)
    (bid_amount : Z) (ref : Z) (join_ref : Z).

Inductive LogMsg : Type :=
| LogCloseDealBatch
| LogNoOpenedBidMatches (batchKey : string)
| LogExitingSwitchDemo (step : Z)
| LogSwitchDemoLossIgnored
| LogResetMartingaleTriggered
| LogNextBidUseSignal
| LogNextBidUseMartingale
| LogFastAutoBid
| LogCooldownStart (max : Z)
| LogStopLossSwitching
| LogStopProfitCheck (current target : Q)
| LogTrackedProfit (real demo : Q)
| LogWsSend (ch : Channel) (f : Frame)
| LogIgnoringOpened (uuid : string)
| LogSkipNotRunning
| LogSendBidInvoked (t : Trend) (tradeReady streamReady : bool)
| LogSkipInterval (elapsed minInterval : Z)
| LogSkipInFlight
| LogSkipOpenPosition (opened pending : Z)
| LogCooldown (count max : Z) (martingaleBid : bool)
| LogBidSplit (total : Z) (parts : Z)
| LogBid (i n : Z) (t : Trend) (amount : Z) (expire : option Z)
    (step repeat : Z)
| LogBidBase (base : Q) (currency : string).

Inductive ErrMsg : Type :=
| ErrWsNotReady (tradeReady streamReady : bool)
| ErrTradeSocketNotConnected
| ErrBidNotSent
| ErrBidAmountNonPositive
| ErrBidBelowMinimum (minBid : Z)
| ErrInsufficientBalance (w : Wallet)
| ErrRefreshingProfit.

Inductive StopMsg : Type :=
| StopLossReached (step : Z)
| StopProfitReached
| StopInsufficientBalance.

Inductive RefreshReason : Type := RefreshBid | RefreshTrackedProfit.

(** What the engine emits to its listeners, sends over a socket, or hands to
    the event loop to run later. *)
Inductive Output : Type :=
| Log (m : LogMsg)
| Err (m : ErrMsg)
| StatusEvent (st : BotStatus) (m : StopMsg)
| RefreshEvent (r : RefreshReason)
| BalanceEvent (accountType : string) (balance : Q) (currency : string)
| WsEvent (tradeConnected streamConnected : bool)
| Send (ch : Channel) (f : Frame)
| QueueFastReentry (fallbackTrend : Trend).

(** ** The engine monad: state passing with an output trace *)

Definition M (A : Type) : Type := Engine -> A * Engine * list Output.

Definition ret {A : Type} (a : A) : M A := fun e => (a, e, []).

Definition bind {A B : Type} (m : M A) (k : A -> M B) : M B :=
  fun e =>
    match m e with
    | (a, e1, o1) =>
        match k a e1 with
        | (b, e2, o2) => (b, e2, o1 ++ o2)
        end
    end.

Notation "x <- m ;; k" := (bind m (fun x => k))
  (at level 61, m at next level, right associativity).
Notation "m ;; k" := (bind m (fun _ => k))
  (at level 61, right associativity).

Definition this : M Engine := fun e => (e, e, []).
Definition assign {V : Type} (setter : V -> Engine -> Engine) (v : V)
  : M unit := fun e => (tt, setter v e, []).
Definition emit (o : Output) : M unit := fun e => (tt, e, [o]).
Definition skip : M unit := ret tt.
Definition when (b : bool) (m : M unit) : M unit := if b then m else skip.

(** The state and the outputs of a run. *)
Definition exec {A : Type} (m : M A) (e : Engine) : Engine := snd (fst (m e)).
Definition outputs {A : Type} (m : M A) (e : Engine) : list Output :=
  snd (m e).
Definition result {A : Type} (m : M A) (e : Engine) : A := fst (fst (m e)).

(** [for (const x of xs) body(x)] *)
Fixpoint forEach {A : Type} (xs : list A) (body : A -> M unit) : M unit :=
  match xs with
  | [] => skip
  | x :: rest => body x ;; forEach rest body
  end.

(** ** Risk ladder: bid sizing *)

(** [splitBidAmounts]: the [while (remaining > 0)] loop, one iteration per unit
    of fuel; [None] when the fuel runs out before the loop ends. *)
Fixpoint splitLoop (fuel : nat) (remaining minBid maxBid : Z)
  (chunks : list Z) : option (list Z) :=
  if remaining >? 0 then
    match fuel with
    | O => None
    | S fuel' =>
        if remaining <=? maxBid then Some (chunks ++ [remaining])
        else
          let remainder := remaining - maxBid in
          let next :=
            if (remainder >? 0) && (remainder <? minBid)
            then remaining - minBid else maxBid in
          splitLoop fuel' (remaining - next) minBid maxBid (chunks ++ [next])
    end
  else Some chunks.

Definition splitBidAmountsFuel (fuel : nat) (total minBid maxBid : Z)
  : option (list Z) :=
  if total <=? maxBid then Some [total]
  else splitLoop fuel total minBid maxBid [].

(** Iterations that always suffice when [0 < minBid <= maxBid]: every
    iteration but the last two removes [maxBid]. *)
Definition splitFuel (total maxBid : Z) : nat :=
  Z.to_nat (total / Z.max 1 maxBid) + 2.

Definition splitBidAmounts (total minBid maxBid : Z) : option (list Z) :=
  splitBidAmountsFuel (splitFuel total maxBid) total minBid maxBid.

Definition sum (l : list Z) : Z := fold_right Z.add 0 l.

Section Engine.

Variable cfg : TradeConfig.

(** The per-currency amounts are never nullish once the configuration is
    normalized, so the [?? this.config.bidAmount] fallback is not taken. *)
Definition getBidAmountForCurrency : M (option Q) :=
  s <- this ;;
  let currency := toUpperCase (userCurrency s) in
  if String.eqb currency "USD" then ret (bidAmountUsd cfg)
  else if String.eqb currency "EUR" then ret (bidAmountEur cfg)
  else ret (bidAmountIdr cfg).

(** The compounding loop [for (i = 1; i <= step; i += 1)] of
    calculateBidAmounts, [n] iterations left. *)
Fixpoint compound (n : nat) (rate : Q) (total amount : Z) : Z :=
  match n with
  | O => amount
  | S n' =>
      let amount' := mathRound (inject_Z total * rate)%Q in
      compound n' rate (total + amount') amount'
  end.

Definition resetConnectionState : M unit :=
  assign set_tradeReady false ;;
  assign set_streamReady false ;;
  assign set_tradeConnected false ;;
  assign set_streamConnected false ;;
  emit (WsEvent false false).

Definition teardownSockets : M unit :=
  assign set_heartbeatTimer false ;;
  assign set_tradeSocket None ;;
  assign set_streamSocket None.

Definition setStatus (st : BotStatus) (m : StopMsg) : M unit :=
  assign set_status st ;;
  emit (StatusEvent st m).

Definition stop (m : StopMsg) : M unit :=
  setStatus Stopped m ;;
  assign set_signalTimers O ;;
  assign set_pendingUUIDs [] ;;
  assign set_openedBids [] ;;
  assign set_processedBatches [] ;;
  assign set_lastWsError (None, None) ;;
  assign set_disconnecting false ;;
  resetConnectionState ;;
  assign set_reconnectTimer false ;;
  teardownSockets.

Definition stepForBid (s : Engine) : Z :=
  let step := if switchDemoActive s then 0 else martingaleStep s in
  let step := Z.min step MAX_K_STEP in
  match resetMartingale cfg with
  | Some r =>
      if r =? 0 then 0 else if r >? 0 then Z.min step r else step
  | None => step
  end.

Definition minBidFor (currency : string) : Z :=
  orDefault (MIN_BID_BY_CURRENCY currency)
    (orDefault (MIN_BID_BY_CURRENCY "IDR") 0) * 100.

Definition maxBidFor (currency : string) : Z :=
  orDefault (MAX_BID_BY_CURRENCY currency)
    (orDefault (MAX_BID_BY_CURRENCY "IDR") 0) * 100.

(** [rawAmount] of calculateBidAmounts: the amount of the current step in
    minor units. *)
Definition rawAmountOf (base : Q) (s : Engine) : Z :=
  let percent := orDefault (martingale cfg) 0%Q in
  let step := stepForBid s in
  let rate := if Qgtb percent 0 then (percent / 100)%Q else 1%Q in
  let amount :=
    if step >? 0
    then compound (Z.to_nat step) rate (mathRound base) (mathRound base)
    else mathRound base in
  mathRound (inject_Z amount * 100)%Q.

(** The split loop ends for the bounds of every currency (lemma
    [splitBidAmounts_currency_total] below), so the default is never used. *)
Definition calculateBidAmounts : M (list Z) :=
  v <- getBidAmountForCurrency ;;
  let base := orDefault v 0%Q in
  s <- this ;;
  emit (Log (LogBidBase base (toUpperCase (userCurrency s)))) ;;
  let currency := toUpperCase (userCurrency s) in
  let minBid := minBidFor currency in
  let maxBid := maxBidFor currency in
  let rawAmount := rawAmountOf base s in
  if rawAmount <=? 0 then
    emit (Err ErrBidAmountNonPositive) ;; ret []
  else if rawAmount <? minBid then
    emit (Err (ErrBidBelowMinimum minBid)) ;; ret []
  else if rawAmount >? maxBid then
    ret (orDefault (splitBidAmounts rawAmount minBid maxBid) [])
  else
    let dealType := if forceDemo s then Demo else currentWalletType s in
    let availableBalance :=
      if wallet_eqb dealType Demo then balanceDemo s else balanceReal s in
    if Qgtb availableBalance 0 && Qgtb (inject_Z rawAmount) availableBalance
    then
      emit (Err (ErrInsufficientBalance dealType)) ;;
      stop StopInsufficientBalance ;;
      ret []
    else ret [rawAmount].

Definition applyCooldown : M unit :=
  if negb (strategy_eqb (strategy cfg) Momentum)
     && negb (strategy_eqb (strategy cfg) Flash5st)
  then skip
  else
    assign set_cooldownActive true ;;
    assign set_cooldownCount 1 ;;
    s <- this ;;
    emit (Log (LogCooldownStart (cooldownMax s))).

(** [persistBotState]: the payload is built and handed to
    [AsyncStorage.setItem] before the method first suspends. *)
Definition persistBotState : M unit :=
  s <- this ;;
  assign set_storage
    (Item {| lastStep := Some (lastBidStep s);
             lastWasSwitchDemo := lastBidWasSwitchDemo s;
             lastTrend := lastSignalTrend s;
             lastAmount := lastBidAmount s |}).

(** ** Outcome tracker *)

Definition resolveOutcome (t : Trend) (open close : Q) : Outcome :=
  if Qeq_bool close open then Tie
  else
    match t with
    | Call => if Qgtb close open then Win else Loss
    | Put => if Qltb close open then Win else Loss
    end.

Definition isWin (o : Outcome) : bool :=
  match o with Win => true | _ => false end.

(** The loss branch of the settlement loop outside switch-demo mode. *)
Definition settleLoss : M unit :=
  s <- this ;;
  assign set_lossStreak (lossStreak s + 1) ;;
  match resetMartingale cfg with
  | Some r =>
      if r =? 0 then assign set_martingaleStep 0
      else if (r >? 0) && (martingaleStep s >=? r) then
        assign set_martingaleStep 0 ;;
        assign set_lossStreak 0 ;;
        assign set_repeatStep 0 ;;
        assign set_shouldUseSignal true ;;
        applyCooldown ;;
        emit (Log LogResetMartingaleTriggered)
      else assign set_martingaleStep (martingaleStep s + 1)
  | None => assign set_martingaleStep (martingaleStep s + 1)
  end ;;
  s1 <- this ;;
  assign set_martingaleStep (Z.min (martingaleStep s1) MAX_K_STEP) ;;
  match maxMartingale cfg with
  | Some maxStep =>
      if maxStep >? 0 then
        if repeatStep s1 <? maxStep
        then assign set_repeatStep (repeatStep s1 + 1)
        else assign set_repeatStep 0
      else assign set_repeatStep 0
  | None => assign set_repeatStep 0
  end ;;
  s2 <- this ;;
  when (disableRepeatAfterDemo s2) (assign set_repeatStep 0) ;;
  s3 <- this ;;
  assign set_shouldUseSignal (repeatStep s3 =? 0).

(** The win branch of the settlement loop. *)
Definition settleWin : M unit :=
  s <- this ;;
  if switchDemoActive s then
    assign set_switchDemoActive false ;;
    let resumeStep := orDefault (switchDemoStep s) (martingaleStep s) in
    assign set_switchDemoStep None ;;
    assign set_forceDemo false ;;
    assign set_currentWalletType (orDefault (switchDemoReturnWallet s) Real) ;;
    assign set_switchDemoReturnWallet None ;;
    assign set_allowAutoSwitch true ;;
    assign set_lastBidWasSwitchDemo false ;;
    assign set_martingaleStep resumeStep ;;
    assign set_repeatStep 0 ;;
    assign set_disableRepeatAfterDemo true ;;
    assign set_skipStopLossOnce true ;;
    emit (Log (LogExitingSwitchDemo resumeStep)) ;;
    applyCooldown
  else
    assign set_lossStreak 0 ;;
    assign set_martingaleStep 0 ;;
    assign set_repeatStep 0 ;;
    assign set_shouldUseSignal true ;;
    assign set_allowAutoSwitch true ;;
    assign set_disableRepeatAfterDemo false ;;
    applyCooldown.

(** The end of the loop body, after the outcome branches.
    [queueFastReentry] suspends on the candle fetch at once, so the call only
    queues it. *)
Definition settleTail (bid : OpenedBid) : M unit :=
  s1 <- this ;;
  emit (Log (if shouldUseSignal s1 then LogNextBidUseSignal
             else LogNextBidUseMartingale)) ;;
  persistBotState ;;
  when (status_eqb (status s1) Running && strategy_eqb (strategy cfg) Fast)
    (emit (Log LogFastAutoBid) ;; emit (QueueFastReentry (trend bid))).

(** The body of [for (const bid of matching)] in handleCloseDealBatch. *)
Definition settleBid (endRate : Q) (bid : OpenedBid) : M unit :=
  let outcome := resolveOutcome (trend bid) (openRate bid) endRate in
  s <- this ;;
  let isDemoMode :=
    forceDemo s || wallet_eqb (currentWalletType s) Demo
    || switchDemoActive s || disableRepeatAfterDemo s in
  when (strategy_eqb (strategy cfg) Fast)
    (if negb isDemoMode && isWin outcome
     then assign set_fastRepeatTrend (Some (trend bid))
     else assign set_fastRepeatTrend None) ;;
  match outcome with
  | Win => settleWin
  | Loss =>
      if switchDemoActive s then emit (Log LogSwitchDemoLossIgnored)
      else settleLoss
  | Tie => skip
  end ;;
  settleTail bid.

Fixpoint lookupRef (topic : string) (refs : list (string * Z)) : option Z :=
  match refs with
  | [] => None
  | (t, r) :: rest => if String.eqb t topic then Some r else lookupRef topic rest
  end.

Definition sendStreamPing : M unit :=
  s <- this ;;
  if negb (isOpen (streamSocket s)) then skip
  else
    let ref := nextRef s in
    assign set_nextRef (nextRef s + 1) ;;
    let joinRef :=
      orElse (lookupRef "connection" (joinRefs s))
             (lookupRef (String.append "asset:" (asset cfg)) (joinRefs s)) in
    let frame :=
      match joinRef with
      | Some j => if j =? 0 then PingFrame ref None else PingFrame ref (Some j)
      | None => PingFrame ref None
      end in
    emit (Log (LogWsSend StreamChannel frame)) ;;
    emit (Send StreamChannel frame).

(** [refreshProfitFromApi]: [api] is what the deal-history collaborator
    yields, the pair (demoTotal, realTotal) of today's realized profit, or
    [None] when reading the response throws. *)
Definition refreshProfitFromApi (api : option (Q * Q)) : M unit :=
  match api with
  | Some (demoTotal, realTotal) =>
      assign set_profitDemo demoTotal ;;
      assign set_profitReal realTotal ;;
      assign set_totalProfit (demoTotal + realTotal)%Q ;;
      emit (Log (LogTrackedProfit realTotal demoTotal)) ;;
      sendStreamPing
  | None => emit (Err ErrRefreshingProfit)
  end.

Definition getCurrentProfit (s : Engine) : Q :=
  let wallet := if forceDemo s then Demo else currentWalletType s in
  if wallet_eqb wallet Demo then profitDemo s else profitReal s.

Definition shouldSwitchToDemo (s : Engine) : bool :=
  autoSwitchDemo cfg && wallet_eqb (currentWalletType s) Real
  && negb (switchDemoActive s).

Definition stopProfitCheck : M unit :=
  match stopProfitAfter cfg with
  | Some after =>
      if Qgtb after 0 then
        s <- this ;;
        let current := getCurrentProfit s in
        let target := (after * 100)%Q in
        emit (Log (LogStopProfitCheck current target)) ;;
        when (Qle_bool target current) (stop StopProfitReached)
      else skip
  | None => skip
  end.

Definition stopLossBreached (s : Engine) : bool :=
  negb (switchDemoActive s) &&
  match stopLoss cfg with
  | Some sl => (sl >? 0) && (martingaleStep s >? sl)
  | None => false
  end.

Definition applyRiskRules : M unit :=
  s <- this ;;
  if skipStopLossOnce s then
    assign set_skipStopLossOnce false ;;
    stopProfitCheck
  else if stopLossBreached s then
    if shouldSwitchToDemo s && allowAutoSwitch s then
      assign set_switchDemoReturnWallet (Some Real) ;;
      assign set_currentWalletType Demo ;;
      assign set_forceDemo true ;;
      assign set_switchDemoActive true ;;
      assign set_switchDemoStep (Some (martingaleStep s)) ;;
      assign set_allowAutoSwitch false ;;
      assign set_lastBidWasSwitchDemo true ;;
      emit (Log LogStopLossSwitching) ;;
      persistBotState
    else if negb (autoSwitchDemo cfg) then
      stop (StopLossReached (martingaleStep s))
    else stopProfitCheck
  else stopProfitCheck.

Record BatchPayload : Type := {
  batch_ric : option string;
  batch_asset_ric : option string;
  batch_finished_at : option string;
  batch_end_rate : option Q;
  batch_close_rate : option Q
}.

Definition batchRic (p : BatchPayload) : string :=
  orDefault (orElse (batch_ric p) (batch_asset_ric p)) EmptyString.

Definition batchFinishedAt (p : BatchPayload) : string :=
  orDefault (batch_finished_at p) EmptyString.

Definition batchEndRate (p : BatchPayload) : Q :=
  orDefault (orElse (batch_end_rate p) (batch_close_rate p)) 0%Q.

Definition batchKeyOf (p : BatchPayload) : string :=
  String.append (batchRic p) (String.append ":" (batchFinishedAt p)).

Definition matchesBatch (ric finishedAt : string) (bid : OpenedBid) : bool :=
  String.eqb (assetRic bid) ric && String.eqb (closeAt bid) finishedAt.

(** The dedupe set after a new batch key: the key is added and, past 100
    entries, the 50 oldest are deleted. *)
Definition recordBatchKey (batchKey : string) (seen : StrSet) : StrSet :=
  let seen' := set_add batchKey seen in
  if size seen' >? 100 then set_evict 50 seen' else seen'.

(** handleCloseDealBatch up to its [await]: dedupe, match, settle every
    matching bid.  The result tells whether the method goes on to the profit
    refresh (it returned early otherwise). *)
Definition handleCloseDealBatch_settle (p : BatchPayload) : M bool :=
  emit (Log LogCloseDealBatch) ;;
  let ric := batchRic p in
  let finishedAt := batchFinishedAt p in
  let endRate := batchEndRate p in
  if negb (nonEmpty ric) || negb (nonEmpty finishedAt) then ret false
  else
    let batchKey := batchKeyOf p in
    s <- this ;;
    if set_has batchKey (processedBatches s) then ret false
    else
      assign set_processedBatches
        (recordBatchKey batchKey (processedBatches s)) ;;
      s1 <- this ;;
      let matching := filter (matchesBatch ric finishedAt) (openedBids s1) in
      if size matching =? 0 then
        emit (Log (LogNoOpenedBidMatches batchKey)) ;; ret false
      else
        assign set_openedBids
          (filter (fun bid => negb (matchesBatch ric finishedAt bid))
                  (openedBids s1)) ;;
        forEach matching (settleBid endRate) ;;
        ret true.

(** The rest of handleCloseDealBatch, run when the profit refresh is back. *)
Definition handleCloseDealBatch_resume (api : option (Q * Q)) : M unit :=
  refreshProfitFromApi api ;;
  emit (RefreshEvent RefreshTrackedProfit) ;;
  applyRiskRules.

Definition handleCloseDealBatch (p : BatchPayload) (api : option (Q * Q))
  : M unit :=
  settled <- handleCloseDealBatch_settle p ;;
  if settled then handleCloseDealBatch_resume api else skip.

(** ** Inbound socket events *)

(** The payload of an [opened] event, fields as read by the handler (after
    [String(...)] and [Number(...)]). *)
Record OpenedPayload : Type := {
  opened_uuid : option string;
  opened_asset_ric : option string;
  opened_ric : option string;
  opened_close_quote_created_at : option string;
  opened_finished_at : option string;
  opened_open_rate : option Q;
  opened_openRate : option Q;
  opened_trend : option string;
  opened_amount : JsNum;
  opened_payment : JsNum;
  opened_deal_type : option string
}.

Inductive SocketEvent : Type :=
| PhxReplyBo (responseUuid : option string)
| OpenedEvent (item : OpenedPayload)
| CloseDealBatchEvent (p : BatchPayload) (api : option (Q * Q))
| BalanceChanged (accountType : string) (balance : Q) (currency : string)
| OtherEvent.

Definition walletName (w : Wallet) : string :=
  match w with Real => "real" | Demo => "demo" end.

Definition handlePhxReply (responseUuid : option string) : M unit :=
  match responseUuid with
  | Some u =>
      when (nonEmpty u)
        (s <- this ;;
         assign set_pendingUUIDs (set_add u (pendingUUIDs s)) ;;
         s1 <- this ;;
         when (size (pendingUUIDs s1) >? 20)
           (assign set_pendingUUIDs (set_evict 10 (pendingUUIDs s1))))
  | None => skip
  end ;;
  assign set_bidInFlightUntil None.

Definition handleOpened (item : OpenedPayload) : M unit :=
  s <- this ;;
  let uuid := orDefault (opened_uuid item) EmptyString in
  if nonEmpty uuid && negb (set_has uuid (pendingUUIDs s)) then
    emit (Log (LogIgnoringOpened uuid))
  else
    when (nonEmpty uuid)
      (assign set_pendingUUIDs (set_delete uuid (pendingUUIDs s))) ;;
    assign set_bidInFlightUntil None ;;
    let assetRic :=
      orDefault (orElse (opened_asset_ric item) (opened_ric item))
        EmptyString in
    let closeAt :=
      orDefault (orElse (opened_close_quote_created_at item)
                        (opened_finished_at item)) EmptyString in
    let openRate :=
      orDefault (orElse (opened_open_rate item) (opened_openRate item)) 0%Q in
    let trend :=
      if String.eqb (toLowerCase (orDefault (opened_trend item) "CALL")) "put"
      then Put else Call in
    let amount := safeNumber (opened_amount item) in
    let payment := safeNumber (opened_payment item) in
    let dealType :=
      toLowerCase (orDefault (opened_deal_type item)
                             (walletName (currentWalletType s))) in
    when (nonEmpty assetRic && nonEmpty closeAt)
      (s1 <- this ;;
       assign set_openedBids
         (openedBids s1 ++
          [ {| assetRic := assetRic; closeAt := closeAt; openRate := openRate;
               trend := trend;
               uuid := if nonEmpty uuid then Some uuid else None;
               amount := amount; payment := payment;
               dealType := if String.eqb dealType "real" then Real else Demo
            |} ]) ;;
       s2 <- this ;;
       when (size (openedBids s2) >? 50)
         (assign set_openedBids (tl (openedBids s2)))).

Definition handleBalanceChanged (accountType : string) (balance : Q)
  (currency : string) : M unit :=
  when (String.eqb accountType "real") (assign set_balanceReal balance) ;;
  when (String.eqb accountType "demo") (assign set_balanceDemo balance) ;;
  emit (BalanceEvent accountType balance currency).

Definition handleSocketEvent (ev : SocketEvent) : M unit :=
  match ev with
  | PhxReplyBo u => handlePhxReply u
  | OpenedEvent item => handleOpened item
  | CloseDealBatchEvent p api => handleCloseDealBatch p api
  | BalanceChanged a b c => handleBalanceChanged a b c
  | OtherEvent => skip
  end.

(** ** Sending a bid *)

(** [Date] values are epoch milliseconds; their fields are read and written
    in local time.  The local zone is given by its offsets from UTC, in
    milliseconds: [offsetAt t] is the offset in force at the instant [t],
    [offsetOfLocal l] the offset by which the local time value [l] is turned
    back into an instant.  A daylight-saving change makes both jump; which
    offset a repeated or skipped local time gets is up to the zone.  Instants
    stay within the range of [Date], as every reading of the clock does. *)
Record Zone : Type := {
  offsetAt : Z -> Z;
  offsetOfLocal : Z -> Z
}.

(** The local time value of an instant, and the instant of a local time
    value. *)
Definition localTime (z : Zone) (d : Z) : Z := d + offsetAt z d.
Definition utcOf (z : Zone) (l : Z) : Z := l - offsetOfLocal z l.

Definition getSeconds (z : Zone) (d : Z) : Z := (localTime z d / 1000) mod 60.
Definition getMinutes (z : Zone) (d : Z) : Z := (localTime z d / 60000) mod 60.
(** [setMinutes(m)]: the minutes field of the local time becomes [m]; what is
    outside 0..59 carries into the hours; the result is turned back into an
    instant. *)
Definition setMinutes (z : Zone) (d m : Z) : Z :=
  let l := localTime z d in
  utcOf z (l + (m - (l / 60000) mod 60) * 60000).
(** [setSeconds(0, 0)]: seconds and milliseconds of the local time become 0. *)
Definition setSecondsZero (z : Zone) (d : Z) : Z :=
  let l := localTime z d in
  utcOf z (l - l mod 60000).

Definition intervalMinutes : option Z :=
  match interval cfg with Some n => Some (Z.max 1 n) | None => None end.

(** [expireAt] of sendBid; [None] when the interval is not a number. *)
Definition expireAtOf (z : Zone) (nowMs : Z) : option Z :=
  match intervalMinutes with
  | Some n =>
      let seconds := getSeconds z nowMs in
      let d := setMinutes z nowMs
                 (getMinutes z nowMs + n + (if seconds >? 30 then 1 else 0)) in
      Some (setSecondsZero z d / 1000)
  | None => None
  end.

(** The three readings of [Date.now()] in sendBid, in order, and the local
    zone. *)
Record Clock : Type := {
  zone : Zone;
  nowMs : Z;
  nowGuard : Z;
  nowEnd : Z
}.

(** [amounts.forEach((amount, amountIndex) => ...)] of sendBid. *)
Fixpoint sendAmounts (now index : Z) (expireAt : option Z) (t : Trend)
  (total : Z) (amountIndex : Z) (amounts : list Z) : M unit :=
  match amounts with
  | [] => skip
  | amount :: rest =>
      s <- this ;;
      let createdAt := now + (index + amountIndex) * 500 in
      let ref := nextRef s in
      assign set_nextRef (nextRef s + 1) ;;
      let joinRef := orDefault (lookupRef "bo" (joinRefs s)) ref in
      let frame :=
        BidCreate createdAt expireAt (asset cfg)
          (if forceDemo s then Demo else currentWalletType s)
          (if strategy_eqb (strategy cfg) Flash5st then Blitz else Turbo)
          t amount ref joinRef in
      (if isOpen (streamSocket s) then
         emit (Log (LogWsSend StreamChannel frame)) ;;
         emit (Send StreamChannel frame)
       else
         match tradeSocket s with
         | Some _ =>
             emit (Log (LogWsSend TradeChannel frame)) ;;
             emit (Send TradeChannel frame)
         | None => skip
         end) ;;
      emit (Log (LogBid (amountIndex + 1) total t amount expireAt
                   (martingaleStep s) (repeatStep s))) ;;
      sendAmounts now index expireAt t total (amountIndex + 1) rest
  end.

(** The trend that goes out and the update of lastSignalTrend and
    lastFastBidTrend. *)
Definition chooseTrend (t : Trend) : M Trend :=
  s <- this ;;
  let canRepeat :=
    match maxMartingale cfg with
    | Some maxStep => (maxStep >? 0) && (repeatStep s >? 0)
    | None => false
    end in
  let isDemoMode :=
    forceDemo s || wallet_eqb (currentWalletType s) Demo
    || switchDemoActive s || disableRepeatAfterDemo s in
  if strategy_eqb (strategy cfg) Fast then
    match (if negb isDemoMode then fastRepeatTrend s else None) with
    | Some r =>
        assign set_lastSignalTrend (Some r) ;;
        assign set_lastFastBidTrend (Some r) ;;
        ret r
    | None =>
        match (if canRepeat && negb isDemoMode
               then lastSignalTrend s else None) with
        | Some r => assign set_lastFastBidTrend (Some r) ;; ret r
        | None =>
            assign set_lastSignalTrend (Some t) ;;
            assign set_lastFastBidTrend (Some t) ;;
            ret t
        end
    end
  else
    match (if canRepeat then lastSignalTrend s else None) with
    | Some r => ret r
    | None => assign set_lastSignalTrend (Some t) ;; ret t
    end.

(** sendBid from the cooldown step on, once every guard has passed. *)
Definition sendBid_place (t : Trend) (index : Z) (clk : Clock) : M unit :=
  trendToSend <- chooseTrend t ;;
  amounts <- calculateBidAmounts ;;
  if size amounts =? 0 then emit (Err ErrBidNotSent)
  else
    assign set_lastBidAt (nowMs clk) ;;
    let expireAt := expireAtOf (zone clk) (nowMs clk) in
    when (size amounts >? 1)
      (emit (Log (LogBidSplit (sum amounts) (size amounts)))) ;;
    assign set_lastBidAmount (hd_error amounts) ;;
    sendAmounts (nowMs clk) index expireAt trendToSend (size amounts) 0
      amounts ;;
    let bidCooldownMs :=
      if strategy_eqb (strategy cfg) Flash5st then 5000 else 10000 in
    assign set_bidInFlightUntil (Some (nowEnd clk + bidCooldownMs)) ;;
    s <- this ;;
    assign set_lastBidStep (martingaleStep s) ;;
    assign set_lastBidWasSwitchDemo (forceDemo s) ;;
    persistBotState.

Definition sendBid_cooldown (t : Trend) (index : Z) (clk : Clock) : M unit :=
  s <- this ;;
  if cooldownActive s then
    assign set_cooldownCount (cooldownCount s + 1) ;;
    emit (Log (LogCooldown (cooldownCount s + 1) (cooldownMax s)
                 (martingaleStep s >? 0))) ;;
    if cooldownCount s + 1 <=? cooldownMax s then skip
    else
      assign set_cooldownActive false ;;
      assign set_cooldownCount 0 ;;
      sendBid_place t index clk
  else sendBid_place t index clk.

Definition intervalGuard (bypassInterval : bool) (clk : Clock) (s : Engine)
  : option (Z * Z) :=
  if negb (strategy_eqb (strategy cfg) Signal) && negb bypassInterval then
    let minIntervalMs :=
      if strategy_eqb (strategy cfg) Flash5st then Some 5000
      else match intervalMinutes with
           | Some n => Some (n * 60000)
           | None => None
           end in
    match minIntervalMs with
    | Some m =>
        if nowMs clk - lastBidAt s <? m - 250
        then Some (nowMs clk - lastBidAt s, m) else None
    | None => None
    end
  else None.

Definition bidInFlight (clk : Clock) (s : Engine) : bool :=
  match bidInFlightUntil s with
  | Some until => negb (until =? 0) && (nowGuard clk <? until)
  | None => false
  end.

Definition sendBid (t : Trend) (index : Z) (bypassInterval : bool)
  (clk : Clock) : M unit :=
  s <- this ;;
  if negb (status_eqb (status s) Running) then emit (Log LogSkipNotRunning)
  else
    emit (Log (LogSendBidInvoked t (tradeReady s) (streamReady s))) ;;
    emit (RefreshEvent RefreshBid) ;;
    match intervalGuard bypassInterval clk s with
    | Some (elapsed, minIntervalMs) =>
        emit (Log (LogSkipInterval elapsed minIntervalMs))
    | None =>
        if bidInFlight clk s then emit (Log LogSkipInFlight)
        else if (size (openedBids s) >? 0) || (size (pendingUUIDs s) >? 0)
        then
          emit (Log (LogSkipOpenPosition (size (openedBids s))
                       (size (pendingUUIDs s))))
        else if negb (tradeReady s) || negb (streamReady s) then
          emit (Err (ErrWsNotReady (tradeReady s) (streamReady s)))
        else if negb (isOpen (tradeSocket s)) then
          emit (Err ErrTradeSocketNotConnected)
        else sendBid_cooldown t index clk
    end.

(** ** Resume state *)

Definition loadBotState : M unit :=
  s <- this ;;
  match storage s with
  | NoItem => skip
  | Item st =>
      assign set_lastBidStep (orDefault (lastStep st) 0) ;;
      assign set_lastBidWasSwitchDemo (lastWasSwitchDemo st) ;;
      let t := orElse (lastTrend st) (lastSignalTrend s) in
      assign set_lastSignalTrend t ;;
      assign set_lastFastBidTrend t ;;
      assign set_fastRepeatTrend None ;;
      assign set_lastBidAmount (orElse (lastAmount st) (lastBidAmount s))
  | Corrupt =>
      assign set_lastBidStep 0 ;;
      assign set_lastBidWasSwitchDemo false ;;
      assign set_lastSignalTrend None ;;
      assign set_lastFastBidTrend None ;;
      assign set_lastBidAmount None
  end.

(** A value found where a deal list is expected. *)
Inductive DealList : Type :=
| NotAnArray
| Deals (l : list DealItem).

Record DealsData : Type := {
  data_standard_trade_deals : option DealList;
  data_deals : option DealList
}.

Record DealsResponse : Type := {
  resp_data : option DealsData;
  resp_standard_trade_deals : option DealList;
  resp_deals : option DealList
}.

(** One entry of [Promise.allSettled]: rejected, or fulfilled with the
    response body [result.value.data] (absent bodies read as [{}]). *)
Inductive Settled : Type :=
| Rejected
| Fulfilled (body : option DealsResponse).

Definition dealsOf (r : Settled) : list DealItem :=
  match r with
  | Rejected => []
  | Fulfilled body =>
      let payload :=
        orDefault body {| resp_data := None;
                          resp_standard_trade_deals := None;
                          resp_deals := None |} in
      let inData (f : DealsData -> option DealList) :=
        match resp_data payload with Some d => f d | None => None end in
      let deals :=
        orDefault
          (orElse (inData data_standard_trade_deals)
             (orElse (resp_standard_trade_deals payload)
                (orElse (inData data_deals) (resp_deals payload))))
          (Deals []) in
      match deals with Deals l => l | NotAnArray => [] end
  end.

Definition isOpened (item : DealItem) : bool :=
  match deal_status item with
  | Some st => String.eqb st "opened"
  | None => false
  end.

Definition hasCreatedAt (item : DealItem) : bool :=
  match deal_created_at item with Some c => nonEmpty c | None => false end.

Section MostRecent.

(** [Number(new Date(text))]: the epoch milliseconds of a timestamp, [None]
    when the text is not a date. *)
Variable parseDate : string -> option Z.

Definition createdMs (item : DealItem) : option Z :=
  match deal_created_at item with
  | Some text => parseDate text
  | None => Some 0
  end.

(** The comparator [(a, b) => Number(new Date(b.created_at)) -
    Number(new Date(a.created_at))]; a NaN result counts as 0. *)
Definition newerFirst (a b : DealItem) : Z :=
  match createdMs b, createdMs a with
  | Some tb, Some ta => tb - ta
  | _, _ => 0
  end.

(** [Array.prototype.sort] is stable: an element goes after every earlier
    element that does not compare greater. *)
Fixpoint insertSorted (x : DealItem) (l : list DealItem) : list DealItem :=
  match l with
  | [] => [x]
  | y :: rest =>
      if newerFirst y x >? 0 then x :: y :: rest
      else y :: insertSorted x rest
  end.

Definition sortDeals (l : list DealItem) : list DealItem :=
  fold_left (fun acc x => insertSorted x acc) l [].

(** [requests] are the settled demo and real deal-history fetches. *)
Definition computeResumeState (requests : list Settled) : M ResumeState :=
  s <- this ;;
  let list := flat_map dealsOf requests in
  let openedDeals := filter isOpened list in
  if size openedDeals >? 0 then
    ret {| shouldResume := true; resumeStep := lastBidStep s + 1;
           reason := UNCLOSED_BID; lastDeal := hd_error openedDeals |}
  else
    match hd_error (sortDeals (filter hasCreatedAt list)) with
    | None =>
        ret {| shouldResume := false; resumeStep := 0; reason := NONE;
               lastDeal := None |}
    | Some last =>
        let winValue := safeNumber (deal_win last) in
        match winValue with
        | Some w =>
            if Qeq_bool w 0 then
              ret {| shouldResume := true; resumeStep := lastBidStep s + 1;
                     reason := LAST_BID_LOST; lastDeal := Some last |}
            else if lastBidWasSwitchDemo s then
              ret {| shouldResume := true; resumeStep := lastBidStep s + 1;
                     reason := LAST_BID_WON_IN_SWITCH_DEMO;
                     lastDeal := Some last |}
            else
              ret {| shouldResume := false; resumeStep := 0; reason := NONE;
                     lastDeal := Some last |}
        | None =>
            ret {| shouldResume := false; resumeStep := 0; reason := NONE;
                   lastDeal := Some last |}
        end
    end.

Definition checkResumeState (requests : list Settled) : M ResumeState :=
  loadBotState ;;
  state <- computeResumeState requests ;;
  assign set_pendingResumeState
    (if shouldResume state then Some state else None) ;;
  ret state.

End MostRecent.

End Engine.

(** ** Initial values *)

Definition DEFAULT_TRADE_CONFIG : TradeConfig := {|
  asset := "Z-CRY/IDX";
  strategy := Signal;
  interval := Some 1;
  walletType := Demo;
  bidAmountIdr := Some (inject_Z 14000);
  bidAmountUsd := Some (inject_Z 1);
  bidAmountEur := Some (inject_Z 1);
  autoSwitchDemo := true;
  martingale := Some (inject_Z 130);
  maxMartingale := Some 1;
  resetMartingale := Some 2;
  stopLoss := Some 2;
  stopProfitAfter := Some (inject_Z 999999999)
|}.

(** The field initializers of BotService. *)
Definition initialEngine : Engine := {|
  tradeSocket := None;
  streamSocket := None;
  heartbeatTimer := false;
  signalTimers := O;
  status := Idle;
  pendingUUIDs := [];
  openedBids := [];
  processedBatches := [];
  martingaleStep := 0;
  lossStreak := 0;
  totalProfit := 0%Q;
  balanceReal := 0%Q;
  balanceDemo := 0%Q;
  userCurrency := "IDR";
  currentWalletType := Demo;
  forceDemo := false;
  allowAutoSwitch := true;
  nextRef := 1;
  joinRefs := [];
  lastBidStep := 0;
  lastBidWasSwitchDemo := false;
  reconnectTimer := false;
  lastWsError := (None, None);
  cooldownActive := false;
  cooldownCount := 0;
  cooldownMax := 5;
  shouldUseSignal := true;
  repeatStep := 0;
  lastSignalTrend := None;
  pendingResumeState := None;
  tradeReady := false;
  streamReady := false;
  tradeConnected := false;
  streamConnected := false;
  lastFastBidTrend := None;
  fastRepeatTrend := None;
  bidInFlightUntil := None;
  switchDemoActive := false;
  switchDemoStep := None;
  switchDemoReturnWallet := None;
  disableRepeatAfterDemo := false;
  skipStopLossOnce := false;
  profitReal := 0%Q;
  profitDemo := 0%Q;
  lastBidAt := 0;
  lastBidAmount := None;
  disconnecting := false;
  storage := NoItem
|}.

(** The engine once [start] has brought both channels up: running, both
    sockets open and joined, the bo topic joined with ref 6. *)
Definition runningEngine : Engine :=
  set_status Running
    (set_tradeSocket (Some OPEN)
       (set_streamSocket (Some OPEN)
          (set_tradeReady true
             (set_streamReady true
                (set_tradeConnected true
                   (set_streamConnected true
                      (set_heartbeatTimer true
                         (set_joinRefs [("connection", 1); ("bo", 6)]
                            (set_nextRef 13 initialEngine))))))))).

(** A call bid on the default asset opened at rate 100, due at [closeAt]. *)
Definition callBid (closeAt : string) : OpenedBid := {|
  assetRic := "Z-CRY/IDX";
  closeAt := closeAt;
  openRate := inject_Z 100;
  trend := Call;
  uuid := None;
  amount := None;
  payment := None;
  dealType := Demo
|}.

(** The settlement batch of the default asset at [finishedAt] with the given
    end rate. *)
Definition batchAt (finishedAt : string) (endRate : Q) : BatchPayload := {|
  batch_ric := Some "Z-CRY/IDX";
  batch_asset_ric := None;
  batch_finished_at := Some finishedAt;
  batch_end_rate := Some endRate;
  batch_close_rate := None
|}.

(** * Further methods of the engine *)

(** ** Applying a resume state *)

Definition clampStep (cfg : TradeConfig) (step : Z) : Z :=
  match resetMartingale cfg with
  | None => Z.max 0 step
  | Some r =>
      if r =? 0 then 0
      else if r >? 0 then Z.max 0 (Z.min step r)
      else Z.max 0 step
  end.

(** [applyResumeState].  The method emits one log line on the paths that
    resume; the result is the reason that line names, [None] when the method
    returns without a log. *)
Definition applyResumeState (cfg : TradeConfig) (state : ResumeState)
  : M (option ResumeReason) :=
  if negb (shouldResume state) then ret None
  else
    match reason state with
    | UNCLOSED_BID | LAST_BID_LOST =>
        assign set_martingaleStep
          (Z.min (clampStep cfg (resumeStep state)) MAX_K_STEP) ;;
        assign set_repeatStep 0 ;;
        assign set_shouldUseSignal true ;;
        ret (Some (reason state))
    | LAST_BID_WON_IN_SWITCH_DEMO =>
        assign set_forceDemo false ;;
        assign set_currentWalletType (walletType cfg) ;;
        assign set_allowAutoSwitch false ;;
        assign set_martingaleStep 0 ;;
        assign set_lossStreak 0 ;;
        ret (Some LAST_BID_WON_IN_SWITCH_DEMO)
    | NONE => ret None
    end.

(** ** Trends from candles *)

Record CandlePoint : Type := {
  candle_open : Q;
  candle_close : Q
}.

Definition isGreen (c : CandlePoint) : bool :=
  Qgtb (candle_close c) (candle_open c).

Definition isRed (c : CandlePoint) : bool :=
  Qltb (candle_close c) (candle_open c).

(** [candles[candles.length - k]], undefined outside the array. *)
Definition fromEnd (k : nat) (candles : list CandlePoint)
  : option CandlePoint :=
  if Nat.ltb (List.length candles) k then None
  else nth_error candles (List.length candles - k).

(** The branch of computeTrend taken under the Fast strategy. *)
Definition computeTrend_Fast (candles : list CandlePoint)
  : M (option Trend) :=
  s <- this ;;
  match fromEnd 1 candles with
  | None => ret None
  | Some candle =>
      if isGreen candle then ret (Some Call)
      else if isRed candle then ret (Some Put)
      else
        let remembered := orElse (lastFastBidTrend s) (lastSignalTrend s) in
        match fromEnd 2 candles with
        | Some prev =>
            if isGreen prev then ret (Some Call)
            else if isRed prev then ret (Some Put)
            else ret remembered
        | None => ret remembered
        end
  end.

(** The branch of computeTrend taken under the Momentum strategy.  The
    field momentumNoSignalSince is passed in as [since] and handed back with
    the trend; [now] is the reading of [Date.now()]. *)
Definition computeTrend_Momentum (candles : list CandlePoint) (now : Z)
  (since : option Z) : option Trend * option Z :=
  match fromEnd 2 candles, fromEnd 1 candles with
  | Some prev, Some last =>
      if isGreen prev && isGreen last then (Some Call, None)
      else if isRed prev && isRed last then (Some Put, None)
      else
        match since with
        | Some t =>
            if t =? 0 then (None, Some now)
            else if now - t >=? 5 * 60 * 1000 then
              if isGreen last then (Some Call, None)
              else if isRed last then (Some Put, None)
              else (None, since)
            else (None, since)
        | None => (None, Some now)
        end
  | _, _ => (None, since)
  end.

(** queueFastReentry once the candles are back; it runs only under the Fast
    strategy, where computeTrend takes its Fast branch. *)
Definition queueFastReentry_resume (cfg : TradeConfig)
  (candles : list CandlePoint) (fallbackTrend : Trend) (clk : Clock)
  : M unit :=
  t <- computeTrend_Fast candles ;;
  s <- this ;;
  let canRepeat :=
    match maxMartingale cfg with
    | Some maxStep => (maxStep >? 0) && (repeatStep s >? 0)
    | None => false
    end in
  match t with
  | None =>
      if negb canRepeat then skip
      else
        sendBid cfg
          (orDefault (orElse (lastSignalTrend s) (lastFastBidTrend s))
             fallbackTrend)
          0 true clk
  | Some found => sendBid cfg found 0 true clk
  end.

(** ** What drives the engine *)

(** A socket event arrives, a strategy timer asks for a bid, the candles of
    a queued fast re-entry come back, or a resume state is applied. *)
Inductive Action : Type :=
| OnEvent (ev : SocketEvent)
| OnBid (t : Trend) (index : Z) (bypassInterval : bool) (clk : Clock)
| OnFastReentry (candles : list CandlePoint) (fallbackTrend : Trend)
    (clk : Clock)
| OnResume (state : ResumeState).

Definition perform (cfg : TradeConfig) (a : Action) : M unit :=
  match a with
  | OnEvent ev => handleSocketEvent cfg ev
  | OnBid t index bypass clk => sendBid cfg t index bypass clk
  | OnFastReentry candles fallbackTrend clk =>
      queueFastReentry_resume cfg candles fallbackTrend clk
  | OnResume state => applyResumeState cfg state ;; skip
  end.

Definition runActions (cfg : TradeConfig) (actions : list Action) : M unit :=
  forEach actions (perform cfg).

(** * The native engine (NativeBotService.kt): bid sizing and expiry *)

(** The Android service runs the same ladder in Kotlin.  Amounts are
    [Int], 32-bit integers whose arithmetic wraps around; times are [Long]. *)

(** A loop that has ended with a result or goes on from a state. *)
Inductive Loop (St Res : Type) : Type :=
| Done (r : Res)
| More (s : St).

Arguments Done {St Res} r.
Arguments More {St Res} s.

(** At most [fuel] rounds of a loop body, the fuel written in binary. *)
Fixpoint iterate {St Res : Type} (step : St -> Loop St Res) (fuel : positive)
  (s : St) : Loop St Res :=
  match fuel with
  | xH => step s
  | xO p =>
      match iterate step p s with
      | Done r => Done r
      | More s' => iterate step p s'
      end
  | xI p =>
      match step s with
      | Done r => Done r
      | More s' =>
          match iterate step p s' with
          | Done r => Done r
          | More s'' => iterate step p s''
          end
      end
  end.

Module Native.

Definition INT_MIN : Z := - 2 ^ 31.
Definition INT_MAX : Z := 2 ^ 31 - 1.
Definition MAX_K_STEP : Z := 100.

(** The value of an [Int] expression whose mathematical result is [z]. *)
Definition wrap (z : Z) : Z := (z + 2 ^ 31) mod 2 ^ 32 - 2 ^ 31.

(** [Double.roundToInt()]: the nearest integer, halves towards plus
    infinity, clamped to the range of [Int]. *)
Definition roundToInt (x : Q) : Z :=
  Z.max INT_MIN (Z.min INT_MAX (mathRound x)).

(** The entries of the configuration object that bid sizing and the expiry
    read, each as its parser returns it: [toIntOrNull] and [toDoubleOrNull]
    give [None] for text that is not a number of the type. *)
Record Config : Type := {
  currency : string;
  bidAmountUsd : option Z;
  bidAmountEur : option Z;
  bidAmountIdr : option Z;
  martingale : option Q;
  resetMartingale : option Z;
  interval : option Z
}.

Inductive BidError : Type :=
| AmountNonPositive
| BelowMinimum (minBid : Z).

(** [for (i in 1..step)] of calculateBidAmounts, [n] rounds left. *)
Fixpoint compound (n : nat) (rate total : Q) (amount : Z) : Z :=
  match n with
  | O => amount
  | S n' =>
      let amount' := roundToInt (total * rate)%Q in
      compound n' rate (total + inject_Z amount')%Q amount'
  end.

(** The pair (minBid, maxBid) of calculateBidAmounts; the products are
    [Int] products. *)
Definition bidBounds (cur : string) : Z * Z :=
  if String.eqb cur "USD" then (wrap (1 * 100), wrap (5000 * 100))
  else if String.eqb cur "EUR" then (wrap (1 * 100), wrap (4600 * 100))
  else (wrap (14000 * 100), wrap (74000000 * 100)).

(** One round of [while (remaining > 0)] in splitBidAmounts. *)
Definition splitStep (minBid maxBid : Z) (st : Z * list Z)
  : Loop (Z * list Z) (list Z) :=
  let (remaining, chunks) := st in
  if remaining >? 0 then
    if remaining <=? maxBid then Done (chunks ++ [remaining])
    else
      let remainder := wrap (remaining - maxBid) in
      let next :=
        if (remainder >? 0) && (remainder <? minBid)
        then wrap (remaining - minBid) else maxBid in
      More (wrap (remaining - next), chunks ++ [next])
  else Done chunks.

(** The loop is driven by [remaining] alone, a 32-bit value: when it has
    not ended after 2^32 rounds it never ends, which is [None]. *)
Definition splitBidAmounts (total minBid maxBid : Z) : option (list Z) :=
  if total <=? maxBid then Some [total]
  else
    match iterate (splitStep minBid maxBid) (2 ^ 32)%positive (total, []) with
    | Done chunks => Some chunks
    | More _ => None
    end.

(** calculateBidAmounts: the error it reports, if any, and the amounts it
    returns ([None] when the split loop does not end). *)
Definition calculateBidAmounts (config : Config) (switchDemoActive : bool)
  (martingaleStep : Z) : option BidError * option (list Z) :=
  let cur := currency config in
  let base :=
    if String.eqb cur "USD" then orDefault (bidAmountUsd config) 1
    else if String.eqb cur "EUR" then orDefault (bidAmountEur config) 1
    else orDefault (bidAmountIdr config) 14000 in
  let percent := orDefault (martingale config) 0%Q in
  let reset := orDefault (resetMartingale config) 0 in
  let step :=
    if switchDemoActive then 0
    else if reset =? 0 then 0
    else if reset >? 0 then Z.min martingaleStep reset
    else martingaleStep in
  let step := if step >? MAX_K_STEP then MAX_K_STEP else step in
  let rate := if Qgtb percent 0 then (percent / 100)%Q else 1%Q in
  let amount :=
    if step >? 0 then compound (Z.to_nat step) rate (inject_Z base) base
    else base in
  let rawAmount := wrap (amount * 100) in
  let (minBid, maxBid) := bidBounds cur in
  if rawAmount <=? 0 then (Some AmountNonPositive, Some [])
  else if rawAmount <? minBid then (Some (BelowMinimum minBid), Some [])
  else if rawAmount >? maxBid then
    (None, splitBidAmounts rawAmount minBid maxBid)
  else (None, Some [rawAmount]).

(** [expireAt] of sendBid for the reading [now] of the clock; [Long]
    division truncates. *)
Definition expireAt (config : Config) (now : Z) : Z :=
  let intervalMinutes := Z.max 1 (orDefault (interval config) 1) in
  (Z.quot (Z.quot now 1000) 60 + intervalMinutes
   + (if Z.rem (Z.quot now 1000) 60 >? 30 then 1 else 0)) * 60.

End Native.

(** * The trade configuration (trade-config.ts) *)

(** The configuration travels as a plain object whose values are, by the
    type [Partial<TradeConfig>], strings and one boolean; a stored object
    may also hold null.  An object is a list of its own properties, the
    first entry of a key counting; reading a missing key gives undefined. *)

Module TradeSettings.

Inductive Value : Type :=
| VUndefined
| VNull
| VBool (b : bool)
| VString (s : string).

Definition Obj := list (string * Value).

(** [o[k]] *)
Fixpoint get (k : string) (o : Obj) : Value :=
  match o with
  | [] => VUndefined
  | (k', v) :: rest => if String.eqb k' k then v else get k rest
  end.

(** [{...a, ...b}]: the properties of [b] override those of [a]. *)
Definition spread (a b : Obj) : Obj := b ++ a.

Definition truthy (v : Value) : bool :=
  match v with
  | VString s => nonEmpty s
  | VBool b => b
  | VUndefined | VNull => false
  end.

(** [String(v)] *)
Definition toStr (v : Value) : string :=
  match v with
  | VString s => s
  | VBool true => "true"
  | VBool false => "false"
  | VNull => "null"
  | VUndefined => "undefined"
  end.

Definition DEFAULT_TRADE_CONFIG : Obj :=
  [("asset", VString "Z-CRY/IDX");
   ("currency", VString "IDR");
   ("strategy", VString "Signal");
   ("interval", VString "1");
   ("walletType", VString "demo");
   ("bidAmountIdr", VString "14000");
   ("bidAmountUsd", VString "1");
   ("bidAmountEur", VString "1");
   ("autoSwitchDemo", VBool true);
   ("signalInput", VString EmptyString);
   ("martingale", VString "130");
   ("maxMartingale", VString "1");
   ("resetMartingale", VString "2");
   ("stopLoss", VString "2");
   ("stopProfitAfter", VString "999999999");
   ("rsiPeriod", VString "14");
   ("rsiOverbought", VString "55");
   ("rsiOversold", VString "45");
   ("fastEma", VString "5");
   ("slowEma", VString "10");
   ("smaPeriod", VString "10");
   ("fastMacd", VString "12");
   ("slowMacd", VString "26");
   ("signalMacd", VString "9")].

(** [raw.k ? String(raw.k) : DEFAULT_TRADE_CONFIG.k] *)
Definition stringOrDefault (k : string) (raw : Obj) : Value :=
  if truthy (get k raw) then VString (toStr (get k raw))
  else get k DEFAULT_TRADE_CONFIG.

(** [normalizeTradeConfig(raw)]; [None] is a null or undefined [raw]. *)
Definition normalizeTradeConfig (raw : option Obj) : Obj :=
  match raw with
  | None => spread [] DEFAULT_TRADE_CONFIG
  | Some raw =>
      let rawStrategy :=
        if truthy (get "strategy" raw) then toStr (get "strategy" raw)
        else EmptyString in
      let strategy :=
        if String.eqb rawStrategy "Analysis" then "Flash 5st"
        else rawStrategy in
      let merged :=
        spread (spread DEFAULT_TRADE_CONFIG raw)
          [("strategy", VString strategy);
           ("currency",
            if truthy (get "currency" raw)
            then VString (toUpperCase (toStr (get "currency" raw)))
            else get "currency" DEFAULT_TRADE_CONFIG);
           ("bidAmountIdr", stringOrDefault "bidAmountIdr" raw);
           ("bidAmountUsd", stringOrDefault "bidAmountUsd" raw);
           ("bidAmountEur", stringOrDefault "bidAmountEur" raw)] in
      if truthy (get "bidAmount" raw)
         && negb (truthy (get "bidAmountIdr" raw))
         && negb (truthy (get "bidAmountUsd" raw))
         && negb (truthy (get "bidAmountEur" raw))
      then
        [("bidAmountIdr", VString (toStr (get "bidAmount" raw)));
         ("bidAmountUsd", VString (toStr (get "bidAmount" raw)));
         ("bidAmountEur", VString (toStr (get "bidAmount" raw)))]
        ++ merged
      else merged
  end.

End TradeSettings.

(** * Vocabulary of the properties *)

(** A computation keeps a field: the field reads the same after any run. *)
Definition keeps {A V : Type} (field : Engine -> V) (m : M A) : Prop :=
  forall e, field (exec m e) = field e.

(** A computation emits only outputs that satisfy [Q]. *)
Definition emits {A : Type} (Q : Output -> Prop) (m : M A) : Prop :=
  forall e, Forall Q (outputs m e).

(** A chunk within the bid bounds. *)
Definition inBounds (minBid maxBid c : Z) : Prop := minBid <= c <= maxBid.

(** The resetMartingale policy in the words of the specification: 0 resets
    the step to 0 after any loss; a positive N resets it to 0 once the step
    has reached N and adds 1 otherwise; negative or unset adds 1; the result
    is clamped to the hard ceiling. *)
Definition ladderAfterLoss (reset : option Z) (step : Z) : Z :=
  Z.min
    match reset with
    | Some N =>
        if N =? 0 then 0
        else if 0 <? N then (if N <=? step then 0 else step + 1)
        else step + 1
    | None => step + 1
    end
    100.

Definition losesAt (endRate : Q) (bid : OpenedBid) : Prop :=
  resolveOutcome (trend bid) (openRate bid) endRate = Loss.

(** An event of a losing streak: a settlement batch arrives outside
    switch-demo mode and every bid it settles is a loss; any other socket
    event is allowed. *)
Definition lossEvent (s : Engine) (ev : SocketEvent) : Prop :=
  match ev with
  | CloseDealBatchEvent p _ =>
      switchDemoActive s = false /\
      Forall (losesAt (batchEndRate p))
        (filter (matchesBatch (batchRic p) (batchFinishedAt p)) (openedBids s))
  | _ => True
  end.

(** The engine states reached from [s] by a losing streak: socket events
    whose settlements are all losses, with bids sent in between. *)
Inductive lossRun (cfg : TradeConfig) (s : Engine) : Engine -> Prop :=
| lossRun_start : lossRun cfg s s
| lossRun_event s1 ev :
    lossRun cfg s s1 -> lossEvent s1 ev ->
    lossRun cfg s (exec (handleSocketEvent cfg ev) s1)
| lossRun_bid s1 t index bypass clk :
    lossRun cfg s s1 ->
    lossRun cfg s (exec (sendBid cfg t index bypass clk) s1).

(** The engine after the synchronous part of handleCloseDealBatch, written
    out case by case, and whether the method goes on to the profit refresh. *)
Definition settledState (cfg : TradeConfig) (p : BatchPayload) (s : Engine)
  : Engine :=
  let ric := batchRic p in
  let finishedAt := batchFinishedAt p in
  if negb (nonEmpty ric) || negb (nonEmpty finishedAt) then s
  else if set_has (batchKeyOf p) (processedBatches s) then s
  else
    let s1 :=
      set_processedBatches
        (recordBatchKey (batchKeyOf p) (processedBatches s)) s in
    let matching := filter (matchesBatch ric finishedAt) (openedBids s) in
    if size matching =? 0 then s1
    else
      exec (forEach matching (settleBid cfg (batchEndRate p)))
        (set_openedBids
           (filter (fun bid => negb (matchesBatch ric finishedAt bid))
                   (openedBids s)) s1).

Definition settles (p : BatchPayload) (s : Engine) : bool :=
  let ric := batchRic p in
  let finishedAt := batchFinishedAt p in
  if negb (nonEmpty ric) || negb (nonEmpty finishedAt) then false
  else if set_has (batchKeyOf p) (processedBatches s) then false
  else negb (size (filter (matchesBatch ric finishedAt) (openedBids s)) =? 0).

(** The frames a run sent over either channel. *)
Definition sentFrames (outs : list Output) : list (Channel * Frame) :=
  flat_map (fun o => match o with Send ch f => [(ch, f)] | _ => [] end) outs.

(** The amount the insufficient-funds guard compares with the balance. *)
Definition computedBid (cfg : TradeConfig) (s : Engine) : Z :=
  rawAmountOf cfg (orDefault (result (getBidAmountForCurrency cfg) s) 0%Q) s.

(** The balance of the wallet the bid would be placed under. *)
Definition targetBalance (s : Engine) : Q :=
  if wallet_eqb (if forceDemo s then Demo else currentWalletType s) Demo
  then balanceDemo s else balanceReal s.

(** The default configuration with a USD bid of 6000. *)
Definition largeUsdConfig : TradeConfig := {|
  asset := "Z-CRY/IDX";
  strategy := Signal;
  interval := Some 1;
  walletType := Demo;
  bidAmountIdr := Some (inject_Z 14000);
  bidAmountUsd := Some (inject_Z 6000);
  bidAmountEur := Some (inject_Z 1);
  autoSwitchDemo := true;
  martingale := Some (inject_Z 130);
  maxMartingale := Some 1;
  resetMartingale := Some 2;
  stopLoss := Some 2;
  stopProfitAfter := Some (inject_Z 999999999)
|}.

(** A running engine of a USD account whose demo wallet holds 10.00. *)
Definition poorUsdEngine : Engine :=
  set_userCurrency "USD" (set_balanceDemo (inject_Z 1000) runningEngine).

(** A zone that keeps one offset, [minutes] ahead of UTC. *)
Definition fixedZone (minutes : Z) : Zone :=
  {| offsetAt := fun _ => minutes * 60000;
     offsetOfLocal := fun _ => minutes * 60000 |}.


(** New York around 3 November 2024: four hours behind UTC until 06:00 UTC,
    five hours behind from then on.  The clocks go back from 02:00 to 01:00
    local time; a local time of the hour that comes twice is read as its
    first pass. *)
Definition newYorkFallBack : Zone :=
  {| offsetAt := fun d =>
       if d <? 1730613600000 then -14400000 else -18000000;
     offsetOfLocal := fun l =>
       if l <? 1730599200000 then -14400000 else -18000000 |}.

(** 3 November 2024, 05:59:45 UTC: 01:59:45 in New York, fifteen seconds
    before the clocks go back. *)
Definition beforeFallBack : Z := 1730613585000.

(** 3 November 2024, 06:29:45 UTC: 01:29:45 in New York, after the clocks
    have gone back. *)
Definition afterFallBack : Z := 1730615385000.

(** 14 November 2023, 22:13:20 UTC, read in a zone seven hours ahead. *)
Definition sampleClock : Clock :=
  {| zone := fixedZone 420; nowMs := 1700000000000; nowGuard := 1700000000001;
     nowEnd := 1700000000002 |}.


(** An output that, if it is a bid-create frame, carries the expiry [ex]. *)
Definition expiresAt (ex : option Z) (o : Output) : Prop :=
  match o with
  | Send _ (BidCreate _ e _ _ _ _ _ _ _) => e = ex
  | _ => True
  end.





(** An output of the stop-loss rule: the switch to demo or the stop. *)
Definition stopLossAction (o : Output) : Prop :=
  match o with
  | Log LogStopLossSwitching => True
  | StatusEvent _ (StopLossReached _) => True
  | _ => False
  end.

(** The fields of an [opened] payload as the handler reads them. *)
Definition openedUuid (item : OpenedPayload) : string :=
  orDefault (opened_uuid item) EmptyString.

Definition openedRic (item : OpenedPayload) : string :=
  orDefault (orElse (opened_asset_ric item) (opened_ric item)) EmptyString.

Definition openedCloseAt (item : OpenedPayload) : string :=
  orDefault (orElse (opened_close_quote_created_at item)
                    (opened_finished_at item)) EmptyString.

(** The pending-UUID filter: the event carries a uuid that is not pending. *)
Definition foreignOpened (item : OpenedPayload) (s : Engine) : bool :=
  nonEmpty (openedUuid item)
  && negb (set_has (openedUuid item) (pendingUUIDs s)).

(** An [opened] event without uuid for the default asset. *)
Definition anonymousOpened (closeAt : string) : OpenedPayload := {|
  opened_uuid := None;
  opened_asset_ric := Some "Z-CRY/IDX";
  opened_ric := None;
  opened_close_quote_created_at := Some closeAt;
  opened_finished_at := None;
  opened_open_rate := Some (inject_Z 100);
  opened_openRate := None;
  opened_trend := Some "call";
  opened_amount := JNumber (inject_Z 1400000);
  opened_payment := JUndefined;
  opened_deal_type := Some "demo"
|}.

(** A deal of the history with the given status and creation time. *)
Definition dealWith (st created : string) (win : JsNum) : DealItem := {|
  deal_status := Some st;
  deal_created_at := Some created;
  deal_win := win;
  deal_amount := JNumber (inject_Z 1400000);
  deal_asset_ric := Some "Z-CRY/IDX"
|}.

(** A deal-history response whose body is [{data: {standard_trade_deals}}]. *)
Definition historyOf (deals : list DealItem) : Settled :=
  Fulfilled
    (Some {| resp_data :=
               Some {| data_standard_trade_deals := Some (Deals deals);
                       data_deals := None |};
             resp_standard_trade_deals := None;
             resp_deals := None |}).

(** A status event that reports the engine stopped, and whether a trace
    holds one. *)
Definition isStop (o : Output) : bool :=
  match o with
  | StatusEvent Stopped _ => true
  | _ => false
  end.

Definition stopped (outs : list Output) : bool := existsb isStop outs.

(** A computation keeps a field unless it reports a stop. *)
Definition keepsUnlessStopped {A V : Type} (field : Engine -> V) (m : M A)
  : Prop :=
  forall e, stopped (outputs m e) = true \/ field (exec m e) = field e.

(** A computation preserves a property of the engine. *)
Definition preserves {A : Type} (I : Engine -> Prop) (m : M A) : Prop :=
  forall e, I e -> I (exec m e).

(** Socket events handled one after the other. *)
Definition runEvents (cfg : TradeConfig) (evs : list SocketEvent) : M unit :=
  forEach evs (handleSocketEvent cfg).

Definition isBatch (ev : SocketEvent) : bool :=
  match ev with CloseDealBatchEvent _ _ => true | _ => false end.

Definition batchCount (evs : list SocketEvent) : nat :=
  List.length (filter isBatch evs).

(** The ladder state: the step counters and the switch-demo sub-state. *)
Definition ladderState (s : Engine) :=
  (martingaleStep s, lossStreak s, repeatStep s, shouldUseSignal s,
   (switchDemoActive s, switchDemoStep s, switchDemoReturnWallet s,
    disableRepeatAfterDemo s, allowAutoSwitch s, skipStopLossOnce s,
    forceDemo s)).

(** The payload has a ric and a finished_at, so it has a batch key. *)
Definition hasKey (p : BatchPayload) : bool :=
  nonEmpty (batchRic p) && nonEmpty (batchFinishedAt p).

(** No tracked bid is due at the batch of [p]. *)
Definition noMatch (p : BatchPayload) (s : Engine) : Prop :=
  filter (matchesBatch (batchRic p) (batchFinishedAt p)) (openedBids s) = [].

(** The key sits in the dedupe set once, with at most [j] keys after it. *)
Definition recentKey (key : string) (j : nat) (seen : StrSet) : Prop :=
  exists pre post,
    seen = pre ++ key :: post /\ ~ In key pre /\ (List.length post <= j)%nat.

(** The default configuration without the auto switch and without a reset of
    the ladder: the stop-loss at step 2 stops the engine. *)
Definition stopLossConfig : TradeConfig := {|
  asset := "Z-CRY/IDX";
  strategy := Signal;
  interval := Some 1;
  walletType := Demo;
  bidAmountIdr := Some (inject_Z 14000);
  bidAmountUsd := Some (inject_Z 1);
  bidAmountEur := Some (inject_Z 1);
  autoSwitchDemo := false;
  martingale := Some (inject_Z 130);
  maxMartingale := Some 1;
  resetMartingale := Some (-1);
  stopLoss := Some 2;
  stopProfitAfter := Some (inject_Z 999999999)
|}.

(** Distinct close times, written in unary. *)
Definition stamp (n : nat) : string :=
  String.append "t" (string_of_list_ascii (repeat "1"%char n)).

(** The batch keys of the stamps [from], ..., [from + count - 1]. *)
Definition stampKeys (from count : nat) : StrSet :=
  map (fun n => batchKeyOf (batchAt (stamp n) (inject_Z 99)))
      (seq from count).

(** The settlement batches of the same stamps, none with a profit update. *)
Definition stampBatches (from count : nat) : list SocketEvent :=
  map (fun n => CloseDealBatchEvent (batchAt (stamp n) (inject_Z 99)) None)
      (seq from count).

(** The tracking sets are within the bounds the handlers enforce: at most 20
    pending acknowledgements, 50 opened bids and 100 batch keys. *)
Definition boundedSets (s : Engine) : Prop :=
  size (pendingUUIDs s) <= 20
  /\ size (openedBids s) <= 50
  /\ size (processedBatches s) <= 100.

(** An [opened] event that answers the acknowledgement [u] and names an asset
    and a close time. *)
Definition openedFor (u closeAt : string) : OpenedPayload := {|
  opened_uuid := Some u;
  opened_asset_ric := Some "Z-CRY/IDX";
  opened_ric := None;
  opened_close_quote_created_at := Some closeAt;
  opened_finished_at := None;
  opened_open_rate := Some (inject_Z 100);
  opened_openRate := None;
  opened_trend := Some "call";
  opened_amount := JNumber (inject_Z 1400000);
  opened_payment := JUndefined;
  opened_deal_type := Some "demo"
|}.

(** The highest step the ladder reaches under the resetMartingale policy:
    0 when resetMartingale is 0, min(N, 100) for a positive N, the hard
    ceiling otherwise. *)
Definition ladderCap (cfg : TradeConfig) : Z :=
  match resetMartingale cfg with
  | Some N =>
      if N =? 0 then 0
      else if N >? 0 then Z.min N MAX_K_STEP else MAX_K_STEP
  | None => MAX_K_STEP
  end.

(** The counters of the ladder are within their ranges. *)
Definition ladderInRange (cfg : TradeConfig) (s : Engine) : Prop :=
  0 <= martingaleStep s <= ladderCap cfg
  /\ 0 <= lossStreak s
  /\ 0 <= repeatStep s <= Z.max 0 (orDefault (maxMartingale cfg) 0)
  /\ match switchDemoStep s with
     | Some k => 0 <= k <= ladderCap cfg
     | None => True
     end.

Definition winsAt (endRate : Q) (bid : OpenedBid) : Prop :=
  resolveOutcome (trend bid) (openRate bid) endRate = Win.

(** The default configuration with the bot on the real wallet. *)
Definition realWalletEngine : Engine :=
  set_currentWalletType Real runningEngine.

(** A computation run from a state that satisfies [I] ends in such a state
    and emits only outputs that satisfy [Q]. *)
Definition maintains {A : Type} (I : Engine -> Prop) (Q : Output -> Prop)
  (m : M A) : Prop :=
  forall e, I e -> I (exec m e) /\ Forall Q (outputs m e).

(** An output other than the stop of the stop-loss rule. *)
Definition noStopLossStop (o : Output) : Prop :=
  match o with
  | StatusEvent _ (StopLossReached _) => False
  | _ => True
  end.

(** An output other than the stop of the profit target. *)
Definition noStopProfitStop (o : Output) : Prop :=
  match o with
  | StatusEvent _ StopProfitReached => False
  | _ => True
  end.

(** An output other than a frame on a socket. *)
Definition notSent (o : Output) : Prop :=
  match o with
  | Send _ _ => False
  | _ => True
  end.

(** The engine is not running and its stream socket is not open. *)
Definition halted (s : Engine) : Prop :=
  status s <> Running /\ isOpen (streamSocket s) = false.

(** The fields of the engine a bid is computed and framed from. *)
Definition placeInputs (s : Engine) :=
  (userCurrency s, martingaleStep s, switchDemoActive s, forceDemo s,
   currentWalletType s, balanceDemo s, balanceReal s,
   (nextRef s, joinRefs s, streamSocket s, tradeSocket s)).

(** The channel a bid goes out on: the stream socket when it is open, else
    the trade socket when there is one. *)
Definition bidChannel (s : Engine) : option Channel :=
  if isOpen (streamSocket s) then Some StreamChannel
  else match tradeSocket s with
       | Some _ => Some TradeChannel
       | None => None
       end.

(** The bid-create frames of the amounts of one bid, refs counted up from
    [ref] and amount indices from [amountIndex]. *)
Fixpoint bidFrames (cfg : TradeConfig) (now index : Z) (expireAt : option Z)
  (t : Trend) (wallet : Wallet) (boRef : option Z) (ch : Channel)
  (ref amountIndex : Z) (amounts : list Z) : list (Channel * Frame) :=
  match amounts with
  | [] => []
  | amount :: rest =>
      (ch, BidCreate (now + (index + amountIndex) * 500) expireAt (asset cfg)
             wallet
             (if strategy_eqb (strategy cfg) Flash5st then Blitz else Turbo)
             t amount ref (orDefault boRef ref))
      :: bidFrames cfg now index expireAt t wallet boRef ch (ref + 1)
           (amountIndex + 1) rest
  end.

(** The amounts and the refs of frames. *)
Definition bidAmountsOf (frames : list (Channel * Frame)) : list Z :=
  flat_map (fun cf => match snd cf with
                      | BidCreate _ _ _ _ _ _ amount _ _ => [amount]
                      | PingFrame _ _ => []
                      end) frames.

Definition frameRef (f : Frame) : Z :=
  match f with
  | PingFrame ref _ => ref
  | BidCreate _ _ _ _ _ _ _ ref _ => ref
  end.

Fixpoint refsFrom (ref : Z) (n : nat) : list Z :=
  match n with
  | O => []
  | S n' => ref :: refsFrom (ref + 1) n'
  end.

(** The time a bid stays in flight. *)
Definition bidCooldownMs (cfg : TradeConfig) : Z :=
  if strategy_eqb (strategy cfg) Flash5st then 5000 else 10000.

(** What a call of sendBid that sends [frames] from the state [s] leaves
    behind in [s']. *)
Definition bidPlaced (cfg : TradeConfig) (index : Z) (clk : Clock)
  (s : Engine) (frames : list (Channel * Frame)) (s' : Engine) : Prop :=
  let amounts := result (calculateBidAmounts cfg) s in
  amounts <> []
  /\ (exists tr ch,
         bidChannel s = Some ch
         /\ frames
            = bidFrames cfg (nowMs clk) index
                (expireAtOf cfg (zone clk) (nowMs clk)) tr
                (if forceDemo s then Demo else currentWalletType s)
                (lookupRef "bo" (joinRefs s)) ch (nextRef s) 0 amounts)
  /\ nextRef s' = nextRef s + size amounts
  /\ bidInFlightUntil s' = Some (nowEnd clk + bidCooldownMs cfg)
  /\ lastBidStep s' = martingaleStep s
  /\ lastBidAmount s' = hd_error amounts
  /\ lastBidAt s' = nowMs clk
  /\ storage s'
     = Item {| lastStep := Some (martingaleStep s);
               lastWasSwitchDemo := forceDemo s;
               lastTrend := lastSignalTrend s';
               lastAmount := hd_error amounts |}.

(** The creation time of a deal in epoch milliseconds, 0 when it has none
    that parses. *)
Definition createdAtMs (parseDate : string -> option Z) (d : DealItem) : Z :=
  orDefault (createdMs parseDate d) 0.

(** The creation time of the deal parses. *)
Definition dated (parseDate : string -> option Z) (d : DealItem) : Prop :=
  createdMs parseDate d <> None.

(** The head of the list is a newest deal of the list. *)
Definition headNewest (parseDate : string -> option Z) (l : list DealItem)
  : Prop :=
  match l with
  | [] => True
  | h :: _ =>
      Forall (fun d => createdAtMs parseDate d <= createdAtMs parseDate h) l
  end.

(** Timestamps of the form used in the examples, read as minutes. *)
Definition parseMinute (text : string) : option Z :=
  if String.eqb text "2024-01-01T00:00:00Z" then Some 0
  else if String.eqb text "2024-01-01T00:01:00Z" then Some 60000
  else if String.eqb text "2024-01-01T00:05:00Z" then Some 300000
  else None.

(** The smallest time between two bids that the interval guard lets
    through, when the interval is a number. *)
Definition minIntervalMs (cfg : TradeConfig) : option Z :=
  if strategy_eqb (strategy cfg) Flash5st then Some 5000
  else match intervalMinutes cfg with
       | Some n => Some (n * 60000)
       | None => None
       end.

(** One pass through the cooldown step of sendBid for each request. *)
Definition cooldownPasses (cfg : TradeConfig)
  (requests : list (Trend * Z * Clock)) : M unit :=
  forEach requests
    (fun r => sendBid_cooldown cfg (fst (fst r)) (snd (fst r)) (snd r)).

(** Candles of one colour, and one without body. *)
Definition greenCandle : CandlePoint :=
  {| candle_open := inject_Z 100; candle_close := inject_Z 101 |}.
Definition redCandle : CandlePoint :=
  {| candle_open := inject_Z 100; candle_close := inject_Z 99 |}.

(** The default configuration under the Momentum strategy. *)
Definition momentumConfig : TradeConfig := {|
  asset := "Z-CRY/IDX";
  strategy := Momentum;
  interval := Some 1;
  walletType := Demo;
  bidAmountIdr := Some (inject_Z 14000);
  bidAmountUsd := Some (inject_Z 1);
  bidAmountEur := Some (inject_Z 1);
  autoSwitchDemo := true;
  martingale := Some (inject_Z 130);
  maxMartingale := Some 1;
  resetMartingale := Some 2;
  stopLoss := Some 2;
  stopProfitAfter := Some (inject_Z 999999999)
|}.

(** The default configuration with a profit target of 50.00. *)
Definition profitTargetConfig : TradeConfig := {|
  asset := "Z-CRY/IDX";
  strategy := Signal;
  interval := Some 1;
  walletType := Demo;
  bidAmountIdr := Some (inject_Z 14000);
  bidAmountUsd := Some (inject_Z 1);
  bidAmountEur := Some (inject_Z 1);
  autoSwitchDemo := true;
  martingale := Some (inject_Z 130);
  maxMartingale := Some 1;
  resetMartingale := Some 2;
  stopLoss := Some 2;
  stopProfitAfter := Some (inject_Z 50)
|}.

(** At most [n] rounds of a loop body, the fuel written in unary. *)
Fixpoint iterateN {St Res : Type} (step : St -> Loop St Res) (n : nat) (s : St)
  : Loop St Res :=
  match n with
  | O => More s
  | S n' =>
      match step s with
      | Done r => Done r
      | More s' => iterateN step n' s'
      end
  end.

(** The maximum bid of the native engine for a currency other than USD and
    EUR: 74000000 * 100 as an [Int]. *)
Definition nativeIdrMaxBid : Z := -1189934592.

(** The configuration object of the native engine with its defaults. *)
Definition nativeDefaultConfig : Native.Config := {|
  Native.currency := "IDR";
  Native.bidAmountUsd := Some 1;
  Native.bidAmountEur := Some 1;
  Native.bidAmountIdr := Some 14000;
  Native.martingale := Some (inject_Z 130);
  Native.resetMartingale := Some 2;
  Native.interval := Some 1
|}.

(** The object has a property [k] of its own. *)
Definition hasOwn (k : string) (o : TradeSettings.Obj) : bool :=
  existsb (fun kv => String.eqb (fst kv) k) o.

(** Settings as the settings screen stores them, with the legacy single
    bid amount and the legacy strategy name. *)
Definition legacySettings : TradeSettings.Obj :=
  [("strategy", TradeSettings.VString "Analysis");
   ("currency", TradeSettings.VString "usd");
   ("bidAmount", TradeSettings.VString "25")].

(** The refs rise strictly, from [lo] at least and below [hi]. *)
Fixpoint risingWithin (lo : Z) (refs : list Z) (hi : Z) : Prop :=
  match refs with
  | [] => lo <= hi
  | r :: rest => lo <= r /\ risingWithin (r + 1) rest hi
  end.

(** The refs of the frames a run sent, in order. *)
Definition sentRefs (outs : list Output) : list Z :=
  map (fun cf => frameRef (snd cf)) (sentFrames outs).

(** A computation stamps its frames with fresh refs: they rise strictly
    from the ref counter it starts with and stay below the counter it ends
    with. *)
Definition freshRefs {A : Type} (m : M A) : Prop :=
  forall e,
    risingWithin (nextRef e) (sentRefs (outputs m e)) (nextRef (exec m e)).

(** * Properties *)

(** ** Reasoning about runs of the engine monad *)

Lemma exec_bind {A B : Type} (m : M A) (k : A -> M B) (e : Engine) :
  exec (bind m k) e = exec (k (result m e)) (exec m e).
Proof.
  unfold exec, result, bind. destruct (m e) as [[a e1] o1]. cbn.
  destruct (k a e1) as [[b e2] o2]. reflexivity.
Qed.

Lemma outputs_bind {A B : Type} (m : M A) (k : A -> M B) (e : Engine) :
  outputs (bind m k) e
  = outputs m e ++ outputs (k (result m e)) (exec m e).
Proof.
  unfold exec, result, outputs, bind. destruct (m e) as [[a e1] o1]. cbn.
  destruct (k a e1) as [[b e2] o2]. reflexivity.
Qed.

Lemma result_bind {A B : Type} (m : M A) (k : A -> M B) (e : Engine) :
  result (bind m k) e = result (k (result m e)) (exec m e).
Proof.
  unfold exec, result, bind. destruct (m e) as [[a e1] o1]. cbn.
  destruct (k a e1) as [[b e2] o2]. reflexivity.
Qed.

Lemma keeps_bind {A B V : Type} (field : Engine -> V) (m : M A)
  (k : A -> M B) :
  keeps field m -> (forall a, keeps field (k a)) -> keeps field (bind m k).
Proof.
  intros Hm Hk e. rewrite exec_bind, Hk, Hm. reflexivity.
Qed.

Lemma keeps_forEach {A V : Type} (field : Engine -> V) (xs : list A)
  (body : A -> M unit) :
  (forall x, keeps field (body x)) -> keeps field (forEach xs body).
Proof.
  intros Hbody. induction xs as [|x xs IH]; cbn [forEach].
  - intros e. reflexivity.
  - apply keeps_bind; [apply Hbody | intros _; exact IH].
Qed.

Create HintDb frame.

(** Walks through a computation and shows that it keeps a field: binds are
    split, branches are taken apart, an assignment to another field keeps the
    field by computation.  What it cannot close is left as a goal. *)
Ltac frame_step :=
  match goal with
  | |- keeps _ (bind _ _) => apply keeps_bind; [|intros ?]
  | |- keeps _ (forEach _ _) => apply keeps_forEach; intros ?
  | |- keeps _ (ret _) => intros ?; reflexivity
  | |- keeps _ this => intros ?; reflexivity
  | |- keeps _ skip => intros ?; reflexivity
  | |- keeps _ (emit _) => intros ?; reflexivity
  | |- keeps _ (assign _ _) => intros ?; reflexivity
  | |- keeps _ (when ?b _) => destruct b; cbn [when]
  | |- keeps _ (if ?b then _ else _) => destruct b
  | |- keeps _ (match ?x with _ => _ end) => destruct x
  | |- keeps _ _ => progress eauto with frame
  end.

Ltac frame := repeat frame_step.

Lemma emits_bind {A B : Type} (Q : Output -> Prop) (m : M A) (k : A -> M B) :
  emits Q m -> (forall a, emits Q (k a)) -> emits Q (bind m k).
Proof.
  intros Hm Hk e. rewrite outputs_bind. apply Forall_app. split.
  - apply Hm.
  - apply Hk.
Qed.

Lemma emits_forEach {A : Type} (Q : Output -> Prop) (xs : list A)
  (body : A -> M unit) :
  (forall x, emits Q (body x)) -> emits Q (forEach xs body).
Proof.
  intros Hbody. induction xs as [|x xs IH]; cbn [forEach].
  - intros e. constructor.
  - apply emits_bind; [apply Hbody | intros _; exact IH].
Qed.

Create HintDb trace.

(** Walks through a computation and shows that all it emits satisfies a
    property that holds of each emitted output by computation. *)
Ltac trace_step :=
  match goal with
  | |- emits _ (bind _ _) => apply emits_bind; [|intros ?]
  | |- emits _ (forEach _ _) => apply emits_forEach; intros ?
  | |- emits _ (ret _) => intros ?; constructor
  | |- emits _ this => intros ?; constructor
  | |- emits _ skip => intros ?; constructor
  | |- emits _ (assign _ _) => intros ?; constructor
  | |- emits _ (emit _) =>
      intros ?; constructor; [first [exact I | reflexivity] | constructor]
  | |- emits _ (when ?b _) => destruct b; cbn [when]
  | |- emits _ (if ?b then _ else _) => destruct b
  | |- emits _ (match ?x with _ => _ end) => destruct x
  | |- emits _ _ => progress eauto with trace
  end.

Ltac trace := repeat trace_step.

(** ** Bid splitting *)

Section Split.

Variables minBid maxBid : Z.
Hypothesis minBid_pos : 0 < minBid.
Hypothesis room : 2 * minBid <= maxBid.

(** The loop, started with at least [minBid] left and enough fuel, ends and
    appends chunks that are all within the bounds and add up to what was
    left. *)
Lemma splitLoop_spec (fuel : nat) :
  forall remaining chunks,
    minBid <= remaining ->
    remaining <= Z.of_nat fuel * maxBid ->
    exists rest,
      splitLoop fuel remaining minBid maxBid chunks = Some (chunks ++ rest)
      /\ sum rest = remaining
      /\ Forall (inBounds minBid maxBid) rest.
Proof.
  induction fuel as [|fuel IH]; intros remaining chunks Hmin Hfuel.
  - cbn in Hfuel. lia.
  - cbn [splitLoop].
    rewrite Nat2Z.inj_succ in Hfuel.
    pose proof (Nat2Z.is_nonneg fuel) as Hnn.
    destruct (Z.gtb_spec remaining 0) as [_|Hle]; [|lia].
    destruct (Z.leb_spec remaining maxBid) as [Hfit|Hbig].
    + exists [remaining]. repeat split.
      * cbn. lia.
      * constructor; [unfold inBounds; lia | constructor].
    + destruct (Z.gtb_spec (remaining - maxBid) 0) as [_|Hno]; [|lia].
      destruct (Z.ltb_spec (remaining - maxBid) minBid) as [Hshort|Hlong];
        cbn [andb].
      * destruct (IH (remaining - (remaining - minBid))
                    (chunks ++ [remaining - minBid])) as (rest & Hrun & Hsum & Hall).
        -- lia.
        -- assert (1 <= Z.of_nat fuel) by nia. nia.
        -- exists ((remaining - minBid) :: rest). repeat split.
           ++ rewrite Hrun, <- app_assoc. reflexivity.
           ++ cbn. unfold sum in Hsum. rewrite Hsum. lia.
           ++ constructor; [unfold inBounds; lia | exact Hall].
      * destruct (IH (remaining - maxBid) (chunks ++ [maxBid]))
          as (rest & Hrun & Hsum & Hall).
        -- lia.
        -- nia.
        -- exists (maxBid :: rest). repeat split.
           ++ rewrite Hrun, <- app_assoc. reflexivity.
           ++ cbn. unfold sum in Hsum. rewrite Hsum. lia.
           ++ constructor; [unfold inBounds; lia | exact Hall].
Qed.

Lemma splitFuel_enough (total : Z) :
  0 <= total -> total <= Z.of_nat (splitFuel total maxBid) * maxBid.
Proof.
  intros Hnn. unfold splitFuel.
  assert (Hmax : Z.max 1 maxBid = maxBid) by lia. rewrite Hmax.
  assert (Hq : 0 <= total / maxBid) by (apply Z.div_pos; lia).
  rewrite Nat2Z.inj_add, Z2Nat.id by exact Hq.
  pose proof (Z.div_mod total maxBid ltac:(lia)) as Hdm.
  pose proof (Z.mod_pos_bound total maxBid ltac:(lia)) as Hmod.
  change (Z.of_nat 2) with 2. nia.
Qed.

Lemma splitBidAmounts_spec (total : Z) :
  maxBid < total ->
  exists chunks,
    splitBidAmounts total minBid maxBid = Some chunks
    /\ sum chunks = total
    /\ Forall (inBounds minBid maxBid) chunks.
Proof.
  intros Hbig. unfold splitBidAmounts, splitBidAmountsFuel.
  destruct (Z.leb_spec total maxBid) as [Hle|_]; [lia|].
  destruct (splitLoop_spec (splitFuel total maxBid) total [])
    as (rest & Hrun & Hsum & Hall).
  - lia.
  - apply splitFuel_enough. lia.
  - exists rest. cbn [app] in Hrun. auto.
Qed.

End Split.

(** The bid bounds of every currency leave room for two minimum bids. *)
Lemma currency_bounds (currency : string) :
  0 < minBidFor currency /\ 2 * minBidFor currency <= maxBidFor currency.
Proof.
  unfold minBidFor, maxBidFor, MIN_BID_BY_CURRENCY, MAX_BID_BY_CURRENCY.
  destruct (String.eqb currency "IDR"); [cbn; lia|].
  destruct (String.eqb currency "USD"); [cbn; lia|].
  destruct (String.eqb currency "EUR"); cbn; lia.
Qed.

(** splitBidAmounts returns for the bounds of every currency. *)
Lemma splitBidAmounts_currency_total (currency : string) (total : Z) :
  exists chunks,
    splitBidAmounts total (minBidFor currency) (maxBidFor currency)
    = Some chunks.
Proof.
  destruct (currency_bounds currency) as [Hpos Hroom].
  destruct (Z.le_gt_cases total (maxBidFor currency)) as [Hle|Hgt].
  - exists [total]. unfold splitBidAmounts, splitBidAmountsFuel.
    destruct (Z.leb_spec total (maxBidFor currency)); [reflexivity|lia].
  - destruct (splitBidAmounts_spec _ _ Hpos Hroom total Hgt) as (c & H & _).
    exists c. exact H.
Qed.

(** C2. For the bid bounds of every currency and every total above the
    maximum bid, splitBidAmounts returns chunks that add up to the total, none
    above the maximum bid and none below the minimum bid. *)
Theorem splitBidAmounts_sum_and_bounds (currency : string) (total : Z) :
  maxBidFor currency < total ->
  exists chunks,
    splitBidAmounts total (minBidFor currency) (maxBidFor currency)
    = Some chunks
    /\ sum chunks = total
    /\ Forall (fun c => minBidFor currency <= c <= maxBidFor currency) chunks.
Proof.
  intros Hbig.
  destruct (currency_bounds currency) as [Hpos Hroom].
  exact (splitBidAmounts_spec _ _ Hpos Hroom total Hbig).
Qed.

Lemma splitBidAmounts_sum_and_bounds_witness :
  maxBidFor "USD" < 500050 /\
  exists chunks,
    splitBidAmounts 500050 (minBidFor "USD") (maxBidFor "USD") = Some chunks
    /\ sum chunks = 500050
    /\ Forall (fun c => minBidFor "USD" <= c <= maxBidFor "USD") chunks.
Proof.
  split; [vm_compute; reflexivity|].
  apply (splitBidAmounts_sum_and_bounds "USD" 500050). vm_compute. reflexivity.
Defined.

(** The folded remainder at work: 5000.50 USD goes out as 4999.50 + 1.00. *)
Example splitBidAmounts_folds_remainder :
  splitBidAmounts 500050 (minBidFor "USD") (maxBidFor "USD")
  = Some [499950; 100].
Proof. vm_compute. reflexivity. Qed.

(** The room for two minimum bids is needed: with bounds 10 and 12 the total
    13 yields a first chunk below the minimum. *)
Example splitBidAmounts_narrow_bounds :
  splitBidAmounts 13 10 12 = Some [3; 10].
Proof. vm_compute. reflexivity. Qed.

(** Runs a computation on a symbolic state: the monad is unfolded and every
    test met on the way is taken apart. *)
Ltac run_monad :=
  cbv [exec outputs result bind ret this assign emit skip when fst snd];
  repeat match goal with
         | |- context [if ?c then _ else _] => destruct c eqn:?
         | |- context [match ?c with Some _ => _ | None => _ end] =>
             destruct c eqn:?
         end;
  cbn.

(** Turns the boolean tests recorded along a run into propositions. *)
Ltac tests :=
  cbn in *;
  repeat match goal with
         | H : (_ && _)%bool = true |- _ =>
             apply andb_true_iff in H; destruct H
         | H : (_ && _)%bool = false |- _ =>
             apply andb_false_iff in H; destruct H
         | H : (_ || _)%bool = true |- _ =>
             apply orb_true_iff in H; destruct H
         | H : (_ || _)%bool = false |- _ =>
             apply orb_false_iff in H; destruct H
         | H : negb _ = true |- _ => apply negb_true_iff in H
         | H : negb _ = false |- _ => apply negb_false_iff in H
         | H : (_ =? _) = true |- _ => apply Z.eqb_eq in H
         | H : (_ =? _) = false |- _ => apply Z.eqb_neq in H
         | H : (_ <? _) = true |- _ => apply Z.ltb_lt in H
         | H : (_ <? _) = false |- _ => apply Z.ltb_ge in H
         | H : (_ <=? _) = true |- _ => apply Z.leb_le in H
         | H : (_ <=? _) = false |- _ => apply Z.leb_gt in H
         | H : (_ >? _) = true |- _ => rewrite Z.gtb_ltb in H
         | H : (_ >? _) = false |- _ => rewrite Z.gtb_ltb in H
         | H : (_ >=? _) = true |- _ => rewrite Z.geb_leb in H
         | H : (_ >=? _) = false |- _ => rewrite Z.geb_leb in H
         end.

Ltac unfold_methods :=
  cbv beta zeta delta [handleSocketEvent handlePhxReply handleOpened
    handleBalanceChanged handleCloseDealBatch_resume refreshProfitFromApi
    sendStreamPing applyRiskRules stopProfitCheck stop setStatus
    resetConnectionState teardownSockets persistBotState applyCooldown
    calculateBidAmounts getBidAmountForCurrency sendBid sendBid_cooldown
    sendBid_place chooseTrend settleBid settleTail settleWin settleLoss
    loadBotState].

(** The same with [stop] left folded. *)
Ltac unfold_methods_to_stop :=
  cbv beta zeta delta [handleSocketEvent handlePhxReply handleOpened
    handleBalanceChanged handleCloseDealBatch_resume refreshProfitFromApi
    sendStreamPing applyRiskRules stopProfitCheck persistBotState
    applyCooldown calculateBidAmounts getBidAmountForCurrency sendBid
    sendBid_cooldown sendBid_place chooseTrend settleBid settleTail settleWin
    settleLoss loadBotState].

(** ** Outcome resolution *)

Example resolveOutcome_cases :
  resolveOutcome Call (inject_Z 100) (inject_Z 101) = Win
  /\ resolveOutcome Call (inject_Z 100) (inject_Z 99) = Loss
  /\ resolveOutcome Put (inject_Z 100) (inject_Z 99) = Win
  /\ resolveOutcome Put (inject_Z 100) (inject_Z 100) = Tie
  /\ resolveOutcome Call (inject_Z 100) (200 # 2) = Tie.
Proof. repeat split; reflexivity. Qed.

(** ** The resetMartingale policy *)

Lemma settleLoss_step (cfg : TradeConfig) (s : Engine) :
  martingaleStep (exec (settleLoss cfg) s)
  = ladderAfterLoss (resetMartingale cfg) (martingaleStep s).
Proof.
  unfold settleLoss, applyCooldown, ladderAfterLoss, MAX_K_STEP.
  run_monad; tests; try discriminate; try lia.
Qed.

Lemma exec_this_bind {B : Type} (k : Engine -> M B) (e : Engine) :
  exec (bind this k) e = exec (k e) e.
Proof. rewrite exec_bind. reflexivity. Qed.

Lemma settleTail_keeps_martingaleStep cfg bid :
  keeps martingaleStep (settleTail cfg bid).
Proof. unfold_methods. frame. Qed.

Lemma settleTail_keeps_switchDemoActive cfg bid :
  keeps switchDemoActive (settleTail cfg bid).
Proof. unfold_methods. frame. Qed.

Lemma settleLoss_keeps_switchDemoActive cfg :
  keeps switchDemoActive (settleLoss cfg).
Proof. unfold_methods. frame. Qed.

(** A losing bid settled outside switch-demo mode moves the step by the
    policy and stays outside switch-demo mode. *)
Lemma settleBid_loss (cfg : TradeConfig) (endRate : Q) (bid : OpenedBid)
  (s : Engine) :
  switchDemoActive s = false ->
  losesAt endRate bid ->
  martingaleStep (exec (settleBid cfg endRate bid) s)
  = ladderAfterLoss (resetMartingale cfg) (martingaleStep s)
  /\ switchDemoActive (exec (settleBid cfg endRate bid) s) = false.
Proof.
  intros Hdemo Hloss. unfold losesAt in Hloss.
  unfold settleBid. cbv zeta. rewrite Hloss, exec_this_bind, Hdemo.
  rewrite exec_bind.
  match goal with |- context [exec (when ?b ?m) s] =>
    assert (Hk1 : keeps martingaleStep (when b m)) by frame;
    assert (Hk2 : keeps switchDemoActive (when b m)) by frame;
    pose proof (Hk1 s) as Hstep; pose proof (Hk2 s) as Hdemo';
    set (s' := exec (when b m) s) in *
  end.
  rewrite Hdemo in Hdemo'.
  rewrite exec_bind.
  rewrite settleTail_keeps_martingaleStep, settleTail_keeps_switchDemoActive,
    settleLoss_step, settleLoss_keeps_switchDemoActive, Hstep.
  split; [reflexivity | exact Hdemo'].
Qed.

Lemma sendAmounts_keeps_martingaleStep (cfg : TradeConfig) now index expireAt
  t total amounts :
  forall amountIndex,
    keeps martingaleStep
      (sendAmounts cfg now index expireAt t total amountIndex amounts).
Proof.
  induction amounts as [|a rest IH]; intros amountIndex; cbn [sendAmounts].
  - intros e. reflexivity.
  - frame.
Qed.

#[local] Hint Resolve sendAmounts_keeps_martingaleStep : frame.

Lemma sendBid_keeps_martingaleStep (cfg : TradeConfig) t index bypass clk :
  keeps martingaleStep (sendBid cfg t index bypass clk).
Proof. unfold_methods. frame. Qed.

Lemma resume_keeps_martingaleStep (cfg : TradeConfig) api :
  keeps martingaleStep (handleCloseDealBatch_resume cfg api).
Proof. unfold_methods. frame. Qed.

(** ** The settlement handler, case by case *)

Lemma settle_exec (cfg : TradeConfig) (p : BatchPayload) (s : Engine) :
  exec (handleCloseDealBatch_settle cfg p) s = settledState cfg p s.
Proof.
  unfold handleCloseDealBatch_settle, settledState.
  cbv [exec bind emit this assign ret fst snd].
  destruct (negb (nonEmpty (batchRic p)) || negb (nonEmpty (batchFinishedAt p)));
    [reflexivity|].
  destruct (set_has (batchKeyOf p) (processedBatches s)); [reflexivity|].
  cbn [openedBids set_processedBatches].
  destruct (size _ =? 0); [reflexivity|].
  destruct (forEach _ _ _) as [[u e'] o]. reflexivity.
Qed.

Lemma settle_result (cfg : TradeConfig) (p : BatchPayload) (s : Engine) :
  result (handleCloseDealBatch_settle cfg p) s = settles p s.
Proof.
  unfold handleCloseDealBatch_settle, settles.
  cbv [result bind emit this assign ret fst snd].
  destruct (negb (nonEmpty (batchRic p)) || negb (nonEmpty (batchFinishedAt p)));
    [reflexivity|].
  destruct (set_has (batchKeyOf p) (processedBatches s)); [reflexivity|].
  cbn [openedBids set_processedBatches].
  destruct (size _ =? 0); [reflexivity|].
  destruct (forEach _ _ _) as [[u e'] o]. reflexivity.
Qed.

Lemma handleCloseDealBatch_exec (cfg : TradeConfig) p api (s : Engine) :
  exec (handleCloseDealBatch cfg p api) s
  = if settles p s
    then exec (handleCloseDealBatch_resume cfg api) (settledState cfg p s)
    else settledState cfg p s.
Proof.
  unfold handleCloseDealBatch.
  rewrite exec_bind, settle_result, settle_exec.
  destruct (settles p s); reflexivity.
Qed.

Lemma exec_forEach_cons {A : Type} (x : A) (xs : list A) (body : A -> M unit)
  (e : Engine) :
  exec (forEach (x :: xs) body) e = exec (forEach xs body) (exec (body x) e).
Proof. cbn [forEach]. rewrite exec_bind. reflexivity. Qed.

(** ** C1: the martingale step under a losing streak *)

Section LosingStreak.

Variable cfg : TradeConfig.

(** [P] is a property of the step that the policy preserves. *)
Variable P : Z -> Prop.
Hypothesis P_policy :
  forall step, P step -> P (ladderAfterLoss (resetMartingale cfg) step).

Lemma forEach_losses (endRate : Q) (bids : list OpenedBid) :
  Forall (losesAt endRate) bids ->
  forall e,
    switchDemoActive e = false -> P (martingaleStep e) ->
    P (martingaleStep (exec (forEach bids (settleBid cfg endRate)) e)).
Proof.
  induction 1 as [|bid bids Hbid _ IH]; intros e Hdemo HP.
  - exact HP.
  - rewrite exec_forEach_cons.
    destruct (settleBid_loss cfg endRate bid e Hdemo Hbid) as [Hstep Hdemo'].
    apply IH; [exact Hdemo'|]. rewrite Hstep. apply P_policy, HP.
Qed.

Lemma lossEvent_invariant (s : Engine) (ev : SocketEvent) :
  lossEvent s ev -> P (martingaleStep s) ->
  P (martingaleStep (exec (handleSocketEvent cfg ev) s)).
Proof.
  intros Hev HP. destruct ev as [u|item|p api|a b c|]; cbn [handleSocketEvent].
  - assert (Hk : keeps martingaleStep (handlePhxReply u))
      by (unfold_methods; frame).
    rewrite Hk. exact HP.
  - assert (Hk : keeps martingaleStep (handleOpened item))
      by (unfold_methods; frame).
    rewrite Hk. exact HP.
  - destruct Hev as [Hdemo Hall].
    assert (Hsettled : P (martingaleStep (settledState cfg p s))).
    { unfold settledState.
      destruct (negb _ || negb _); [exact HP|].
      destruct (set_has _ _); [exact HP|].
      cbv zeta. destruct (size _ =? 0); [exact HP|].
      apply forEach_losses; [exact Hall | exact Hdemo | exact HP]. }
    rewrite handleCloseDealBatch_exec.
    destruct (settles p s); [|exact Hsettled].
    rewrite resume_keeps_martingaleStep. exact Hsettled.
  - assert (Hk : keeps martingaleStep (handleBalanceChanged a b c))
      by (unfold_methods; frame).
    rewrite Hk. exact HP.
  - exact HP.
Qed.

Lemma lossRun_invariant (s s' : Engine) :
  lossRun cfg s s' -> P (martingaleStep s) -> P (martingaleStep s').
Proof.
  induction 1 as [|s1 ev _ IH Hev|s1 t index bypass clk _ IH]; intros HP.
  - exact HP.
  - apply lossEvent_invariant; [exact Hev | apply IH, HP].
  - rewrite sendBid_keeps_martingaleStep. apply IH, HP.
Qed.

End LosingStreak.

(** C1. A loss settled outside switch-demo mode moves martingaleStep by the
    resetMartingale policy (0: back to 0; N > 0: back to 0 once the step has
    reached N, one more otherwise; negative or unset: one more; never past
    100).  Over every losing streak the step stays within min(N, 100) when
    resetMartingale = N > 0, stays 0 when resetMartingale = 0, and stays
    within 100 when resetMartingale is negative or unset. *)
Theorem martingaleStep_under_losses (cfg : TradeConfig) :
  (forall s endRate bid,
      switchDemoActive s = false -> losesAt endRate bid ->
      martingaleStep (exec (settleBid cfg endRate bid) s)
      = ladderAfterLoss (resetMartingale cfg) (martingaleStep s))
  /\
  (forall s s',
      lossRun cfg s s' ->
      (forall N, resetMartingale cfg = Some N -> 0 < N ->
                 martingaleStep s <= Z.min N 100 ->
                 martingaleStep s' <= Z.min N 100)
      /\ (resetMartingale cfg = Some 0 ->
          martingaleStep s = 0 -> martingaleStep s' = 0)
      /\ ((resetMartingale cfg = None
           \/ exists N, resetMartingale cfg = Some N /\ N < 0) ->
          martingaleStep s <= 100 -> martingaleStep s' <= 100)).
Proof.
  split.
  - intros s endRate bid Hdemo Hloss.
    apply (settleBid_loss cfg endRate bid s Hdemo Hloss).
  - intros s s' Hrun. repeat split.
    + intros N HN Hpos.
      apply (lossRun_invariant cfg (fun step => step <= Z.min N 100));
        [|exact Hrun].
      intros step Hstep. unfold ladderAfterLoss. rewrite HN.
      destruct (Z.eqb_spec N 0); [lia|].
      destruct (Z.ltb_spec 0 N); [|lia].
      destruct (Z.leb_spec N step); lia.
    + intros H0.
      apply (lossRun_invariant cfg (fun step => step = 0)); [|exact Hrun].
      intros step Hstep. unfold ladderAfterLoss. rewrite H0. reflexivity.
    + intros Hneg.
      apply (lossRun_invariant cfg (fun step => step <= 100)); [|exact Hrun].
      intros step Hstep. unfold ladderAfterLoss. lia.
Qed.

Lemma martingaleStep_under_losses_witness :
  let s := set_martingaleStep 2
             (set_openedBids [callBid "2024-01-01T00:01:00Z"] runningEngine) in
  let ev := CloseDealBatchEvent
              (batchAt "2024-01-01T00:01:00Z" (inject_Z 99)) None in
  let s' := exec (handleSocketEvent DEFAULT_TRADE_CONFIG ev) s in
  lossRun DEFAULT_TRADE_CONFIG s s'
  /\ martingaleStep s <= Z.min 2 100
  /\ martingaleStep s' <= Z.min 2 100.
Proof.
  intros s ev s'.
  assert (Hrun : lossRun DEFAULT_TRADE_CONFIG s s').
  { apply lossRun_event; [apply lossRun_start|].
    split; [reflexivity|]. cbn. constructor; [reflexivity | constructor]. }
  assert (Hstart : martingaleStep s <= Z.min 2 100) by (cbn; lia).
  repeat split; [exact Hrun | exact Hstart |].
  exact (proj1 (proj2 (martingaleStep_under_losses DEFAULT_TRADE_CONFIG) s s'
                  Hrun) 2 eq_refl ltac:(lia) Hstart).
Defined.

(** The default configuration resets after step 2: from a fresh ladder three
    losses in a row give the steps 1, 2, 0. *)
Example ladder_default_three_losses :
  let r := resetMartingale DEFAULT_TRADE_CONFIG in
  (ladderAfterLoss r 0, ladderAfterLoss r 1, ladderAfterLoss r 2) = (1, 2, 0).
Proof. reflexivity. Qed.

(** ** C6: no bid while a position is open or an acknowledgement is pending *)

(** C6. While any OpenedBid is tracked or any bid acknowledgement is pending,
    sendBid sends no frame over either channel (and leaves the engine as it
    was). *)
Theorem sendBid_refuses_while_position_open (cfg : TradeConfig) (s : Engine)
  (t : Trend) (index : Z) (bypass : bool) (clk : Clock) :
  openedBids s <> [] \/ pendingUUIDs s <> [] ->
  sentFrames (outputs (sendBid cfg t index bypass clk) s) = []
  /\ exec (sendBid cfg t index bypass clk) s = s.
Proof.
  intros Hopen.
  assert (Hguard : (size (openedBids s) >? 0) || (size (pendingUUIDs s) >? 0)
                   = true).
  { unfold size. destruct Hopen as [H|H].
    - destruct (openedBids s); [congruence|]. reflexivity.
    - destruct (pendingUUIDs s); [congruence|].
      apply orb_true_iff. right. reflexivity. }
  unfold sendBid. cbv [outputs exec bind this emit ret fst snd].
  destruct (negb (status_eqb (status s) Running)); [split; reflexivity|].
  destruct (intervalGuard cfg bypass clk s) as [[elapsed m]|];
    [split; reflexivity|].
  destruct (bidInFlight clk s); [split; reflexivity|].
  rewrite Hguard. split; reflexivity.
Qed.

Lemma sendBid_refuses_while_position_open_witness :
  let s := set_openedBids [callBid "2024-01-01T00:01:00Z"] runningEngine in
  (openedBids s <> [] \/ pendingUUIDs s <> [])
  /\ sentFrames (outputs (sendBid DEFAULT_TRADE_CONFIG Call 0 false sampleClock) s)
     = []
  /\ exec (sendBid DEFAULT_TRADE_CONFIG Call 0 false sampleClock) s = s.
Proof.
  intros s.
  assert (Hopen : openedBids s <> [] \/ pendingUUIDs s <> [])
    by (left; discriminate).
  split; [exact Hopen|].
  exact (sendBid_refuses_while_position_open DEFAULT_TRADE_CONFIG s Call 0
           false sampleClock Hopen).
Defined.

(** With nothing open and nothing pending the same call does send. *)
Example sendBid_sends_when_clear :
  sentFrames
    (outputs (sendBid DEFAULT_TRADE_CONFIG Call 0 false sampleClock) runningEngine)
  = [(StreamChannel,
      BidCreate 1700000000000 (Some 1700000040) "Z-CRY/IDX" Demo Turbo Call
        1400000 13 6)].
Proof. vm_compute. reflexivity. Qed.

(** ** C3: the insufficient-funds guard *)

(** Below the split threshold the guard works: a positive balance smaller
    than the computed bid stops the engine and no amount is returned. *)
Lemma calculateBidAmounts_guard_below_maximum (cfg : TradeConfig)
  (s : Engine) :
  0 < computedBid cfg s ->
  minBidFor (toUpperCase (userCurrency s)) <= computedBid cfg s
    <= maxBidFor (toUpperCase (userCurrency s)) ->
  Qgtb (targetBalance s) 0 = true ->
  Qgtb (inject_Z (computedBid cfg s)) (targetBalance s) = true ->
  result (calculateBidAmounts cfg) s = []
  /\ status (exec (calculateBidAmounts cfg) s) = Stopped.
Proof.
  unfold computedBid, targetBalance, calculateBidAmounts,
    getBidAmountForCurrency.
  cbv [result exec bind this emit ret fst snd].
  intros Hpos Hrange Hbal Hshort.
  destruct (String.eqb (toUpperCase (userCurrency s)) "USD");
    [|destruct (String.eqb (toUpperCase (userCurrency s)) "EUR")];
    cbn [fst snd] in *;
    (match goal with
     | |- context [rawAmountOf cfg ?b s <=? 0] =>
         destruct (Z.leb_spec (rawAmountOf cfg b s) 0); [lia|];
         destruct (Z.ltb_spec (rawAmountOf cfg b s)
                     (minBidFor (toUpperCase (userCurrency s)))); [lia|];
         destruct (Z.gtb_spec (rawAmountOf cfg b s)
                     (maxBidFor (toUpperCase (userCurrency s)))); [lia|]
     end;
     rewrite Hbal, Hshort; split; reflexivity).
Qed.

(** C3 fails on the split path.  A USD bid of 6000.00 against a demo balance
    of 10.00: the balance is positive and the computed bid exceeds it, yet
    calculateBidAmounts returns the chunks 5000.00 and 1000.00, the engine
    keeps running, and sendBid puts both bids on the wire. *)
Theorem calculateBidAmounts_split_skips_balance_guard :
  Qgtb (targetBalance poorUsdEngine) 0 = true
  /\ computedBid largeUsdConfig poorUsdEngine = 600000
  /\ Qgtb (inject_Z (computedBid largeUsdConfig poorUsdEngine))
          (targetBalance poorUsdEngine) = true
  /\ result (calculateBidAmounts largeUsdConfig) poorUsdEngine
     = [500000; 100000]
  /\ status (exec (calculateBidAmounts largeUsdConfig) poorUsdEngine) = Running
  /\ map (fun cf => match snd cf with
                    | BidCreate _ _ _ _ _ _ a _ _ => a
                    | PingFrame _ _ => 0
                    end)
         (sentFrames
            (outputs (sendBid largeUsdConfig Call 0 false sampleClock) poorUsdEngine))
     = [500000; 100000].
Proof. vm_compute. repeat split; reflexivity. Qed.

(** ** C4: the expiry of a bid *)

Lemma sendAmounts_expiresAt (cfg : TradeConfig) now index ex t total amounts :
  forall amountIndex,
    emits (expiresAt ex)
      (sendAmounts cfg now index ex t total amountIndex amounts).
Proof.
  induction amounts as [|a rest IH]; intros amountIndex; cbn [sendAmounts].
  - intros e. constructor.
  - trace.
Qed.

#[local] Hint Resolve sendAmounts_expiresAt : trace.








(** The proviso is needed: the expiry is computed on the local clock.  A bid
    sent in New York at 01:59:45, fifteen seconds before the clocks go back,
    has the local expiry 02:01:00, which is standard time: expire_at lies
    3675 seconds after the bid and not 75.  A bid sent at 01:29:45 after the
    change has the local expiry 01:31:00, read as its first pass: expire_at
    lies 3525 seconds before the bid. *)
Example expire_at_across_fall_back :
  expireAtOf DEFAULT_TRADE_CONFIG newYorkFallBack beforeFallBack
  = Some (beforeFallBack / 1000 + 3675)
  /\ expireAtOf DEFAULT_TRADE_CONFIG newYorkFallBack afterFallBack
     = Some (afterFallBack / 1000 - 3525).
Proof. vm_compute. split; reflexivity. Qed.


(** ** C7: resuming on an unclosed bid *)

Lemma filter_nonempty {A : Type} (f : A -> bool) (l : list A) (x : A) :
  In x l -> f x = true -> (size (filter f l) >? 0) = true.
Proof.
  intros Hin Hf. assert (Hx : In x (filter f l)) by (apply filter_In; auto).
  unfold size. destruct (filter f l); [contradiction|reflexivity].
Qed.

(** C7. With a persisted lastBidStep S and a deal history that holds a deal
    of status "opened", checkResumeState returns shouldResume = true,
    resumeStep = S + 1 and reason UNCLOSED_BID, with the first open deal as
    lastDeal, whatever the other deals are; the result is also kept as the
    pending resume state. *)
Theorem checkResumeState_unclosed_bid (parseDate : string -> option Z)
  (s : Engine) (requests : list Settled) (st : BotState) (S : Z)
  (d : DealItem) :
  storage s = Item st ->
  lastStep st = Some S ->
  In d (flat_map dealsOf requests) ->
  deal_status d = Some "opened" ->
  let r := result (checkResumeState parseDate requests) s in
  r = {| shouldResume := true; resumeStep := S + 1; reason := UNCLOSED_BID;
         lastDeal := hd_error (filter isOpened (flat_map dealsOf requests)) |}
  /\ pendingResumeState (exec (checkResumeState parseDate requests) s)
     = Some r.
Proof.
  intros Hst HS Hin Hopen.
  assert (Hd : isOpened d = true)
    by (unfold isOpened; rewrite Hopen; reflexivity).
  pose proof (filter_nonempty isOpened _ d Hin Hd) as Hsome.
  unfold checkResumeState, loadBotState, computeResumeState.
  cbv [result exec bind this assign ret fst snd]. rewrite Hst. cbn.
  rewrite Hsome, HS. cbn. split; reflexivity.
Qed.

Lemma checkResumeState_unclosed_bid_witness :
  let st := {| lastStep := Some 3; lastWasSwitchDemo := false;
               lastTrend := Some Call; lastAmount := Some 1400000 |} in
  let s := set_storage (Item st) initialEngine in
  let d := dealWith "opened" "2024-01-01T00:00:00Z" JUndefined in
  let requests :=
    [historyOf [dealWith "closed" "2024-01-01T00:05:00Z" JNull; d];
     Rejected] in
  let r := result (checkResumeState (fun _ => None) requests) s in
  storage s = Item st
  /\ lastStep st = Some 3
  /\ In d (flat_map dealsOf requests)
  /\ deal_status d = Some "opened"
  /\ r = {| shouldResume := true; resumeStep := 4; reason := UNCLOSED_BID;
            lastDeal := Some d |}.
Proof.
  intros st s d requests r.
  assert (Hin : In d (flat_map dealsOf requests)) by (cbn; auto).
  split; [reflexivity|]. split; [reflexivity|]. split; [exact Hin|].
  split; [reflexivity|].
  exact (proj1 (checkResumeState_unclosed_bid (fun _ => None) s requests st 3
                  d eq_refl eq_refl Hin eq_refl)).
Defined.

(** ** C8: skipStopLossOnce *)

Lemma stopProfitCheck_no_stopLossAction (cfg : TradeConfig) :
  emits (fun o => ~ stopLossAction o) (stopProfitCheck cfg).
Proof.
  unfold_methods. trace; intros e; repeat constructor; cbn; tauto.
Qed.

(** With the flag clear and the stop-loss breached, the rule acts: it enters
    switch-demo mode when the auto switch applies, and stops the engine when
    the auto switch is off. *)
Lemma applyRiskRules_stop_loss (cfg : TradeConfig) (s : Engine) :
  skipStopLossOnce s = false ->
  stopLossBreached cfg s = true ->
  let s' := exec (applyRiskRules cfg) s in
  (shouldSwitchToDemo cfg s && allowAutoSwitch s = true ->
   switchDemoActive s' = true /\ forceDemo s' = true
   /\ currentWalletType s' = Demo
   /\ switchDemoStep s' = Some (martingaleStep s)
   /\ switchDemoReturnWallet s' = Some Real
   /\ allowAutoSwitch s' = false)
  /\ (autoSwitchDemo cfg = false ->
      status s' = Stopped
      /\ In (StatusEvent Stopped (StopLossReached (martingaleStep s)))
            (outputs (applyRiskRules cfg) s)).
Proof.
  intros Hskip Hbreach. unfold applyRiskRules.
  cbv [exec outputs bind this fst snd]. rewrite Hskip, Hbreach. split.
  - intros Hswitch. rewrite Hswitch. cbn. repeat split; reflexivity.
  - intros Hoff. unfold shouldSwitchToDemo. rewrite Hoff. cbn.
    split; [reflexivity | left; reflexivity].
Qed.

Lemma applyRiskRules_skip (cfg : TradeConfig) (s : Engine) :
  skipStopLossOnce s = true ->
  exec (applyRiskRules cfg) s
  = exec (stopProfitCheck cfg) (set_skipStopLossOnce false s)
  /\ outputs (applyRiskRules cfg) s
     = outputs (stopProfitCheck cfg) (set_skipStopLossOnce false s).
Proof.
  intros Hskip. unfold applyRiskRules.
  cbv [exec outputs bind this assign fst snd]. rewrite Hskip.
  destruct (stopProfitCheck cfg (set_skipStopLossOnce false s)) as [[u e] o].
  split; reflexivity.
Qed.

(** What the stop-profit check leaves alone. *)
Lemma stopProfitCheck_frame (cfg : TradeConfig) :
  keeps skipStopLossOnce (stopProfitCheck cfg)
  /\ keeps switchDemoActive (stopProfitCheck cfg)
  /\ keeps forceDemo (stopProfitCheck cfg)
  /\ keeps currentWalletType (stopProfitCheck cfg)
  /\ keeps switchDemoStep (stopProfitCheck cfg)
  /\ keeps allowAutoSwitch (stopProfitCheck cfg)
  /\ keeps martingaleStep (stopProfitCheck cfg).
Proof. repeat split; unfold_methods; frame. Qed.

(** C8. When skipStopLossOnce is set, an evaluation of the risk rules only
    clears the flag and runs the stop-profit check: it emits no stop-loss
    action and leaves the switch-demo state and the step alone, even when the
    stop-loss is breached.  The evaluation that follows applies the stop-loss
    rule: on a breach it enters switch-demo mode when the auto switch
    applies, and stops the engine when the auto switch is off. *)
Theorem skipStopLossOnce_suppresses_one_check (cfg : TradeConfig)
  (s : Engine) :
  skipStopLossOnce s = true ->
  let s1 := exec (applyRiskRules cfg) s in
  let s2 := exec (applyRiskRules cfg) s1 in
  (s1 = exec (stopProfitCheck cfg) (set_skipStopLossOnce false s)
   /\ Forall (fun o => ~ stopLossAction o) (outputs (applyRiskRules cfg) s)
   /\ skipStopLossOnce s1 = false
   /\ switchDemoActive s1 = switchDemoActive s
   /\ forceDemo s1 = forceDemo s
   /\ currentWalletType s1 = currentWalletType s
   /\ switchDemoStep s1 = switchDemoStep s
   /\ martingaleStep s1 = martingaleStep s)
  /\ (stopLossBreached cfg s = true ->
      (shouldSwitchToDemo cfg s && allowAutoSwitch s = true ->
       switchDemoActive s2 = true /\ forceDemo s2 = true
       /\ currentWalletType s2 = Demo
       /\ switchDemoStep s2 = Some (martingaleStep s))
      /\ (autoSwitchDemo cfg = false ->
          status s2 = Stopped
          /\ In (StatusEvent Stopped (StopLossReached (martingaleStep s)))
                (outputs (applyRiskRules cfg) s1))).
Proof.
  intros Hskip s1 s2.
  destruct (applyRiskRules_skip cfg s Hskip) as [Hexec Hout].
  destruct (stopProfitCheck_frame cfg)
    as (Kskip & Kdemo & Kforce & Kwallet & Kstep & Kallow & Kmart).
  assert (Hs1 : s1 = exec (stopProfitCheck cfg) (set_skipStopLossOnce false s))
    by exact Hexec.
  assert (Hflag : skipStopLossOnce s1 = false) by (rewrite Hs1, Kskip; reflexivity).
  assert (Hdemo : switchDemoActive s1 = switchDemoActive s)
    by (rewrite Hs1, Kdemo; reflexivity).
  assert (Hforce : forceDemo s1 = forceDemo s)
    by (rewrite Hs1, Kforce; reflexivity).
  assert (Hwallet : currentWalletType s1 = currentWalletType s)
    by (rewrite Hs1, Kwallet; reflexivity).
  assert (Hstep : switchDemoStep s1 = switchDemoStep s)
    by (rewrite Hs1, Kstep; reflexivity).
  assert (Hallow : allowAutoSwitch s1 = allowAutoSwitch s)
    by (rewrite Hs1, Kallow; reflexivity).
  assert (Hmart : martingaleStep s1 = martingaleStep s)
    by (rewrite Hs1, Kmart; reflexivity).
  split.
  - repeat split; try assumption.
    rewrite Hout. apply stopProfitCheck_no_stopLossAction.
  - intros Hbreach.
    assert (Hbreach1 : stopLossBreached cfg s1 = true).
    { unfold stopLossBreached in *. rewrite Hdemo, Hmart. exact Hbreach. }
    destruct (applyRiskRules_stop_loss cfg s1 Hflag Hbreach1) as [Hsw Hstop].
    fold s2 in Hsw, Hstop. rewrite Hmart in Hsw, Hstop. split.
    + intros Hcond.
      assert (Hcond1 : shouldSwitchToDemo cfg s1 && allowAutoSwitch s1 = true).
      { unfold shouldSwitchToDemo in *. rewrite Hwallet, Hdemo, Hallow.
        exact Hcond. }
      destruct (Hsw Hcond1) as (H1 & H2 & H3 & H4 & _).
      repeat split; assumption.
    + exact Hstop.
Qed.

(** The default configuration (stopLoss = 2, auto switch on) on the real
    wallet at step 3, with the flag set by a switch-demo exit. *)
Lemma skipStopLossOnce_suppresses_one_check_witness :
  let s := set_skipStopLossOnce true
             (set_martingaleStep 3
                (set_currentWalletType Real runningEngine)) in
  let s1 := exec (applyRiskRules DEFAULT_TRADE_CONFIG) s in
  let s2 := exec (applyRiskRules DEFAULT_TRADE_CONFIG) s1 in
  skipStopLossOnce s = true
  /\ stopLossBreached DEFAULT_TRADE_CONFIG s = true
  /\ switchDemoActive s1 = switchDemoActive s
  /\ switchDemoActive s2 = true.
Proof.
  intros s s1 s2.
  pose proof (skipStopLossOnce_suppresses_one_check DEFAULT_TRADE_CONFIG s
                eq_refl) as [Hfirst Hsecond].
  split; [reflexivity|]. split; [reflexivity|]. split.
  - exact (proj1 (proj2 (proj2 (proj2 Hfirst)))).
  - exact (proj1 (proj1 (Hsecond eq_refl) eq_refl)).
Defined.

(** ** C10: the pending-UUID filter of [opened] events *)

Lemma tl_keeps_last {A : Type} (l : list A) (x : A) :
  (size (l ++ [x]) >? 50) = true ->
  exists front, tl (l ++ [x]) = front ++ [x].
Proof.
  destruct l as [|y l]; cbn.
  - discriminate.
  - intros _. exists l. reflexivity.
Qed.

(** An event that passes the filter and names an asset and a close time is
    tracked: its bid ends the list of opened bids. *)
Lemma handleOpened_tracks (item : OpenedPayload) (s : Engine) :
  foreignOpened item s = false ->
  nonEmpty (openedRic item) = true ->
  nonEmpty (openedCloseAt item) = true ->
  exists front bid,
    openedBids (exec (handleOpened item) s) = front ++ [bid]
    /\ assetRic bid = openedRic item
    /\ closeAt bid = openedCloseAt item
    /\ uuid bid = (if nonEmpty (openedUuid item)
                   then Some (openedUuid item) else None)
    /\ outputs (handleOpened item) s = [].
Proof.
  unfold foreignOpened, openedUuid, openedRic, openedCloseAt.
  intros Hpass Hric Hclose. unfold handleOpened.
  cbv [exec outputs bind this assign emit when skip ret fst snd].
  rewrite Hpass, Hric, Hclose. cbn [andb].
  destruct (nonEmpty (orDefault (opened_uuid item) EmptyString)) eqn:Hu; cbn;
    match goal with
    | |- context [size (openedBids s ++ [?b]) >? 50] =>
        destruct (size (openedBids s ++ [b]) >? 50) eqn:Hfull; cbn;
        [ destruct (tl_keeps_last (openedBids s) b Hfull) as [front Hfront];
          exists front, b; rewrite Hfront
        | exists (openedBids s), b ];
        repeat split; reflexivity
    end.
Qed.

(** C10. An [opened] event whose uuid is missing or empty passes the
    pending-UUID filter: when its asset ric and close timestamp are present it
    is appended to the tracked OpenedBid list.  The handler ignores an
    [opened] event (logs it and changes nothing) exactly when it carries a
    non-empty uuid that is not in the pending set. *)
Theorem handleOpened_uuid_filter (item : OpenedPayload) (s : Engine) :
  (nonEmpty (openedUuid item) = false ->
   nonEmpty (openedRic item) = true ->
   nonEmpty (openedCloseAt item) = true ->
   exists front bid,
     openedBids (exec (handleOpened item) s) = front ++ [bid]
     /\ assetRic bid = openedRic item
     /\ closeAt bid = openedCloseAt item
     /\ uuid bid = None)
  /\ (In (Log (LogIgnoringOpened (openedUuid item)))
         (outputs (handleOpened item) s)
      <-> nonEmpty (openedUuid item) = true
          /\ set_has (openedUuid item) (pendingUUIDs s) = false)
  /\ (foreignOpened item s = true -> exec (handleOpened item) s = s).
Proof.
  split; [|split].
  - intros Hu Hric Hclose.
    assert (Hpass : foreignOpened item s = false)
      by (unfold foreignOpened; rewrite Hu; reflexivity).
    destruct (handleOpened_tracks item s Hpass Hric Hclose)
      as (front & bid & Hbids & H1 & H2 & H3 & _).
    exists front, bid. rewrite Hu in H3. auto.
  - assert (Hcases :
      outputs (handleOpened item) s
      = if foreignOpened item s
        then [Log (LogIgnoringOpened (openedUuid item))] else []).
    { unfold foreignOpened, openedUuid, handleOpened.
      cbv [exec outputs bind this assign emit when skip ret fst snd].
      destruct (nonEmpty (orDefault (opened_uuid item) EmptyString)
                && negb (set_has (orDefault (opened_uuid item) EmptyString)
                           (pendingUUIDs s))); [reflexivity|].
      destruct (nonEmpty (orDefault (opened_uuid item) EmptyString));
        destruct (nonEmpty _ && nonEmpty _); cbn;
        repeat match goal with
               | |- context [if ?c then _ else _] => destruct c; cbn
               end; reflexivity. }
    rewrite Hcases. unfold foreignOpened.
    destruct (nonEmpty (openedUuid item));
      destruct (set_has (openedUuid item) (pendingUUIDs s)); cbn;
      split; intros H; try tauto; try (destruct H; discriminate);
      try (split; reflexivity); try (left; reflexivity).
  - unfold foreignOpened, openedUuid, handleOpened.
    cbv [exec outputs bind this assign emit when skip ret fst snd].
    intros Hforeign. rewrite Hforeign. reflexivity.
Qed.

Lemma handleOpened_uuid_filter_witness :
  let item := anonymousOpened "2024-01-01T00:01:00Z" in
  let s := set_pendingUUIDs ["4c0f1c6e"] runningEngine in
  nonEmpty (openedUuid item) = false
  /\ nonEmpty (openedRic item) = true
  /\ nonEmpty (openedCloseAt item) = true
  /\ exists front bid,
       openedBids (exec (handleOpened item) s) = front ++ [bid]
       /\ assetRic bid = openedRic item
       /\ closeAt bid = openedCloseAt item
       /\ uuid bid = None.
Proof.
  intros item s.
  split; [reflexivity|]. split; [reflexivity|]. split; [reflexivity|].
  exact (proj1 (handleOpened_uuid_filter item s) eq_refl eq_refl eq_refl).
Defined.

(** The event without uuid is tracked even though another acknowledgement is
    pending, and the pending set is left as it was. *)
Example handleOpened_anonymous_run :
  let s := set_pendingUUIDs ["4c0f1c6e"] runningEngine in
  let s' := exec (handleOpened (anonymousOpened "2024-01-01T00:01:00Z")) s in
  map closeAt (openedBids s') = ["2024-01-01T00:01:00Z"]
  /\ pendingUUIDs s' = ["4c0f1c6e"].
Proof. vm_compute. split; reflexivity. Qed.

(** ** The dedupe set *)

Lemma set_has_In (k : string) (s : StrSet) : set_has k s = true <-> In k s.
Proof.
  unfold set_has. rewrite existsb_exists. split.
  - intros (x & Hin & Heq). apply String.eqb_eq in Heq. subst. exact Hin.
  - intros Hin. exists k. split; [exact Hin | apply String.eqb_refl].
Qed.

Lemma set_has_false (k : string) (s : StrSet) :
  set_has k s = false <-> ~ In k s.
Proof.
  rewrite <- set_has_In. destruct (set_has k s); split; congruence.
Qed.

Lemma filter_twice {A : Type} (f g : A -> bool) (l : list A) :
  filter f (filter g l) = filter (fun x => g x && f x) l.
Proof.
  induction l as [|x l IH]; cbn; [reflexivity|].
  destruct (g x); cbn; [destruct (f x)|]; now rewrite IH.
Qed.

(** Deleting the entries [ks] one by one keeps what is not among them. *)
Lemma fold_delete_filter (ks : list string) :
  forall s,
    fold_left (fun acc entry => set_delete entry acc) ks s
    = filter (fun x => negb (set_has x ks)) s.
Proof.
  induction ks as [|k ks IH]; intros s; cbn [fold_left].
  - induction s as [|x s IHs]; [reflexivity|].
    cbn [filter set_has existsb negb]. f_equal. exact IHs.
  - rewrite IH. unfold set_delete. rewrite filter_twice.
    apply filter_ext. intros x. unfold set_has. cbn [existsb].
    rewrite (String.eqb_sym k x), negb_orb. reflexivity.
Qed.

Lemma set_evict_filter (n : nat) (s : StrSet) :
  set_evict n s = filter (fun x => negb (set_has x (firstn n s))) s.
Proof. apply fold_delete_filter. Qed.

Lemma firstn_In {A : Type} (n : nat) (l : list A) (x : A) :
  In x (firstn n l) -> In x l.
Proof.
  intros H. rewrite <- (firstn_skipn n l). apply in_or_app. left. exact H.
Qed.

Lemma filter_length_le {A : Type} (f : A -> bool) (l : list A) :
  (List.length (filter f l) <= List.length l)%nat.
Proof.
  induction l as [|x l IH]; cbn; [lia|]. destruct (f x); cbn; lia.
Qed.

(** A key that has just been recorded is the newest entry. *)
Lemma recordBatchKey_recent (key : string) (seen : StrSet) :
  ~ In key seen -> recentKey key 0 (recordBatchKey key seen).
Proof.
  intros Hnew. unfold recordBatchKey, set_add.
  apply set_has_false in Hnew as Hhas. rewrite Hhas.
  destruct (size (seen ++ [key]) >? 100) eqn:Hbig.
  - rewrite set_evict_filter, filter_app. cbn [filter].
    assert (Hkeep : set_has key (firstn 50 (seen ++ [key])) = false).
    { apply set_has_false. intros Hin.
      rewrite firstn_app in Hin. apply in_app_or in Hin.
      destruct Hin as [Hin|Hin].
      - apply Hnew. eapply firstn_In; exact Hin.
      - unfold size in Hbig. rewrite length_app in Hbig.
        cbn [List.length] in Hbig. apply Z.gtb_lt in Hbig.
        assert (Hlen : (50 - List.length seen = 0)%nat) by lia.
        rewrite Hlen in Hin. cbn in Hin. exact Hin. }
    rewrite Hkeep. cbn.
    eexists _, []. split; [reflexivity|]. split; [|cbn; lia].
    intros Hin. apply filter_In in Hin. tauto.
  - exists seen, []. split; [reflexivity|]. split; [exact Hnew | cbn; lia].
Qed.

(** Recording another key leaves a recent key in the set: the eviction only
    reaches the 50 oldest of more than 100 entries. *)
Lemma recordBatchKey_keeps_recent (key other : string) (j : nat)
  (seen : StrSet) :
  recentKey key j seen -> (j < 50)%nat -> ~ In other seen ->
  recentKey key (S j) (recordBatchKey other seen).
Proof.
  intros (pre & post & Hseen & Hpre & Hpost) Hj Hother.
  unfold recordBatchKey, set_add.
  apply set_has_false in Hother as Hhas. rewrite Hhas. subst seen.
  destruct (size ((pre ++ key :: post) ++ [other]) >? 100) eqn:Hbig.
  - rewrite set_evict_filter.
    unfold size in Hbig. rewrite !length_app in Hbig.
    cbn [List.length] in Hbig. apply Z.gtb_lt in Hbig.
    assert (Hlong : (50 <= List.length pre)%nat) by lia.
    assert (Hfirst : firstn 50 ((pre ++ key :: post) ++ [other])
                     = firstn 50 pre).
    { rewrite <- app_assoc, firstn_app.
      replace (50 - List.length pre)%nat with O by lia.
      cbn. apply app_nil_r. }
    rewrite Hfirst, <- app_assoc, filter_app. cbn [app filter].
    assert (Hkeep : set_has key (firstn 50 pre) = false).
    { apply set_has_false. intros Hin. apply Hpre.
      eapply firstn_In; exact Hin. }
    rewrite Hkeep. cbn [negb].
    eexists _, _. split; [reflexivity|]. split.
    + intros Hin. apply filter_In in Hin. tauto.
    + etransitivity; [apply filter_length_le|].
      rewrite length_app. cbn. lia.
  - exists pre, (post ++ [other]). split.
    + rewrite <- app_assoc. reflexivity.
    + split; [exact Hpre|]. rewrite length_app. cbn. lia.
Qed.

Lemma recentKey_has (key : string) (j : nat) (seen : StrSet) :
  recentKey key j seen -> set_has key seen = true.
Proof.
  intros (pre & post & -> & _). apply set_has_In, in_or_app. right. left.
  reflexivity.
Qed.

Lemma recentKey_weaken (key : string) (j j' : nat) (seen : StrSet) :
  recentKey key j seen -> (j <= j')%nat -> recentKey key j' seen.
Proof.
  intros (pre & post & H1 & H2 & H3) Hle. exists pre, post.
  repeat split; [exact H1 | exact H2 | lia].
Qed.

(** ** Stops and invariants along a run *)

Lemma keepsUnlessStopped_bind {A B V : Type} (field : Engine -> V)
  (m : M A) (k : A -> M B) :
  keepsUnlessStopped field m ->
  (forall a, keepsUnlessStopped field (k a)) ->
  keepsUnlessStopped field (bind m k).
Proof.
  intros Hm Hk e. rewrite outputs_bind, exec_bind.
  unfold stopped. rewrite existsb_app.
  destruct (Hm e) as [Hstop|Hkeep].
  - left. unfold stopped in Hstop. rewrite Hstop. reflexivity.
  - destruct (Hk (result m e) (exec m e)) as [Hstop|Hkeep'].
    + left. unfold stopped in Hstop. rewrite Hstop. apply orb_true_r.
    + right. congruence.
Qed.

Lemma keepsUnlessStopped_keeps {A V : Type} (field : Engine -> V) (m : M A) :
  keeps field m -> keepsUnlessStopped field m.
Proof. intros Hk e. right. apply Hk. Qed.

Lemma stop_reports {V : Type} (field : Engine -> V) (msg : StopMsg) :
  keepsUnlessStopped field (stop msg).
Proof. intros e. left. reflexivity. Qed.

Ltac unless_stopped :=
  repeat match goal with
         | |- keepsUnlessStopped _ (bind _ _) =>
             apply keepsUnlessStopped_bind; [|intros ?]
         | |- keepsUnlessStopped _ (stop _) => apply stop_reports
         | |- keepsUnlessStopped _ (when ?b _) => destruct b; cbn [when]
         | |- keepsUnlessStopped _ (if ?b then _ else _) => destruct b
         | |- keepsUnlessStopped _ (match ?x with _ => _ end) => destruct x
         | |- keepsUnlessStopped _ _ =>
             apply keepsUnlessStopped_keeps; solve [frame]
         end.

Lemma preserves_bind {A B : Type} (I : Engine -> Prop) (m : M A)
  (k : A -> M B) :
  preserves I m -> (forall a, preserves I (k a)) -> preserves I (bind m k).
Proof. intros Hm Hk e He. rewrite exec_bind. apply Hk, Hm, He. Qed.

Ltac invariant :=
  repeat match goal with
         | |- preserves _ (bind _ _) => apply preserves_bind; [|intros ?]
         | |- preserves _ (when ?b _) => destruct b; cbn [when]
         | |- preserves _ (if ?b then _ else _) => destruct b
         | |- preserves _ (match ?x with _ => _ end) => destruct x
         | |- preserves _ _ =>
             let e := fresh "e" in
             let He := fresh "He" in
             intros e He; first [exact He | reflexivity]
         end.

(** ** Settlement batches and the dedupe set *)

Lemma resume_processedBatches (cfg : TradeConfig) api :
  keepsUnlessStopped processedBatches (handleCloseDealBatch_resume cfg api).
Proof. unfold_methods_to_stop. unless_stopped. Qed.

Lemma resume_noMatch (cfg : TradeConfig) api (p : BatchPayload) :
  preserves (noMatch p) (handleCloseDealBatch_resume cfg api).
Proof. unfold noMatch. unfold_methods. invariant. Qed.

Lemma settleBid_keeps_processedBatches (cfg : TradeConfig) endRate bid :
  keeps processedBatches (settleBid cfg endRate bid).
Proof. unfold_methods. frame. Qed.

Lemma settleBid_keeps_openedBids (cfg : TradeConfig) endRate bid :
  keeps openedBids (settleBid cfg endRate bid).
Proof. unfold_methods. frame. Qed.

Lemma handleCloseDealBatch_outputs (cfg : TradeConfig) p api (s : Engine) :
  outputs (handleCloseDealBatch cfg p api) s
  = outputs (handleCloseDealBatch_settle cfg p) s
    ++ (if settles p s
        then outputs (handleCloseDealBatch_resume cfg api)
               (settledState cfg p s)
        else []).
Proof.
  unfold handleCloseDealBatch.
  rewrite outputs_bind, settle_result, settle_exec.
  destruct (settles p s); reflexivity.
Qed.

(** A batch without key, or with a key that is in the dedupe set, changes
    nothing; only the log line of the handler goes out. *)
Lemma batch_deduplicated (cfg : TradeConfig) p api (s : Engine) :
  hasKey p = false \/ set_has (batchKeyOf p) (processedBatches s) = true ->
  exec (handleCloseDealBatch cfg p api) s = s
  /\ outputs (handleCloseDealBatch cfg p api) s = [Log LogCloseDealBatch].
Proof.
  intros Hseen.
  assert (Hstate : settledState cfg p s = s /\ settles p s = false
                   /\ outputs (handleCloseDealBatch_settle cfg p) s
                      = [Log LogCloseDealBatch]).
  { unfold settledState, settles, handleCloseDealBatch_settle, hasKey in *.
    cbv [outputs bind emit this ret fst snd].
    destruct (nonEmpty (batchRic p)); destruct (nonEmpty (batchFinishedAt p));
      cbn [negb orb andb] in *; try (repeat split; reflexivity).
    destruct Hseen as [Hseen|Hseen]; [discriminate|].
    rewrite Hseen. repeat split; reflexivity. }
  destruct Hstate as (Hst & Hset & Hout).
  rewrite handleCloseDealBatch_exec, handleCloseDealBatch_outputs, Hset, Hst,
    Hout. split; reflexivity.
Qed.

Lemma filter_none_after_removal {A : Type} (f : A -> bool) (l : list A) :
  filter f (filter (fun x => negb (f x)) l) = [].
Proof.
  rewrite filter_twice. induction l as [|x l IH]; cbn; [reflexivity|].
  destruct (f x); cbn; exact IH.
Qed.

Lemma size_zero_nil {A : Type} (l : list A) : (size l =? 0) = true -> l = [].
Proof. destruct l; [reflexivity | discriminate]. Qed.

(** A batch with a new key: afterwards no tracked bid is due at it, and the
    key has been recorded unless the engine stopped. *)
Lemma batch_first_time (cfg : TradeConfig) p api (s : Engine) :
  hasKey p = true ->
  set_has (batchKeyOf p) (processedBatches s) = false ->
  let s1 := exec (handleCloseDealBatch cfg p api) s in
  noMatch p s1
  /\ (stopped (outputs (handleCloseDealBatch cfg p api) s) = true
      \/ processedBatches s1
         = recordBatchKey (batchKeyOf p) (processedBatches s)).
Proof.
  intros Hkey Hnew s1. subst s1.
  rewrite handleCloseDealBatch_exec, handleCloseDealBatch_outputs.
  unfold settledState, settles, hasKey in *.
  destruct (nonEmpty (batchRic p)); [|discriminate].
  destruct (nonEmpty (batchFinishedAt p)); [|discriminate].
  cbn [negb orb]. rewrite Hnew. cbv zeta.
  destruct (size _ =? 0) eqn:Hnone; cbn [negb].
  - split.
    + unfold noMatch. cbn [openedBids set_processedBatches].
      apply size_zero_nil, Hnone.
    + right. reflexivity.
  - match goal with
    | |- context [exec (forEach ?l ?body) ?e0] =>
        set (s' := exec (forEach l body) e0);
        assert (Hbids : openedBids s' = openedBids e0)
          by (apply keeps_forEach; intros bid;
              apply settleBid_keeps_openedBids);
        assert (Hseen : processedBatches s' = processedBatches e0)
          by (apply keeps_forEach; intros bid;
              apply settleBid_keeps_processedBatches)
    end.
    cbn [openedBids processedBatches set_openedBids set_processedBatches]
      in Hbids, Hseen.
    split.
    + apply resume_noMatch. unfold noMatch. rewrite Hbids.
      apply filter_none_after_removal.
    + destruct (resume_processedBatches cfg api s') as [Hstop|Hkeep].
      * left. unfold stopped in *. rewrite existsb_app, Hstop.
        apply orb_true_r.
      * right. rewrite Hkeep. exact Hseen.
Qed.

(** With no tracked bid due at it, a batch changes the dedupe set at most. *)
Lemma batch_without_match (cfg : TradeConfig) p api (s : Engine) :
  noMatch p s ->
  exec (handleCloseDealBatch cfg p api) s
  = set_processedBatches
      (processedBatches (exec (handleCloseDealBatch cfg p api) s)) s.
Proof.
  intros Hnone. rewrite handleCloseDealBatch_exec.
  unfold settledState, settles. unfold noMatch in Hnone.
  destruct (negb (nonEmpty (batchRic p)) || negb (nonEmpty (batchFinishedAt p)));
    [destruct s; reflexivity|].
  destruct (set_has (batchKeyOf p) (processedBatches s));
    [destruct s; reflexivity|].
  cbv zeta. rewrite Hnone. cbn. reflexivity.
Qed.

Lemma other_event_keeps_processedBatches (cfg : TradeConfig)
  (ev : SocketEvent) :
  isBatch ev = false -> keeps processedBatches (handleSocketEvent cfg ev).
Proof.
  destruct ev; try discriminate; intros _; cbn [handleSocketEvent];
    unfold_methods; frame.
Qed.

Lemma exec_runEvents_cons (cfg : TradeConfig) ev evs (s : Engine) :
  exec (runEvents cfg (ev :: evs)) s
  = exec (runEvents cfg evs) (exec (handleSocketEvent cfg ev) s).
Proof. unfold runEvents. apply exec_forEach_cons. Qed.

Lemma stopped_runEvents_cons (cfg : TradeConfig) ev evs (s : Engine) :
  stopped (outputs (runEvents cfg (ev :: evs)) s)
  = stopped (outputs (handleSocketEvent cfg ev) s)
    || stopped (outputs (runEvents cfg evs)
                  (exec (handleSocketEvent cfg ev) s)).
Proof.
  unfold runEvents. cbn [forEach]. rewrite outputs_bind.
  unfold stopped. apply existsb_app.
Qed.

(** One event on, a recent key is still in the dedupe set, one place older at
    most, unless the engine stopped. *)
Lemma event_keeps_recent (cfg : TradeConfig) (key : string) (j : nat)
  (ev : SocketEvent) (s : Engine) :
  recentKey key j (processedBatches s) ->
  (j + (if isBatch ev then 1 else 0) <= 50)%nat ->
  stopped (outputs (handleSocketEvent cfg ev) s) = false ->
  recentKey key (j + (if isBatch ev then 1 else 0))
    (processedBatches (exec (handleSocketEvent cfg ev) s)).
Proof.
  intros Hrecent Hroom Hrun.
  destruct (isBatch ev) eqn:Hbatch.
  - destruct ev as [| |p api| |]; try discriminate.
    cbn [handleSocketEvent] in *.
    destruct (hasKey p) eqn:Hkey;
      [destruct (set_has (batchKeyOf p) (processedBatches s)) eqn:Hseen|].
    + destruct (batch_deduplicated cfg p api s (or_intror Hseen)) as [-> _].
      apply (recentKey_weaken key j); [exact Hrecent | lia].
    + destruct (batch_first_time cfg p api s Hkey Hseen) as [_ [Hstop|Hrec]];
        [congruence|].
      rewrite Hrec. replace (j + 1)%nat with (S j) by lia.
      apply recordBatchKey_keeps_recent; [exact Hrecent | lia |].
      apply set_has_false, Hseen.
    + destruct (batch_deduplicated cfg p api s (or_introl Hkey)) as [-> _].
      apply (recentKey_weaken key j); [exact Hrecent | lia].
  - rewrite (other_event_keeps_processedBatches cfg ev Hbatch).
    apply (recentKey_weaken key j); [exact Hrecent | lia].
Qed.

Lemma run_keeps_recent (cfg : TradeConfig) (key : string)
  (evs : list SocketEvent) :
  forall (j : nat) (s : Engine),
    recentKey key j (processedBatches s) ->
    (j + batchCount evs <= 50)%nat ->
    stopped (outputs (runEvents cfg evs) s) = false ->
    recentKey key (j + batchCount evs)
      (processedBatches (exec (runEvents cfg evs) s)).
Proof.
  induction evs as [|ev evs IH]; intros j s Hrecent Hroom Hrun.
  - cbn. apply (recentKey_weaken key j); [exact Hrecent | lia].
  - rewrite stopped_runEvents_cons in Hrun.
    apply orb_false_iff in Hrun as [Hev Hrest].
    rewrite exec_runEvents_cons.
    assert (Hcount : batchCount (ev :: evs)
                     = ((if isBatch ev then 1 else 0) + batchCount evs)%nat)
      by (unfold batchCount; cbn [filter]; destruct (isBatch ev); reflexivity).
    rewrite Hcount in *.
    replace (j + ((if isBatch ev then 1 else 0) + batchCount evs))%nat
      with ((j + (if isBatch ev then 1 else 0)) + batchCount evs)%nat by lia.
    apply IH; [|lia | exact Hrest].
    apply event_keeps_recent; [exact Hrecent | lia | exact Hev].
Qed.

Lemma set_processedBatches_same (s : Engine) :
  set_processedBatches (processedBatches s) s = s.
Proof. destruct s; reflexivity. Qed.

(** The duplicate may also arrive while the first processing waits for the
    profit refresh: its synchronous part then finds the key and returns. *)
Lemma duplicate_during_refresh (cfg : TradeConfig) (p : BatchPayload)
  (s : Engine) :
  let s1 := exec (handleCloseDealBatch_settle cfg p) s in
  exec (handleCloseDealBatch_settle cfg p) s1 = s1
  /\ result (handleCloseDealBatch_settle cfg p) s1 = false.
Proof.
  intros s1. subst s1. rewrite !settle_exec, settle_result.
  assert (Hseen : hasKey p = true ->
                  set_has (batchKeyOf p)
                    (processedBatches (settledState cfg p s)) = true).
  { intros Hkey. unfold settledState, hasKey in *.
    destruct (nonEmpty (batchRic p)); [|discriminate].
    destruct (nonEmpty (batchFinishedAt p)); [|discriminate].
    cbn [negb orb].
    destruct (set_has (batchKeyOf p) (processedBatches s)) eqn:Hold;
      [exact Hold|].
    assert (Hnew : set_has (batchKeyOf p)
                     (recordBatchKey (batchKeyOf p) (processedBatches s))
                   = true)
      by (apply (recentKey_has _ 0), recordBatchKey_recent, set_has_false,
            Hold).
    cbv zeta. destruct (size _ =? 0); [exact Hnew|].
    rewrite keeps_forEach
      by (intros bid; apply settleBid_keeps_processedBatches).
    exact Hnew. }
  unfold hasKey in Hseen. unfold settledState at 1. unfold settles.
  destruct (nonEmpty (batchRic p)); [|split; reflexivity].
  destruct (nonEmpty (batchFinishedAt p)); [|split; reflexivity].
  cbn [negb orb andb] in *. rewrite (Hseen eq_refl). split; reflexivity.
Qed.

(** ** C5: the same settlement batch processed twice *)

(** C5, amended.  When the same close_deal_batch payload is processed twice
    in succession, the second processing changes nothing but, at most, the
    dedupe set, so the ladder state is mutated once.  Unless the first
    processing stopped the engine, the second one is deduplicated by the key
    and leaves all engine state unchanged.  With other socket events in
    between this still holds when the first processing recorded the key, no
    stop occurred and at most 50 settlement batches came in between. *)
Theorem close_deal_batch_twice (cfg : TradeConfig) (p : BatchPayload)
  (api api' : option (Q * Q)) (s : Engine) :
  let first := handleCloseDealBatch cfg p api in
  let second := handleCloseDealBatch cfg p api' in
  let s1 := exec first s in
  (exec second s1 = set_processedBatches (processedBatches (exec second s1)) s1
   /\ ladderState (exec second s1) = ladderState s1)
  /\ (stopped (outputs first s) = false ->
      exec second s1 = s1 /\ outputs second s1 = [Log LogCloseDealBatch])
  /\ (forall evs,
         hasKey p = true ->
         set_has (batchKeyOf p) (processedBatches s) = false ->
         (batchCount evs <= 50)%nat ->
         stopped (outputs first s) = false ->
         stopped (outputs (runEvents cfg evs) s1) = false ->
         let s' := exec (runEvents cfg evs) s1 in
         exec second s' = s' /\ outputs second s' = [Log LogCloseDealBatch]).
Proof.
  intros first second s1. subst first second.
  destruct (hasKey p) eqn:Hkey;
    [destruct (set_has (batchKeyOf p) (processedBatches s)) eqn:Hseen|].
  - (* the key was in the set before *)
    destruct (batch_deduplicated cfg p api s (or_intror Hseen)) as [Hs1 _].
    fold s1 in Hs1. rewrite Hs1 in *.
    destruct (batch_deduplicated cfg p api' s (or_intror Hseen)) as [H2 Ho2].
    split; [|split].
    + rewrite H2, set_processedBatches_same. split; reflexivity.
    + intros _. split; assumption.
    + intros evs _ Hnew. discriminate.
  - (* the key is new *)
    destruct (batch_first_time cfg p api s Hkey Hseen) as [Hnone Hrec].
    fold s1 in Hnone, Hrec.
    assert (Hrecent : stopped (outputs (handleCloseDealBatch cfg p api) s)
                      = false ->
                      recentKey (batchKeyOf p) 0 (processedBatches s1)).
    { intros Hrun. destruct Hrec as [Hstop|Hrec]; [congruence|].
      rewrite Hrec. apply recordBatchKey_recent, set_has_false, Hseen. }
    split; [|split].
    + pose proof (batch_without_match cfg p api' s1 Hnone) as H2.
      split; [exact H2 | rewrite H2; reflexivity].
    + intros Hrun. apply batch_deduplicated. right.
      apply (recentKey_has _ 0), Hrecent, Hrun.
    + intros evs _ _ Hcount Hrun Hevs s'. apply batch_deduplicated. right.
      apply (recentKey_has _ (0 + batchCount evs)).
      apply run_keeps_recent; [apply Hrecent, Hrun | lia | exact Hevs].
  - (* no key: both return at once *)
    destruct (batch_deduplicated cfg p api s (or_introl Hkey)) as [Hs1 _].
    fold s1 in Hs1. rewrite Hs1 in *.
    destruct (batch_deduplicated cfg p api' s (or_introl Hkey)) as [H2 Ho2].
    split; [|split].
    + rewrite H2, set_processedBatches_same. split; reflexivity.
    + intros _. split; assumption.
    + intros evs Hk. discriminate.
Qed.

Lemma close_deal_batch_twice_witness :
  let cfg := DEFAULT_TRADE_CONFIG in
  let p := batchAt "2024-01-01T00:01:00Z" (inject_Z 99) in
  let s := set_openedBids [callBid "2024-01-01T00:01:00Z"] runningEngine in
  let evs := stampBatches 1 50 in
  let s1 := exec (handleCloseDealBatch cfg p None) s in
  let s' := exec (runEvents cfg evs) s1 in
  hasKey p = true
  /\ set_has (batchKeyOf p) (processedBatches s) = false
  /\ (batchCount evs <= 50)%nat
  /\ stopped (outputs (handleCloseDealBatch cfg p None) s) = false
  /\ stopped (outputs (runEvents cfg evs) s1) = false
  /\ martingaleStep s1 = 1
  /\ exec (handleCloseDealBatch cfg p None) s' = s'.
Proof.
  intros cfg p s evs s1 s'.
  assert (H1 : hasKey p = true) by reflexivity.
  assert (H2 : set_has (batchKeyOf p) (processedBatches s) = false)
    by reflexivity.
  assert (H3 : (batchCount evs <= 50)%nat)
    by (apply Nat.leb_le; vm_compute; reflexivity).
  assert (H4 : stopped (outputs (handleCloseDealBatch cfg p None) s) = false)
    by (vm_compute; reflexivity).
  assert (H5 : stopped (outputs (runEvents cfg evs) s1) = false)
    by (vm_compute; reflexivity).
  assert (H6 : martingaleStep s1 = 1) by (vm_compute; reflexivity).
  split; [exact H1|]. split; [exact H2|]. split; [exact H3|].
  split; [exact H4|]. split; [exact H5|]. split; [exact H6|].
  exact (proj1 (proj2 (proj2 (close_deal_batch_twice cfg p None None s))
                  evs H1 H2 H3 H4 H5)).
Defined.

(** C5 as stated fails when the first processing stops the engine.  At step 2
    with the stop-loss at 2 and the auto switch off, the loss moves the step
    to 3 and the risk rules stop the engine, which clears the dedupe set; the
    second processing of the same payload is not deduplicated and records
    the key again. *)
Lemma second_processing_after_stop :
  let cfg := stopLossConfig in
  let p := batchAt "2024-01-01T00:01:00Z" (inject_Z 99) in
  let api := Some (0%Q, 0%Q) in
  let s := set_martingaleStep 2
             (set_openedBids [callBid "2024-01-01T00:01:00Z"] runningEngine) in
  let s1 := exec (handleCloseDealBatch cfg p api) s in
  let s2 := exec (handleCloseDealBatch cfg p api) s1 in
  martingaleStep s1 = 3
  /\ status s1 = Stopped
  /\ processedBatches s1 = []
  /\ processedBatches s2 = ["Z-CRY/IDX:2024-01-01T00:01:00Z"]
  /\ s2 <> s1.
Proof.
  intros cfg p api s s1 s2.
  assert (H1 : processedBatches s1 = []) by (vm_compute; reflexivity).
  assert (H2 : processedBatches s2 = ["Z-CRY/IDX:2024-01-01T00:01:00Z"])
    by (vm_compute; reflexivity).
  split; [vm_compute; reflexivity|]. split; [vm_compute; reflexivity|].
  split; [exact H1|]. split; [exact H2|].
  intros Heq. rewrite Heq, H1 in H2. discriminate.
Qed.

(** The bound of 50 is sharp.  With 99 keys in the dedupe set a batch is
    recorded as the 100th; the next key evicts the 50 oldest and the 50 after
    it evict the batch's own key: after 51 other batches the same payload is
    recorded anew, after 50 it is still deduplicated. *)
Example eviction_after_51_batches :
  let cfg := DEFAULT_TRADE_CONFIG in
  let p := batchAt "2024-01-01T00:01:00Z" (inject_Z 99) in
  let s := set_processedBatches (stampKeys 1 99) runningEngine in
  let s1 := exec (handleCloseDealBatch cfg p None) s in
  let after50 := exec (runEvents cfg (stampBatches 100 50)) s1 in
  let after51 := exec (runEvents cfg (stampBatches 100 51)) s1 in
  size (processedBatches s1) = 100
  /\ set_has (batchKeyOf p) (processedBatches after50) = true
  /\ set_has (batchKeyOf p) (processedBatches after51) = false
  /\ set_has (batchKeyOf p)
       (processedBatches (exec (handleCloseDealBatch cfg p None) after51))
     = true.
Proof. vm_compute. repeat split; reflexivity. Qed.

(** ** C9: a batch that matches no tracked bid *)

Lemma run_other_events_keep_processedBatches (cfg : TradeConfig)
  (evs : list SocketEvent) :
  Forall (fun ev => isBatch ev = false) evs ->
  keeps processedBatches (runEvents cfg evs).
Proof.
  intros Hevs. unfold runEvents.
  induction Hevs as [|ev evs Hev _ IH]; cbn [forEach].
  - intros e. reflexivity.
  - apply keeps_bind; [|intros _; exact IH].
    apply other_event_keeps_processedBatches, Hev.
Qed.

(** C9, amended.  A close_deal_batch event that matches no tracked
    OpenedBid leaves all engine state but the dedupe set unchanged, and its
    key is in the dedupe set afterwards (a payload without ric or
    finished_at has no key and changes nothing).  A later batch with the
    same ric and finished_at is deduplicated and changes no engine state,
    the ladder state included, even if an [opened] event has registered a
    matching OpenedBid in between, in two cases: when only socket events
    other than settlement batches came in between; and when the key was new
    to the dedupe set and at most 50 settlement batches and no stop came in
    between. *)
Theorem unmatched_batch_is_recorded (cfg : TradeConfig) (p : BatchPayload)
  (api : option (Q * Q)) (s : Engine) :
  noMatch p s ->
  let s1 := exec (handleCloseDealBatch cfg p api) s in
  s1 = set_processedBatches (processedBatches s1) s
  /\ (hasKey p = true ->
      set_has (batchKeyOf p) (processedBatches s1) = true)
  /\ (forall evs p' api',
         batchRic p' = batchRic p ->
         batchFinishedAt p' = batchFinishedAt p ->
         Forall (fun ev => isBatch ev = false) evs
         \/ (set_has (batchKeyOf p) (processedBatches s) = false
             /\ (batchCount evs <= 50)%nat
             /\ stopped (outputs (runEvents cfg evs) s1) = false) ->
         let s2 := exec (runEvents cfg evs) s1 in
         exec (handleCloseDealBatch cfg p' api') s2 = s2
         /\ ladderState (exec (handleCloseDealBatch cfg p' api') s2)
            = ladderState s2).
Proof.
  intros Hnone s1.
  pose proof (batch_without_match cfg p api s Hnone) as Hs1. fold s1 in Hs1.
  assert (Hrecent : hasKey p = true ->
                    set_has (batchKeyOf p) (processedBatches s) = false ->
                    recentKey (batchKeyOf p) 0 (processedBatches s1)).
  { intros Hkey Hseen. subst s1. rewrite handleCloseDealBatch_exec.
    unfold settles, settledState, hasKey, noMatch in *.
    destruct (nonEmpty (batchRic p)); [|discriminate].
    destruct (nonEmpty (batchFinishedAt p)); [|discriminate].
    cbn [negb orb]. rewrite Hseen. cbv zeta. rewrite Hnone. cbn.
    apply recordBatchKey_recent, set_has_false, Hseen. }
  assert (Hrec : hasKey p = true ->
                 set_has (batchKeyOf p) (processedBatches s1) = true).
  { intros Hkey.
    destruct (set_has (batchKeyOf p) (processedBatches s)) eqn:Hseen.
    - destruct (batch_deduplicated cfg p api s (or_intror Hseen)) as [Hsame _].
      fold s1 in Hsame. rewrite Hsame. exact Hseen.
    - apply (recentKey_has _ 0), Hrecent; [exact Hkey | reflexivity]. }
  split; [exact Hs1|]. split; [exact Hrec|].
  intros evs p' api' Hric Hfin Hbetween s2.
  assert (Hkey' : batchKeyOf p' = batchKeyOf p)
    by (unfold batchKeyOf; rewrite Hric, Hfin; reflexivity).
  assert (Hdedupe : hasKey p' = false
                    \/ set_has (batchKeyOf p') (processedBatches s2) = true).
  { destruct (hasKey p') eqn:Hk; [right | left; reflexivity].
    assert (Hkey : hasKey p = true)
      by (unfold hasKey in *; rewrite <- Hric, <- Hfin; exact Hk).
    rewrite Hkey'. subst s2.
    destruct Hbetween as [Hevs|(Hnew & Hcount & Hrun)].
    - rewrite (run_other_events_keep_processedBatches cfg evs Hevs).
      apply Hrec, Hkey.
    - apply (recentKey_has _ (0 + batchCount evs)).
      apply run_keeps_recent; [apply Hrecent; assumption | lia | exact Hrun]. }
  destruct (batch_deduplicated cfg p' api' s2 Hdedupe) as [Hsame _].
  split; [exact Hsame | rewrite Hsame; reflexivity].
Qed.

(** A batch arrives before its bid is tracked; the [opened] event comes late
    and registers the bid; 50 other batches follow; the batch arrives again
    and is deduplicated. *)
Lemma unmatched_batch_is_recorded_witness :
  let cfg := DEFAULT_TRADE_CONFIG in
  let p := batchAt "2024-01-01T00:01:00Z" (inject_Z 99) in
  let s := runningEngine in
  let s1 := exec (handleCloseDealBatch cfg p None) s in
  let evs := OpenedEvent (anonymousOpened "2024-01-01T00:01:00Z")
             :: stampBatches 1 50 in
  let s2 := exec (runEvents cfg evs) s1 in
  hasKey p = true
  /\ noMatch p s
  /\ set_has (batchKeyOf p) (processedBatches s) = false
  /\ (batchCount evs <= 50)%nat
  /\ stopped (outputs (runEvents cfg evs) s1) = false
  /\ ~ noMatch p s2
  /\ exec (handleCloseDealBatch cfg p None) s2 = s2.
Proof.
  intros cfg p s s1 evs s2.
  assert (H1 : hasKey p = true) by reflexivity.
  assert (H2 : noMatch p s) by reflexivity.
  assert (H3 : set_has (batchKeyOf p) (processedBatches s) = false)
    by reflexivity.
  assert (H4 : (batchCount evs <= 50)%nat)
    by (apply Nat.leb_le; vm_compute; reflexivity).
  assert (H5 : stopped (outputs (runEvents cfg evs) s1) = false)
    by (vm_compute; reflexivity).
  assert (H6 : ~ noMatch p s2) by (vm_compute; discriminate).
  split; [exact H1|]. split; [exact H2|]. split; [exact H3|].
  split; [exact H4|]. split; [exact H5|]. split; [exact H6|].
  exact (proj1 (proj2 (proj2 (unmatched_batch_is_recorded cfg p None s H2))
                  evs p None eq_refl eq_refl
                  (or_intror (conj H3 (conj H4 H5))))).
Defined.

Lemma ladderState_martingaleStep (a b : Engine) :
  ladderState a = ladderState b -> martingaleStep a = martingaleStep b.
Proof. unfold ladderState. intros H. injection H as H _. exact H. Qed.

(** C9 as stated fails once the key has left the dedupe set.  A batch
    arrives before its bid is tracked and is recorded; the [opened] event
    comes late and registers the bid; 100 other batches follow, the last of
    which evicts the 50 oldest keys, the recorded one among them; the batch
    arrives again, is not deduplicated and settles the bid as a loss: the
    martingale step moves from 0 to 1. *)
Lemma late_batch_settles_after_eviction :
  let cfg := DEFAULT_TRADE_CONFIG in
  let p := batchAt "2024-01-01T00:01:00Z" (inject_Z 99) in
  let s := runningEngine in
  let s1 := exec (handleCloseDealBatch cfg p None) s in
  let evs := OpenedEvent (anonymousOpened "2024-01-01T00:01:00Z")
             :: stampBatches 1 100 in
  let s2 := exec (runEvents cfg evs) s1 in
  let s3 := exec (handleCloseDealBatch cfg p None) s2 in
  noMatch p s
  /\ s1 = set_processedBatches [batchKeyOf p] s
  /\ stopped (outputs (runEvents cfg evs) s1) = false
  /\ set_has (batchKeyOf p) (processedBatches s2) = false
  /\ martingaleStep s2 = 0
  /\ martingaleStep s3 = 1
  /\ ladderState s3 <> ladderState s2.
Proof.
  intros cfg p s s1 evs s2 s3.
  assert (H2 : martingaleStep s2 = 0) by (vm_compute; reflexivity).
  assert (H3 : martingaleStep s3 = 1) by (vm_compute; reflexivity).
  split; [reflexivity|]. split; [vm_compute; reflexivity|].
  split; [vm_compute; reflexivity|]. split; [vm_compute; reflexivity|].
  split; [exact H2|]. split; [exact H3|].
  intros Heq. apply ladderState_martingaleStep in Heq.
  rewrite H2, H3 in Heq. discriminate.
Qed.

(** * Further properties *)

(** ** Outcome resolution *)

Lemma Qltb_lt (a b : Q) : Qltb a b = true <-> (a < b)%Q.
Proof.
  unfold Qltb. rewrite negb_true_iff. split.
  - intros H. apply Qnot_le_lt. intros Hle.
    apply Qle_bool_iff in Hle. congruence.
  - intros H. destruct (Qle_bool b a) eqn:Hle; [|reflexivity].
    apply Qle_bool_iff in Hle. lra.
Qed.

Lemma Qltb_ge (a b : Q) : Qltb a b = false <-> (b <= a)%Q.
Proof.
  unfold Qltb. rewrite negb_false_iff. apply Qle_bool_iff.
Qed.

(** X1. For one pair of rates a call and a put resolve to opposite outcomes:
    both tie exactly when the rates are equal, the call wins and the put
    loses when the close rate is higher, the put wins and the call loses when
    it is lower. *)
Theorem resolveOutcome_call_put (open close : Q) :
  match resolveOutcome Call open close, resolveOutcome Put open close with
  | Tie, Tie => (close == open)%Q
  | Win, Loss => (open < close)%Q
  | Loss, Win => (close < open)%Q
  | _, _ => False
  end.
Proof.
  unfold resolveOutcome, Qgtb.
  destruct (Qeq_bool close open) eqn:Heq.
  - apply Qeq_bool_eq, Heq.
  - apply Qeq_bool_neq in Heq.
    destruct (Qltb open close) eqn:Hup; destruct (Qltb close open) eqn:Hdown;
      rewrite ?Qltb_lt, ?Qltb_ge in *; try assumption; lra.
Qed.

(** ** Bid sizing *)

Lemma mathRound_le (x y : Q) : (x <= y)%Q -> mathRound x <= mathRound y.
Proof. intros H. unfold mathRound. apply Qfloor_resp_le. lra. Qed.

Lemma mathRound_inject_Z (n : Z) : mathRound (inject_Z n) = n.
Proof.
  unfold mathRound.
  assert (Hlo : n <= Qfloor (inject_Z n + (1 # 2))).
  { rewrite <- (Qfloor_Z n) at 1. apply Qfloor_resp_le. lra. }
  assert (Hhi : Qfloor (inject_Z n + (1 # 2)) < n + 1).
  { apply Z.lt_nge. intros Hge.
    pose proof (Qfloor_le (inject_Z n + (1 # 2))) as Hf.
    assert (Hinj : (inject_Z (n + 1) <= inject_Z (Qfloor (inject_Z n + (1 # 2))))%Q)
      by (rewrite <- Zle_Qle; exact Hge).
    rewrite inject_Z_plus in Hinj. change (inject_Z 1) with 1%Q in Hinj.
    lra. }
  lia.
Qed.

Lemma mathRound_scaled (n : Z) : mathRound (inject_Z n * 100) = n * 100.
Proof.
  rewrite <- (mathRound_inject_Z (n * 100)). unfold mathRound.
  apply Qfloor_comp. rewrite inject_Z_mult. reflexivity.
Qed.

(** What calculateBidAmounts returns, and when it leaves the engine alone. *)
Lemma calculateBidAmounts_cases (cfg : TradeConfig) (s : Engine) :
  let raw := computedBid cfg s in
  let currency := toUpperCase (userCurrency s) in
  let r := result (calculateBidAmounts cfg) s in
  (raw < minBidFor currency -> r = [] /\ exec (calculateBidAmounts cfg) s = s)
  /\ (maxBidFor currency < raw ->
      splitBidAmounts raw (minBidFor currency) (maxBidFor currency) = Some r
      /\ exec (calculateBidAmounts cfg) s = s)
  /\ (minBidFor currency <= raw <= maxBidFor currency ->
      (r = [raw] /\ exec (calculateBidAmounts cfg) s = s)
      \/ (r = [] /\ status (exec (calculateBidAmounts cfg) s) = Stopped)).
Proof.
  destruct (currency_bounds (toUpperCase (userCurrency s))) as [Hpos Hroom].
  unfold computedBid, calculateBidAmounts, getBidAmountForCurrency.
  cbv [result exec bind this emit ret fst snd].
  destruct (String.eqb (toUpperCase (userCurrency s)) "USD");
    [|destruct (String.eqb (toUpperCase (userCurrency s)) "EUR")];
    cbn [fst snd];
    match goal with
    | |- context [rawAmountOf cfg ?b s <=? 0] =>
        set (raw := rawAmountOf cfg b s);
        destruct (Z.leb_spec raw 0);
        [ repeat split; intros; try lia; try (split; reflexivity) |];
        destruct (Z.ltb_spec raw (minBidFor (toUpperCase (userCurrency s))));
        [ repeat split; intros; try lia; try (split; reflexivity) |];
        destruct (Z.gtb_spec raw (maxBidFor (toUpperCase (userCurrency s))))
    end;
    try (split; [intros; lia|]; split; [|intros; lia];
         intros Hbig;
         destruct (splitBidAmounts_spec _ _ Hpos Hroom raw Hbig)
           as (chunks & Hsplit & _);
         rewrite Hsplit; split; reflexivity);
    try (split; [intros; lia|]; split; [intros; lia|]; intros _;
         destruct (Qgtb _ 0 && Qgtb (inject_Z raw) _);
         [right | left]; split; reflexivity).
Qed.

(** X2. Every amount calculateBidAmounts returns lies within the bid bounds
    of the account currency.  When it returns amounts they add up to the
    computed bid and the engine state is untouched; when the computed bid is
    below the minimum it returns none. *)
Theorem calculateBidAmounts_within_bounds (cfg : TradeConfig) (s : Engine) :
  let currency := toUpperCase (userCurrency s) in
  let r := result (calculateBidAmounts cfg) s in
  Forall (inBounds (minBidFor currency) (maxBidFor currency)) r
  /\ (r <> [] ->
      sum r = computedBid cfg s /\ exec (calculateBidAmounts cfg) s = s)
  /\ (computedBid cfg s < minBidFor currency -> r = []).
Proof.
  intros currency r.
  destruct (currency_bounds currency) as [Hpos Hroom].
  destruct (calculateBidAmounts_cases cfg s) as (Hlow & Hhigh & Hmid).
  fold currency r in Hlow, Hhigh, Hmid.
  destruct (Z.lt_ge_cases (computedBid cfg s) (minBidFor currency)) as [Hlt|Hge].
  - destruct (Hlow Hlt) as [Hr _]. rewrite Hr.
    repeat split; try constructor; congruence.
  - split; [|split; [|intros; lia]].
    + destruct (Z.lt_ge_cases (maxBidFor currency) (computedBid cfg s))
        as [Hbig|Hfit].
      * destruct (Hhigh Hbig) as [Hsplit _].
        destruct (splitBidAmounts_spec _ _ Hpos Hroom _ Hbig)
          as (chunks & Hsplit' & _ & Hall).
        rewrite Hsplit in Hsplit'. injection Hsplit' as ->. exact Hall.
      * destruct (Hmid (conj Hge Hfit)) as [[Hr _]|[Hr _]]; rewrite Hr.
        -- constructor; [split; assumption | constructor].
        -- constructor.
    + intros Hne.
      destruct (Z.lt_ge_cases (maxBidFor currency) (computedBid cfg s))
        as [Hbig|Hfit].
      * destruct (Hhigh Hbig) as [Hsplit Hsame].
        destruct (splitBidAmounts_spec _ _ Hpos Hroom _ Hbig)
          as (chunks & Hsplit' & Hsum & _).
        rewrite Hsplit in Hsplit'. injection Hsplit' as ->.
        split; assumption.
      * destruct (Hmid (conj Hge Hfit)) as [[Hr Hsame]|[Hr _]];
          [|congruence].
        rewrite Hr. split; [cbn; lia | exact Hsame].
Qed.

Lemma calculateBidAmounts_within_bounds_witness :
  let r := result (calculateBidAmounts largeUsdConfig) poorUsdEngine in
  r <> []
  /\ Forall (inBounds (minBidFor "USD") (maxBidFor "USD")) r
  /\ sum r = computedBid largeUsdConfig poorUsdEngine.
Proof.
  intros r.
  assert (Hne : r <> []) by (vm_compute; discriminate).
  split; [exact Hne|].
  pose proof (calculateBidAmounts_within_bounds largeUsdConfig poorUsdEngine)
    as (Hall & Hsum & _).
  split; [exact Hall | exact (proj1 (Hsum Hne))].
Defined.

(** The amount of step [n]: the loop of calculateBidAmounts run [n] times
    from the rounded base. *)
Lemma rawAmountOf_compound (cfg : TradeConfig) (base : Q) (s : Engine) :
  rawAmountOf cfg base s
  = compound (Z.to_nat (stepForBid cfg s))
      (if Qgtb (orDefault (martingale cfg) 0%Q) 0
       then (orDefault (martingale cfg) 0 / 100)%Q else 1%Q)
      (mathRound base) (mathRound base) * 100.
Proof.
  unfold rawAmountOf. rewrite mathRound_scaled. f_equal.
  destruct (Z.gtb_spec (stepForBid cfg s) 0) as [Hpos|Hle]; [reflexivity|].
  replace (Z.to_nat (stepForBid cfg s)) with O by lia. reflexivity.
Qed.

(** One more round of compounding never lowers the amount, as long as the
    amount so far is at most what the next round yields. *)
Lemma compound_step (rate : Q) (n : nat) :
  (0 <= rate)%Q ->
  forall total amount,
    0 <= total ->
    amount <= mathRound (inject_Z total * rate) ->
    compound n rate total amount <= compound (S n) rate total amount.
Proof.
  intros Hrate. induction n as [|n IH]; intros total amount Htotal Hinv.
  - cbn. exact Hinv.
  - change (compound (S (S n)) rate total amount)
      with (compound (S n) rate
              (total + mathRound (inject_Z total * rate))
              (mathRound (inject_Z total * rate))).
    change (compound (S n) rate total amount)
      with (compound n rate
              (total + mathRound (inject_Z total * rate))
              (mathRound (inject_Z total * rate))).
    assert (Hnext : 0 <= mathRound (inject_Z total * rate)).
    { rewrite <- (mathRound_inject_Z 0). apply mathRound_le.
      assert (0 <= inject_Z total)%Q by (rewrite Zle_Qle in Htotal; exact Htotal).
      change (inject_Z 0) with 0%Q. nra. }
    apply IH; [lia|].
    apply mathRound_le.
    assert (Hle : (inject_Z total
                   <= inject_Z (total + mathRound (inject_Z total * rate)))%Q)
      by (rewrite <- Zle_Qle; lia).
    nra.
Qed.

Lemma compound_mono (rate : Q) (total amount : Z) (n m : nat) :
  (0 <= rate)%Q -> 0 <= total ->
  amount <= mathRound (inject_Z total * rate) ->
  (n <= m)%nat ->
  compound n rate total amount <= compound m rate total amount.
Proof.
  intros Hrate Htotal Hinv Hle. induction Hle as [|m _ IH]; [lia|].
  etransitivity; [exact IH|]. apply compound_step; assumption.
Qed.

(** The effective step grows with martingaleStep. *)
Lemma stepForBid_mono (cfg : TradeConfig) (s : Engine) (k k' : Z) :
  k <= k' ->
  stepForBid cfg (set_martingaleStep k s)
  <= stepForBid cfg (set_martingaleStep k' s).
Proof.
  intros Hle. unfold stepForBid, MAX_K_STEP. cbn.
  destruct (switchDemoActive s); destruct (resetMartingale cfg) as [r|];
    try destruct (r =? 0); try destruct (r >? 0); lia.
Qed.

Lemma getBidAmountForCurrency_step (cfg : TradeConfig) (s : Engine) (j : Z) :
  result (getBidAmountForCurrency cfg) (set_martingaleStep j s)
  = result (getBidAmountForCurrency cfg) s.
Proof.
  unfold getBidAmountForCurrency. cbv [result bind this fst snd]. cbn.
  destruct (String.eqb (toUpperCase (userCurrency s)) "USD");
    [|destruct (String.eqb (toUpperCase (userCurrency s)) "EUR")];
    reflexivity.
Qed.

(** X3. With a martingale percent of at least 100 and a base amount that is
    not negative, the computed bid never shrinks when martingaleStep grows. *)
Theorem computedBid_grows_with_step (cfg : TradeConfig) (s : Engine)
  (percent : Q) (k k' : Z) :
  martingale cfg = Some percent ->
  (100 <= percent)%Q ->
  (0 <= orDefault (result (getBidAmountForCurrency cfg) s) 0)%Q ->
  k <= k' ->
  computedBid cfg (set_martingaleStep k s)
  <= computedBid cfg (set_martingaleStep k' s).
Proof.
  intros Hpct Hbig Hbase Hle. unfold computedBid.
  pose proof (getBidAmountForCurrency_step cfg s) as Hsame.
  rewrite !Hsame, !rawAmountOf_compound, Hpct. cbn [orDefault].
  set (base := orDefault (result (getBidAmountForCurrency cfg) s) 0%Q) in *.
  assert (Hgt : Qgtb percent 0 = true) by (apply Qltb_lt; lra).
  rewrite Hgt.
  assert (Hrate : (1 <= percent / 100)%Q).
  { apply Qle_shift_div_l; lra. }
  assert (Hround : 0 <= mathRound base).
  { rewrite <- (mathRound_inject_Z 0). apply mathRound_le.
    change (inject_Z 0) with 0%Q. exact Hbase. }
  apply Z.mul_le_mono_nonneg_r; [lia|].
  apply compound_mono.
  - lra.
  - exact Hround.
  - rewrite <- (mathRound_inject_Z (mathRound base)) at 1.
    apply mathRound_le.
    assert (0 <= inject_Z (mathRound base))%Q
      by (rewrite Zle_Qle in Hround; exact Hround).
    nra.
  - pose proof (stepForBid_mono cfg s k k' Hle). lia.
Qed.

Lemma computedBid_grows_with_step_witness :
  martingale DEFAULT_TRADE_CONFIG = Some (inject_Z 130)
  /\ (100 <= inject_Z 130)%Q
  /\ computedBid DEFAULT_TRADE_CONFIG (set_martingaleStep 1 runningEngine)
     <= computedBid DEFAULT_TRADE_CONFIG (set_martingaleStep 2 runningEngine).
Proof.
  split; [reflexivity|]. split; [vm_compute; discriminate|].
  apply (computedBid_grows_with_step DEFAULT_TRADE_CONFIG runningEngine
           (inject_Z 130) 1 2 eq_refl).
  - vm_compute. discriminate.
  - vm_compute. discriminate.
  - lia.
Defined.

(** The default ladder: 14000, then 130 percent of what has been staked. *)
Example computedBid_default_ladder :
  map (fun k => computedBid DEFAULT_TRADE_CONFIG
                  (set_martingaleStep k runningEngine)) [0; 1; 2; 3]
  = [1400000; 1820000; 4186000; 4186000].
Proof. vm_compute. reflexivity. Qed.

(** X4. The bid stops growing at the cap of the ladder: with resetMartingale
    = N > 0 the computed bid at any step from min(N, 100) on is the bid at
    min(N, 100), with a negative or unset resetMartingale the same holds from
    step 100 on; in switch-demo mode and with resetMartingale = 0 the
    computed bid does not depend on martingaleStep at all. *)
Theorem computedBid_capped (cfg : TradeConfig) (s : Engine) (k : Z) :
  let cap :=
    match resetMartingale cfg with
    | Some N => if N >? 0 then Z.min N 100 else 100
    | None => 100
    end in
  (cap <= k ->
   computedBid cfg (set_martingaleStep k s)
   = computedBid cfg (set_martingaleStep cap s))
  /\ (switchDemoActive s = true \/ resetMartingale cfg = Some 0 ->
      computedBid cfg (set_martingaleStep k s)
      = computedBid cfg (set_martingaleStep 0 s)).
Proof.
  intros cap. unfold computedBid.
  pose proof (getBidAmountForCurrency_step cfg s) as Hsame.
  rewrite !Hsame, !rawAmountOf_compound.
  split.
  - intros Hk. do 3 f_equal. subst cap.
    unfold stepForBid, MAX_K_STEP. cbn.
    destruct (switchDemoActive s); destruct (resetMartingale cfg) as [r|];
      try destruct (Z.eqb_spec r 0); try destruct (Z.gtb_spec r 0); lia.
  - intros Hflat. do 3 f_equal. unfold stepForBid, MAX_K_STEP. cbn.
    destruct Hflat as [Hdemo|Hzero].
    + rewrite Hdemo. reflexivity.
    + rewrite Hzero. cbn. reflexivity.
Qed.

Lemma computedBid_capped_witness :
  Z.min 2 100 <= 7
  /\ computedBid DEFAULT_TRADE_CONFIG (set_martingaleStep 7 runningEngine)
     = computedBid DEFAULT_TRADE_CONFIG (set_martingaleStep 2 runningEngine).
Proof.
  split; [lia|].
  exact (proj1 (computedBid_capped DEFAULT_TRADE_CONFIG runningEngine 7)
           ltac:(cbn; lia)).
Defined.

(** ** The tracking sets stay bounded *)

Lemma preserves_forEach {A : Type} (I : Engine -> Prop) (xs : list A)
  (body : A -> M unit) :
  (forall x, preserves I (body x)) -> preserves I (forEach xs body).
Proof.
  intros Hbody. induction xs as [|x xs IH]; cbn [forEach].
  - intros e He. exact He.
  - apply preserves_bind; [apply Hbody | intros _; exact IH].
Qed.

(** The loop over the amounts of a bid only moves the ref counter. *)
Lemma sendAmounts_exec (cfg : TradeConfig) now index expireAt t total
  amounts :
  forall amountIndex e,
    exec (sendAmounts cfg now index expireAt t total amountIndex amounts) e
    = set_nextRef (nextRef e + size amounts) e.
Proof.
  induction amounts as [|a rest IH]; intros amountIndex e.
  - cbn. rewrite Z.add_0_r. destruct e; reflexivity.
  - cbn [sendAmounts]. rewrite exec_this_bind. rewrite !exec_bind, IH.
    match goal with
    | |- set_nextRef _ ?X = _ =>
        assert (HX : X = set_nextRef (nextRef e + 1) e)
          by (destruct (isOpen (streamSocket e)); [reflexivity|];
              destruct (tradeSocket e); reflexivity)
    end.
    rewrite HX.
    replace (nextRef (set_nextRef (nextRef e + 1) e) + size rest)
      with (nextRef e + size (a :: rest))
      by (unfold size; cbn [List.length nextRef set_nextRef]; lia).
    reflexivity.
Qed.

(** Walks through a computation and shows that it preserves a property of
    the engine state; [tac] closes the steps that touch the state the
    property reads. *)
Ltac preserved tac :=
  repeat match goal with
         | |- preserves _ (bind _ _) => apply preserves_bind; [|intros ?]
         | |- preserves _ (forEach _ _) => apply preserves_forEach; intros ?
         | |- preserves _ (when ?b _) => destruct b; cbn [when]
         | |- preserves _ (sendAmounts _ _ _ _ _ _ _ _) =>
             let e := fresh "e" in
             let He := fresh "He" in
             intros e He; rewrite sendAmounts_exec; exact He
         | |- preserves _ (if ?b then _ else _) => destruct b
         | |- preserves _ (match ?x with _ => _ end) => destruct x
         | |- preserves _ _ =>
             first [ solve [tac]
                   | let e := fresh "e" in
                     let He := fresh "He" in
                     intros e He; exact He ]
         end.

Lemma set_add_size (k : string) (s : StrSet) :
  size (set_add k s) <= size s + 1.
Proof.
  unfold set_add, size. destruct (set_has k s); [lia|].
  rewrite length_app. cbn. lia.
Qed.

Lemma set_delete_size (k : string) (s : StrSet) :
  size (set_delete k s) <= size s.
Proof.
  unfold set_delete, size.
  pose proof (filter_length_le (fun x => negb (String.eqb k x)) s). lia.
Qed.

(** Filtering out the entries [ks] drops a prefix made of such entries. *)
Lemma filter_out_prefix (ks a b : StrSet) :
  (forall x, In x a -> In x ks) ->
  (List.length (filter (fun x => negb (set_has x ks)) (a ++ b))
   <= List.length b)%nat.
Proof.
  intros Hin. induction a as [|x a IH]; cbn [app filter].
  - apply filter_length_le.
  - assert (Hx : set_has x ks = true)
      by (apply set_has_In, Hin; left; reflexivity).
    rewrite Hx. cbn [negb]. apply IH. intros y Hy. apply Hin. right. exact Hy.
Qed.

(** The eviction removes at least the [n] oldest entries. *)
Lemma set_evict_size (n : nat) (s : StrSet) :
  size (set_evict n s) <= size s - Z.of_nat (Nat.min n (List.length s)).
Proof.
  rewrite set_evict_filter. unfold size.
  pose proof (filter_out_prefix (firstn n s) (firstn n s) (skipn n s)
                (fun x H => H)) as Hlen.
  rewrite firstn_skipn, length_skipn in Hlen. lia.
Qed.

Lemma recordBatchKey_size (key : string) (seen : StrSet) :
  size seen <= 100 -> size (recordBatchKey key seen) <= 100.
Proof.
  intros Hseen. unfold recordBatchKey.
  pose proof (set_add_size key seen) as Hadd.
  destruct (Z.gtb_spec (size (set_add key seen)) 100) as [Hbig|Hfit];
    [|exact Hfit].
  pose proof (set_evict_size 50 (set_add key seen)) as Hev.
  unfold size in *. lia.
Qed.

Lemma stop_boundedSets (msg : StopMsg) : preserves boundedSets (stop msg).
Proof. intros e _. unfold boundedSets. cbn. lia. Qed.

(** The pending set after an acknowledgement. *)
Lemma handlePhxReply_pending (u : option string) (s : Engine) :
  pendingUUIDs (exec (handlePhxReply u) s)
  = match u with
    | Some u' =>
        if nonEmpty u' then
          if size (set_add u' (pendingUUIDs s)) >? 20
          then set_evict 10 (set_add u' (pendingUUIDs s))
          else set_add u' (pendingUUIDs s)
        else pendingUUIDs s
    | None => pendingUUIDs s
    end.
Proof.
  unfold handlePhxReply. destruct u as [u'|]; [destruct (nonEmpty u')|];
    cbv [exec bind this assign when skip ret fst snd];
    cbn [pendingUUIDs set_pendingUUIDs set_bidInFlightUntil];
    try reflexivity.
  destruct (size (set_add u' (pendingUUIDs s)) >? 20); reflexivity.
Qed.

Lemma handlePhxReply_boundedSets (u : option string) :
  preserves boundedSets (handlePhxReply u).
Proof.
  intros e (Hp & Ho & Hb). unfold boundedSets.
  rewrite handlePhxReply_pending.
  assert (Ko : keeps openedBids (handlePhxReply u))
    by (unfold_methods; frame).
  assert (Kb : keeps processedBatches (handlePhxReply u))
    by (unfold_methods; frame).
  rewrite Ko, Kb. split; [|split; assumption].
  destruct u as [u'|]; [destruct (nonEmpty u')|]; try exact Hp.
  pose proof (set_add_size u' (pendingUUIDs e)) as Hadd.
  destruct (Z.gtb_spec (size (set_add u' (pendingUUIDs e))) 20) as [Hbig|Hfit];
    [|exact Hfit].
  pose proof (set_evict_size 10 (set_add u' (pendingUUIDs e))) as Hev.
  unfold size in *. lia.
Qed.

(** The tracked bids after an [opened] event: unchanged, or one bid more
    with the oldest dropped past 50. *)
Lemma handleOpened_openedBids (item : OpenedPayload) (s : Engine) :
  openedBids (exec (handleOpened item) s) = openedBids s
  \/ exists bid,
       openedBids (exec (handleOpened item) s)
       = if size (openedBids s ++ [bid]) >? 50
         then tl (openedBids s ++ [bid]) else openedBids s ++ [bid].
Proof.
  unfold handleOpened.
  cbv [exec bind this assign emit when skip ret fst snd].
  destruct (nonEmpty _ && negb _); [left; reflexivity|].
  destruct (nonEmpty (orDefault (opened_uuid item) EmptyString));
    (destruct (nonEmpty _ && nonEmpty _); [|left; reflexivity]);
    cbn [openedBids set_openedBids set_pendingUUIDs set_bidInFlightUntil];
    right;
    match goal with
    | |- context [size (openedBids s ++ [?b]) >? 50] =>
        exists b; destruct (size (openedBids s ++ [b]) >? 50); reflexivity
    end.
Qed.

Lemma handleOpened_pending (item : OpenedPayload) (s : Engine) :
  pendingUUIDs (exec (handleOpened item) s)
  = if foreignOpened item s then pendingUUIDs s
    else if nonEmpty (openedUuid item)
         then set_delete (openedUuid item) (pendingUUIDs s)
         else pendingUUIDs s.
Proof.
  unfold handleOpened, foreignOpened, openedUuid.
  cbv [exec bind this assign emit when skip ret fst snd].
  destruct (nonEmpty _ && negb _); [reflexivity|].
  destruct (nonEmpty (orDefault (opened_uuid item) EmptyString));
    destruct (nonEmpty _ && nonEmpty _);
    cbn [pendingUUIDs openedBids set_openedBids set_pendingUUIDs
         set_bidInFlightUntil];
    try reflexivity;
    match goal with
    | |- context [if ?c then _ else _] => destruct c; reflexivity
    end.
Qed.

Lemma handleOpened_boundedSets (item : OpenedPayload) :
  preserves boundedSets (handleOpened item).
Proof.
  intros e (Hp & Ho & Hb). unfold boundedSets.
  assert (Kb : keeps processedBatches (handleOpened item))
    by (unfold_methods; frame).
  rewrite Kb, handleOpened_pending. split; [|split; [|exact Hb]].
  - pose proof (set_delete_size (openedUuid item) (pendingUUIDs e)).
    destruct (foreignOpened item e); [exact Hp|].
    destruct (nonEmpty (openedUuid item)); [lia | exact Hp].
  - destruct (handleOpened_openedBids item e) as [->|[bid ->]]; [exact Ho|].
    destruct (Z.gtb_spec (size (openedBids e ++ [bid])) 50) as [Hbig|Hfit];
      [|exact Hfit].
    unfold size in *. rewrite length_app in *. cbn [List.length] in *.
    destruct (openedBids e) as [|b l]; cbn [app tl List.length] in *.
    + lia.
    + rewrite length_app. cbn [List.length]. lia.
Qed.

Lemma settleBid_keeps_pendingUUIDs (cfg : TradeConfig) endRate bid :
  keeps pendingUUIDs (settleBid cfg endRate bid).
Proof. unfold_methods. frame. Qed.

Lemma resume_boundedSets (cfg : TradeConfig) api :
  preserves boundedSets (handleCloseDealBatch_resume cfg api).
Proof.
  unfold_methods_to_stop. preserved ltac:(apply stop_boundedSets).
Qed.

Lemma settledState_boundedSets (cfg : TradeConfig) (p : BatchPayload)
  (s : Engine) :
  boundedSets s -> boundedSets (settledState cfg p s).
Proof.
  intros (Hp & Ho & Hb). unfold settledState.
  destruct (negb _ || negb _); [repeat split; assumption|].
  destruct (set_has _ _); [repeat split; assumption|].
  cbv zeta.
  pose proof (recordBatchKey_size (batchKeyOf p) (processedBatches s) Hb)
    as Hrec.
  destruct (size _ =? 0); [repeat split; assumption|].
  unfold boundedSets.
  rewrite (keeps_forEach pendingUUIDs)
    by (intros bid; apply settleBid_keeps_pendingUUIDs).
  rewrite (keeps_forEach openedBids)
    by (intros bid; apply settleBid_keeps_openedBids).
  rewrite (keeps_forEach processedBatches)
    by (intros bid; apply settleBid_keeps_processedBatches).
  cbn [pendingUUIDs openedBids processedBatches set_openedBids
       set_processedBatches].
  split; [exact Hp|]. split; [|exact Hrec].
  pose proof (filter_length_le
                (fun bid => negb (matchesBatch (batchRic p) (batchFinishedAt p)
                                    bid)) (openedBids s)).
  unfold size in *. lia.
Qed.

Lemma handleCloseDealBatch_boundedSets (cfg : TradeConfig) p api :
  preserves boundedSets (handleCloseDealBatch cfg p api).
Proof.
  intros e He. rewrite handleCloseDealBatch_exec.
  pose proof (settledState_boundedSets cfg p e He) as Hs.
  destruct (settles p e); [apply resume_boundedSets|]; exact Hs.
Qed.

Lemma handleSocketEvent_boundedSets (cfg : TradeConfig) (ev : SocketEvent) :
  preserves boundedSets (handleSocketEvent cfg ev).
Proof.
  destruct ev; cbn [handleSocketEvent].
  - apply handlePhxReply_boundedSets.
  - apply handleOpened_boundedSets.
  - apply handleCloseDealBatch_boundedSets.
  - unfold_methods. preserved idtac.
  - intros e He. exact He.
Qed.

Lemma sendBid_boundedSets (cfg : TradeConfig) t index bypass clk :
  preserves boundedSets (sendBid cfg t index bypass clk).
Proof.
  unfold_methods_to_stop. preserved ltac:(apply stop_boundedSets).
Qed.

Lemma perform_boundedSets (cfg : TradeConfig) (a : Action) :
  preserves boundedSets (perform cfg a).
Proof.
  destruct a; cbn [perform].
  - apply handleSocketEvent_boundedSets.
  - apply sendBid_boundedSets.
  - unfold queueFastReentry_resume, computeTrend_Fast.
    preserved ltac:(apply sendBid_boundedSets).
  - unfold applyResumeState. preserved idtac.
Qed.

(** X5. The tracking sets never outgrow their bounds: from a state with at
    most 20 pending acknowledgements, 50 opened bids and 100 batch keys, any
    sequence of socket events, bid requests, fast re-entries and resumes
    leads to a state within the same bounds. *)
Theorem tracking_sets_stay_bounded (cfg : TradeConfig)
  (actions : list Action) (s : Engine) :
  boundedSets s -> boundedSets (exec (runActions cfg actions) s).
Proof.
  apply preserves_forEach. intros a. apply perform_boundedSets.
Qed.

Lemma tracking_sets_stay_bounded_witness :
  let actions :=
    [OnEvent (PhxReplyBo (Some "4c0f1c6e"));
     OnEvent (OpenedEvent (openedFor "4c0f1c6e" "2024-01-01T00:01:00Z"));
     OnBid Call 0 false sampleClock;
     OnEvent (CloseDealBatchEvent
                (batchAt "2024-01-01T00:01:00Z" (inject_Z 99)) None)] in
  boundedSets runningEngine
  /\ boundedSets (exec (runActions DEFAULT_TRADE_CONFIG actions) runningEngine).
Proof.
  intros actions.
  assert (H0 : boundedSets runningEngine)
    by (unfold boundedSets; cbn; lia).
  split; [exact H0|].
  exact (tracking_sets_stay_bounded DEFAULT_TRADE_CONFIG actions
           runningEngine H0).
Defined.

(** ** From the acknowledgement to the tracked bid *)

Lemma set_delete_has (k : string) (s : StrSet) :
  set_has k (set_delete k s) = false.
Proof.
  apply set_has_false. unfold set_delete. intros Hin.
  apply filter_In in Hin as [_ Hneq]. rewrite String.eqb_refl in Hneq.
  discriminate.
Qed.

(** An acknowledged uuid is pending afterwards: the eviction past 20 entries
    only reaches the 10 oldest. *)
Lemma handlePhxReply_makes_pending (u : string) (s : Engine) :
  nonEmpty u = true ->
  size (pendingUUIDs s) <= 20 ->
  set_has u (pendingUUIDs (exec (handlePhxReply (Some u)) s)) = true.
Proof.
  intros Hu Hsize. rewrite handlePhxReply_pending, Hu.
  unfold set_add.
  destruct (set_has u (pendingUUIDs s)) eqn:Hold.
  - destruct (Z.gtb_spec (size (pendingUUIDs s)) 20); [lia | exact Hold].
  - apply set_has_false in Hold.
    assert (Hlast : set_has u (pendingUUIDs s ++ [u]) = true)
      by (apply set_has_In, in_or_app; right; left; reflexivity).
    destruct (Z.gtb_spec (size (pendingUUIDs s ++ [u])) 20) as [Hbig|Hfit];
      [|exact Hlast].
    rewrite set_evict_filter. apply set_has_In, filter_In.
    split; [apply set_has_In, Hlast|].
    apply negb_true_iff, set_has_false. intros Hin.
    rewrite firstn_app in Hin. apply in_app_or in Hin.
    unfold size in Hbig. rewrite length_app in Hbig.
    cbn [List.length] in Hbig.
    destruct Hin as [Hin|Hin].
    + apply Hold. eapply firstn_In; exact Hin.
    + replace (10 - List.length (pendingUUIDs s))%nat with O in Hin by lia.
      exact Hin.
Qed.

Lemma handleOpened_foreign (item : OpenedPayload) (s : Engine) :
  foreignOpened item s = true -> exec (handleOpened item) s = s.
Proof.
  unfold foreignOpened, openedUuid, handleOpened.
  cbv [exec bind this assign emit when skip ret fst snd].
  intros Hforeign. rewrite Hforeign. reflexivity.
Qed.

(** X6. The acknowledgement of a bid makes its uuid pending and clears the
    in-flight guard; the [opened] event with that uuid then passes the
    filter, is tracked when it names an asset and a close time, and takes
    the uuid out of the pending set; a second [opened] event with the same
    uuid is ignored. *)
Theorem acknowledged_bid_is_tracked_once (u : string)
  (item again : OpenedPayload) (s : Engine) :
  nonEmpty u = true ->
  size (pendingUUIDs s) <= 20 ->
  openedUuid item = u ->
  openedUuid again = u ->
  let s1 := exec (handlePhxReply (Some u)) s in
  let s2 := exec (handleOpened item) s1 in
  set_has u (pendingUUIDs s1) = true
  /\ bidInFlightUntil s1 = None
  /\ (nonEmpty (openedRic item) = true ->
      nonEmpty (openedCloseAt item) = true ->
      exists front bid,
        openedBids s2 = front ++ [bid]
        /\ uuid bid = Some u
        /\ assetRic bid = openedRic item
        /\ closeAt bid = openedCloseAt item)
  /\ set_has u (pendingUUIDs s2) = false
  /\ exec (handleOpened again) s2 = s2.
Proof.
  intros Hu Hsize Hitem Hagain s1 s2.
  assert (Hpending : set_has u (pendingUUIDs s1) = true)
    by (apply handlePhxReply_makes_pending; assumption).
  assert (Hpass : foreignOpened item s1 = false)
    by (unfold foreignOpened; rewrite Hitem, Hu, Hpending; reflexivity).
  assert (Hgone : set_has u (pendingUUIDs s2) = false).
  { subst s2. rewrite handleOpened_pending, Hpass, Hitem, Hu.
    apply set_delete_has. }
  split; [exact Hpending|]. split.
  { subst s1. unfold handlePhxReply. rewrite exec_bind. reflexivity. }
  split.
  { intros Hric Hclose.
    destruct (handleOpened_tracks item s1 Hpass Hric Hclose)
      as (front & bid & Hbids & H1 & H2 & H3 & _).
    exists front, bid. rewrite Hitem, Hu in H3. auto. }
  split; [exact Hgone|].
  apply handleOpened_foreign. unfold foreignOpened.
  rewrite Hagain, Hu, Hgone. reflexivity.
Qed.

Lemma acknowledged_bid_is_tracked_once_witness :
  let u := "4c0f1c6e" in
  let item := openedFor u "2024-01-01T00:01:00Z" in
  let s1 := exec (handlePhxReply (Some u)) runningEngine in
  let s2 := exec (handleOpened item) s1 in
  nonEmpty u = true
  /\ size (pendingUUIDs runningEngine) <= 20
  /\ set_has u (pendingUUIDs s1) = true
  /\ set_has u (pendingUUIDs s2) = false
  /\ exec (handleOpened item) s2 = s2.
Proof.
  intros u item s1 s2.
  assert (H1 : nonEmpty u = true) by reflexivity.
  assert (H2 : size (pendingUUIDs runningEngine) <= 20) by (cbn; lia).
  pose proof (acknowledged_bid_is_tracked_once u item item runningEngine
                H1 H2 eq_refl eq_refl) as (Ha & _ & _ & Hb & Hc).
  split; [exact H1|]. split; [exact H2|]. split; [exact Ha|].
  split; [exact Hb | exact Hc].
Defined.

(** ** The ladder stays in range *)

Lemma ladderInRange_kept (cfg : TradeConfig) {A : Type} (m : M A) :
  keeps martingaleStep m -> keeps lossStreak m -> keeps repeatStep m ->
  keeps switchDemoStep m -> preserves (ladderInRange cfg) m.
Proof.
  intros H1 H2 H3 H4 e He. unfold ladderInRange.
  rewrite H1, H2, H3, H4. exact He.
Qed.

Lemma settleLoss_ladderInRange (cfg : TradeConfig) :
  preserves (ladderInRange cfg) (settleLoss cfg).
Proof.
  intros e (Hstep & Hloss & Hrep & Hdemo). unfold ladderInRange.
  assert (Kdemo : keeps switchDemoStep (settleLoss cfg))
    by (unfold_methods; frame).
  rewrite Kdemo, settleLoss_step.
  split; [|split; [|split; [|exact Hdemo]]].
  - unfold ladderAfterLoss, ladderCap, MAX_K_STEP in *.
    destruct (resetMartingale cfg) as [r|]; [|lia].
    destruct (Z.eqb_spec r 0); [lia|].
    destruct (Z.ltb_spec 0 r); destruct (Z.gtb_spec r 0); try lia.
    destruct (Z.leb_spec r (martingaleStep e)); lia.
  - unfold settleLoss, applyCooldown. run_monad; lia.
  - unfold settleLoss, applyCooldown. run_monad; tests; lia.
Qed.

Lemma settleWin_ladderInRange (cfg : TradeConfig) :
  preserves (ladderInRange cfg) (settleWin cfg).
Proof.
  intros e. unfold ladderInRange.
  destruct (switchDemoStep e) as [k|] eqn:Hk;
    intros (Hstep & Hloss & Hrep & Hdemo);
    unfold settleWin, applyCooldown; run_monad; cbn in *; rewrite ?Hk in *;
    try discriminate;
    repeat match goal with
           | H : Some _ = Some _ |- _ => injection H as <-
           end;
    cbn; lia.
Qed.

Lemma applyRiskRules_ladderInRange (cfg : TradeConfig) :
  preserves (ladderInRange cfg) (applyRiskRules cfg).
Proof.
  intros e He. unfold applyRiskRules. rewrite exec_this_bind.
  destruct (skipStopLossOnce e);
    [|destruct (stopLossBreached cfg e);
      [destruct (shouldSwitchToDemo cfg e && allowAutoSwitch e);
       [|destruct (negb (autoSwitchDemo cfg))]|]];
    try solve [revert He; apply ladderInRange_kept; unfold_methods; frame].
  destruct He as (Hstep & Hloss & Hrep & Hdemo).
  unfold ladderInRange. cbn. repeat split; try lia; tauto.
Qed.

Lemma applyResumeState_ladderInRange (cfg : TradeConfig) (state : ResumeState) :
  preserves (ladderInRange cfg) (applyResumeState cfg state).
Proof.
  intros e. unfold ladderInRange, applyResumeState, clampStep, ladderCap,
    MAX_K_STEP.
  destruct (switchDemoStep e) as [k|] eqn:Hk;
    intros (Hstep & Hloss & Hrep & Hdemo);
    destruct (negb (shouldResume state)); try (cbn; rewrite ?Hk; lia);
    destruct (reason state); cbn; rewrite ?Hk;
    destruct (resetMartingale cfg) as [r|];
    try destruct (Z.eqb_spec r 0); try destruct (Z.gtb_spec r 0); lia.
Qed.

Ltac ladder :=
  preserved ltac:(first [ apply settleLoss_ladderInRange
                        | apply settleWin_ladderInRange
                        | apply applyRiskRules_ladderInRange ]).

Lemma settleBid_ladderInRange (cfg : TradeConfig) endRate bid :
  preserves (ladderInRange cfg) (settleBid cfg endRate bid).
Proof.
  cbv beta zeta delta [settleBid settleTail persistBotState]. ladder.
Qed.

Lemma handleCloseDealBatch_ladderInRange (cfg : TradeConfig) p api :
  preserves (ladderInRange cfg) (handleCloseDealBatch cfg p api).
Proof.
  intros e He. rewrite handleCloseDealBatch_exec.
  assert (Hs : ladderInRange cfg (settledState cfg p e)).
  { unfold settledState.
    destruct (negb _ || negb _); [exact He|].
    destruct (set_has _ _); [exact He|].
    cbv zeta. destruct (size _ =? 0); [exact He|].
    apply preserves_forEach;
      [intros bid; apply settleBid_ladderInRange | exact He]. }
  destruct (settles p e); [|exact Hs].
  revert Hs. generalize (settledState cfg p e).
  change (preserves (ladderInRange cfg) (handleCloseDealBatch_resume cfg api)).
  cbv beta zeta delta [handleCloseDealBatch_resume refreshProfitFromApi
    sendStreamPing].
  ladder.
Qed.

Lemma sendBid_ladderInRange (cfg : TradeConfig) t index bypass clk :
  preserves (ladderInRange cfg) (sendBid cfg t index bypass clk).
Proof. unfold_methods. ladder. Qed.

Lemma perform_ladderInRange (cfg : TradeConfig) (a : Action) :
  preserves (ladderInRange cfg) (perform cfg a).
Proof.
  destruct a as [ev| | |]; cbn [perform].
  - destruct ev; cbn [handleSocketEvent];
      try apply handleCloseDealBatch_ladderInRange; unfold_methods; ladder.
  - apply sendBid_ladderInRange.
  - unfold queueFastReentry_resume, computeTrend_Fast.
    preserved ltac:(apply sendBid_ladderInRange).
  - apply preserves_bind; [apply applyResumeState_ladderInRange|].
    intros _ e He. exact He.
Qed.

(** X7. The counters of the ladder never leave their ranges: martingaleStep
    stays between 0 and the cap of the resetMartingale policy (0 for
    resetMartingale = 0, min(N, 100) for a positive N, 100 otherwise),
    lossStreak stays non-negative, repeatStep stays between 0 and
    maxMartingale, and the step saved for the switch-demo exit stays within
    the cap, over any sequence of socket events, bid requests, fast
    re-entries and resumes. *)
Theorem ladder_stays_in_range (cfg : TradeConfig) (actions : list Action)
  (s : Engine) :
  ladderInRange cfg s -> ladderInRange cfg (exec (runActions cfg actions) s).
Proof.
  apply preserves_forEach. intros a. apply perform_ladderInRange.
Qed.

Lemma ladder_stays_in_range_witness :
  let actions :=
    [OnEvent (OpenedEvent (anonymousOpened "2024-01-01T00:01:00Z"));
     OnEvent (CloseDealBatchEvent
                (batchAt "2024-01-01T00:01:00Z" (inject_Z 99)) None);
     OnBid Call 0 false sampleClock] in
  let s' := exec (runActions DEFAULT_TRADE_CONFIG actions) runningEngine in
  ladderInRange DEFAULT_TRADE_CONFIG runningEngine
  /\ martingaleStep s' = 1
  /\ ladderInRange DEFAULT_TRADE_CONFIG s'.
Proof.
  intros actions s'.
  assert (H0 : ladderInRange DEFAULT_TRADE_CONFIG runningEngine)
    by (unfold ladderInRange; cbn; lia).
  split; [exact H0|]. split; [vm_compute; reflexivity|].
  exact (ladder_stays_in_range DEFAULT_TRADE_CONFIG actions runningEngine H0).
Defined.

(** ** Through switch-demo mode and back *)

(** In switch-demo mode a loss is ignored: the ladder state and the wallet
    stay as they are. *)
Lemma settleBid_loss_in_demo (cfg : TradeConfig) (endRate : Q)
  (bid : OpenedBid) (s : Engine) :
  switchDemoActive s = true ->
  losesAt endRate bid ->
  ladderState (exec (settleBid cfg endRate bid) s) = ladderState s
  /\ currentWalletType (exec (settleBid cfg endRate bid) s)
     = currentWalletType s.
Proof.
  intros Hdemo Hloss. unfold losesAt in Hloss.
  unfold settleBid. cbv zeta. rewrite Hloss, exec_this_bind, Hdemo.
  split.
  - match goal with
    | |- ladderState (exec ?m s) = _ =>
        assert (K : keeps ladderState m) by (unfold_methods; frame)
    end.
    apply K.
  - match goal with
    | |- currentWalletType (exec ?m s) = _ =>
        assert (K : keeps currentWalletType m) by (unfold_methods; frame)
    end.
    apply K.
Qed.

Lemma forEach_losses_in_demo (cfg : TradeConfig) (endRate : Q)
  (bids : list OpenedBid) :
  Forall (losesAt endRate) bids ->
  forall s,
    switchDemoActive s = true ->
    ladderState (exec (forEach bids (settleBid cfg endRate)) s) = ladderState s
    /\ currentWalletType (exec (forEach bids (settleBid cfg endRate)) s)
       = currentWalletType s.
Proof.
  induction 1 as [|bid bids Hbid _ IH]; intros s Hdemo.
  - split; reflexivity.
  - rewrite exec_forEach_cons.
    destruct (settleBid_loss_in_demo cfg endRate bid s Hdemo Hbid)
      as [Hladder Hwallet].
    assert (Hdemo' : switchDemoActive (exec (settleBid cfg endRate bid) s)
                     = true).
    { unfold ladderState in Hladder. injection Hladder as _ _ _ _ Hd.
      congruence. }
    destruct (IH _ Hdemo') as [Hl Hw]. split; congruence.
Qed.

(** A win in switch-demo mode leaves the mode. *)
Lemma settleWin_in_demo (cfg : TradeConfig) (s : Engine) :
  switchDemoActive s = true ->
  let s' := exec (settleWin cfg) s in
  (switchDemoActive s', forceDemo s', currentWalletType s', martingaleStep s',
   skipStopLossOnce s')
  = (false, false, orDefault (switchDemoReturnWallet s) Real,
     orDefault (switchDemoStep s) (martingaleStep s), true).
Proof.
  intros Hdemo. unfold settleWin, applyCooldown.
  rewrite exec_this_bind, Hdemo.
  destruct (negb (strategy_eqb (strategy cfg) Momentum)
            && negb (strategy_eqb (strategy cfg) Flash5st)); reflexivity.
Qed.

Lemma settleBid_win_in_demo (cfg : TradeConfig) (endRate : Q)
  (bid : OpenedBid) (s : Engine) :
  switchDemoActive s = true ->
  winsAt endRate bid ->
  let s' := exec (settleBid cfg endRate bid) s in
  switchDemoActive s' = false
  /\ forceDemo s' = false
  /\ currentWalletType s' = orDefault (switchDemoReturnWallet s) Real
  /\ martingaleStep s' = orDefault (switchDemoStep s) (martingaleStep s)
  /\ skipStopLossOnce s' = true.
Proof.
  intros Hdemo Hwin s'. subst s'. unfold winsAt in Hwin.
  unfold settleBid. cbv zeta. rewrite Hwin, exec_this_bind, exec_bind.
  match goal with
  | |- context [exec (when ?b ?m) s] =>
      assert (K : keeps (fun e => (switchDemoActive e, switchDemoReturnWallet e,
                                   switchDemoStep e, martingaleStep e))
                    (when b m)) by frame;
      pose proof (K s) as HK; set (sA := exec (when b m) s) in *
  end.
  injection HK as Hd Hr Hk Hm. rewrite Hdemo in Hd.
  rewrite exec_bind.
  assert (KT : keeps (fun e => (switchDemoActive e, forceDemo e,
                                currentWalletType e, martingaleStep e,
                                skipStopLossOnce e))
                 (settleTail cfg bid)) by (unfold_methods; frame).
  pose proof (KT (exec (settleWin cfg) sA)) as HT. cbv beta in HT.
  rewrite (settleWin_in_demo cfg sA Hd), Hr, Hk, Hm in HT.
  injection HT as H1 H2 H3 H4 H5. repeat split; assumption.
Qed.

Lemma stepForBid_in_demo (cfg : TradeConfig) (s : Engine) :
  switchDemoActive s = true -> stepForBid cfg s = 0.
Proof.
  intros Hdemo. unfold stepForBid, MAX_K_STEP. rewrite Hdemo.
  destruct (resetMartingale cfg) as [r|]; [|reflexivity].
  destruct (Z.eqb_spec r 0); [reflexivity|].
  destruct (Z.gtb_spec r 0); lia.
Qed.

(** Without a switch the risk rules leave wallet, mode and step alone. *)
Lemma stopProfitCheck_keeps_wallet (cfg : TradeConfig) :
  keeps (fun e => (switchDemoActive e, forceDemo e, currentWalletType e,
                   martingaleStep e))
    (stopProfitCheck cfg).
Proof. unfold_methods. frame. Qed.

(** X8. The switch-demo round trip.  On the real wallet, outside switch-demo
    mode and with autoSwitchDemo on, the risk rules answer a breach of the
    stop-loss according to two latches.  With allowAutoSwitch on and
    skipStopLossOnce off, the engine moves to the demo wallet without being
    stopped and bids restart from step 0; losses settled in that mode leave
    the martingale step and the loss streak frozen; the first win brings back
    the real wallet and the step the engine had when it switched, and sets
    skipStopLossOnce.  With allowAutoSwitch off or skipStopLossOnce on, the
    breach does not switch: wallet, mode and step stay as they are. *)
Theorem switch_demo_round_trip (cfg : TradeConfig) (s : Engine) (limit : Z)
  (endRate : Q) (losers : list OpenedBid) (endRate' : Q)
  (winner : OpenedBid) :
  autoSwitchDemo cfg = true ->
  stopLoss cfg = Some limit ->
  0 < limit < martingaleStep s ->
  currentWalletType s = Real ->
  switchDemoActive s = false ->
  Forall (losesAt endRate) losers ->
  winsAt endRate' winner ->
  let s1 := exec (applyRiskRules cfg) s in
  let s2 := exec (forEach losers (settleBid cfg endRate)) s1 in
  let s3 := exec (settleBid cfg endRate' winner) s2 in
  (allowAutoSwitch s = true ->
   skipStopLossOnce s = false ->
   (switchDemoActive s1 = true /\ forceDemo s1 = true
    /\ currentWalletType s1 = Demo /\ stepForBid cfg s1 = 0
    /\ status s1 = status s)
   /\ (switchDemoActive s2 = true /\ currentWalletType s2 = Demo
       /\ martingaleStep s2 = martingaleStep s
       /\ lossStreak s2 = lossStreak s
       /\ stepForBid cfg s2 = 0)
   /\ (switchDemoActive s3 = false /\ forceDemo s3 = false
       /\ currentWalletType s3 = Real
       /\ martingaleStep s3 = martingaleStep s
       /\ skipStopLossOnce s3 = true))
  /\ (allowAutoSwitch s = false \/ skipStopLossOnce s = true ->
      switchDemoActive s1 = false /\ forceDemo s1 = forceDemo s
      /\ currentWalletType s1 = Real
      /\ martingaleStep s1 = martingaleStep s).
Proof.
  intros Hauto Hlimit Hbreach Hwallet Hdemo Hlosers Hwin s1 s2 s3.
  assert (Hbreached : stopLossBreached cfg s = true).
  { unfold stopLossBreached. rewrite Hdemo, Hlimit.
    destruct (Z.gtb_spec limit 0); [|lia].
    destruct (Z.gtb_spec (martingaleStep s) limit); [|lia].
    reflexivity. }
  split.
  - intros Hallow Hskip.
    assert (Hs1 : s1 = exec (assign set_switchDemoReturnWallet (Some Real) ;;
                             assign set_currentWalletType Demo ;;
                             assign set_forceDemo true ;;
                             assign set_switchDemoActive true ;;
                             assign set_switchDemoStep
                               (Some (martingaleStep s)) ;;
                             assign set_allowAutoSwitch false ;;
                             assign set_lastBidWasSwitchDemo true ;;
                             emit (Log LogStopLossSwitching) ;;
                             persistBotState) s).
    { subst s1. unfold applyRiskRules.
      rewrite exec_this_bind, Hskip, Hbreached.
      unfold shouldSwitchToDemo. rewrite Hdemo, Hauto, Hwallet, Hallow.
      reflexivity. }
    assert (H1 : switchDemoActive s1 = true /\ forceDemo s1 = true
                 /\ currentWalletType s1 = Demo
                 /\ switchDemoStep s1 = Some (martingaleStep s)
                 /\ switchDemoReturnWallet s1 = Some Real
                 /\ martingaleStep s1 = martingaleStep s
                 /\ lossStreak s1 = lossStreak s
                 /\ status s1 = status s)
      by (rewrite Hs1; repeat split; reflexivity).
    destruct H1 as (Hd1 & Hf1 & Hw1 & Hk1 & Hr1 & Hm1 & Hl1 & Hst1).
    destruct (forEach_losses_in_demo cfg endRate losers Hlosers s1 Hd1)
      as [Hladder Hw2].
    fold s2 in Hladder, Hw2. unfold ladderState in Hladder.
    injection Hladder as Hm2 Hl2 _ _ Hd2 Hk2 Hr2 _ _ _ _.
    rewrite Hd1 in Hd2. rewrite Hk1 in Hk2. rewrite Hr1 in Hr2.
    destruct (settleBid_win_in_demo cfg endRate' winner s2 Hd2 Hwin)
      as (Hd3 & Hf3 & Hw3 & Hm3 & Hs3).
    fold s3 in Hd3, Hf3, Hw3, Hm3, Hs3.
    rewrite Hr2 in Hw3. rewrite Hk2 in Hm3. cbn [orDefault] in Hw3, Hm3.
    split; [|split].
    + repeat split; try assumption. apply stepForBid_in_demo, Hd1.
    + repeat split; try congruence. apply stepForBid_in_demo, Hd2.
    + repeat split; assumption.
  - intros Hlatch.
    assert (Hkept : (switchDemoActive s1, forceDemo s1, currentWalletType s1,
                     martingaleStep s1)
                    = (switchDemoActive s, forceDemo s, currentWalletType s,
                       martingaleStep s)).
    { subst s1. unfold applyRiskRules. rewrite exec_this_bind.
      destruct (skipStopLossOnce s) eqn:Hskip.
      - rewrite exec_bind.
        exact (stopProfitCheck_keeps_wallet cfg
                 (exec (assign set_skipStopLossOnce false) s)).
      - destruct Hlatch as [Hallow|Hon]; [|discriminate].
        rewrite Hbreached, Hallow, andb_false_r, Hauto. cbn [negb].
        apply (stopProfitCheck_keeps_wallet cfg s). }
    injection Hkept as H1 H2 H3 H4. repeat split; congruence.
Qed.

(** The default configuration (stopLoss = 2, auto switch on) on the real
    wallet at step 3: the switch, one loss in demo mode, then a win. *)
Lemma switch_demo_round_trip_witness :
  let s := set_martingaleStep 3 realWalletEngine in
  let bid := callBid "2024-01-01T00:01:00Z" in
  let s1 := exec (applyRiskRules DEFAULT_TRADE_CONFIG) s in
  let s2 := exec (forEach [bid] (settleBid DEFAULT_TRADE_CONFIG (inject_Z 99)))
              s1 in
  let s3 := exec (settleBid DEFAULT_TRADE_CONFIG (inject_Z 101) bid) s2 in
  0 < 2 < martingaleStep s
  /\ Forall (losesAt (inject_Z 99)) [bid]
  /\ winsAt (inject_Z 101) bid
  /\ allowAutoSwitch s = true
  /\ skipStopLossOnce s = false
  /\ currentWalletType s1 = Demo
  /\ martingaleStep s2 = 3
  /\ currentWalletType s3 = Real
  /\ martingaleStep s3 = 3.
Proof.
  intros s bid s1 s2 s3.
  assert (Hb : 0 < 2 < martingaleStep s) by (cbn; lia).
  assert (Hl : Forall (losesAt (inject_Z 99)) [bid])
    by (repeat constructor).
  assert (Hw : winsAt (inject_Z 101) bid) by reflexivity.
  assert (Ha : allowAutoSwitch s = true) by reflexivity.
  assert (Hk : skipStopLossOnce s = false) by reflexivity.
  pose proof (proj1 (switch_demo_round_trip DEFAULT_TRADE_CONFIG s 2
                       (inject_Z 99) [bid] (inject_Z 101) bid eq_refl eq_refl
                       Hb eq_refl eq_refl Hl Hw) Ha Hk)
    as ((_ & _ & H1 & _) & (_ & _ & H2 & _) & (_ & _ & H3 & H4 & _)).
  split; [exact Hb|]. split; [exact Hl|]. split; [exact Hw|].
  split; [exact Ha|]. split; [exact Hk|].
  split; [exact H1|]. split; [exact H2|]. split; [exact H3 | exact H4].
Defined.

(** ** The stop-loss rule under the auto switch *)

Lemma sendAmounts_noStopLossStop (cfg : TradeConfig) now index ex t total
  amounts :
  forall amountIndex,
    emits noStopLossStop
      (sendAmounts cfg now index ex t total amountIndex amounts).
Proof.
  induction amounts as [|a rest IH]; intros amountIndex; cbn [sendAmounts].
  - intros e. constructor.
  - trace.
Qed.

#[local] Hint Resolve sendAmounts_noStopLossStop : trace.

Lemma sendBid_noStopLossStop (cfg : TradeConfig) t index bypass clk :
  emits noStopLossStop (sendBid cfg t index bypass clk).
Proof. unfold_methods. trace. Qed.

#[local] Hint Resolve sendBid_noStopLossStop : trace.

Lemma perform_noStopLossStop (cfg : TradeConfig) (a : Action) :
  autoSwitchDemo cfg = true -> emits noStopLossStop (perform cfg a).
Proof.
  intros Hauto. destruct a as [ev| | |]; cbn [perform].
  - destruct ev; cbn [handleSocketEvent];
      unfold handleCloseDealBatch, handleCloseDealBatch_settle;
      unfold_methods; rewrite ?Hauto; cbn [negb]; trace.
  - apply sendBid_noStopLossStop.
  - unfold queueFastReentry_resume, computeTrend_Fast. trace.
  - unfold applyResumeState. trace.
Qed.

(** X9. With autoSwitchDemo on, the stop-loss rule never stops the engine:
    no run of socket events, bid requests, fast re-entries and resumes
    emits the status event of a stop-loss stop, whatever the wallet and
    however far the step is past the stop-loss. *)
Theorem auto_switch_never_stops_on_stop_loss (cfg : TradeConfig)
  (actions : list Action) (s : Engine) :
  autoSwitchDemo cfg = true ->
  Forall noStopLossStop (outputs (runActions cfg actions) s).
Proof.
  intros Hauto. revert s.
  change (emits noStopLossStop (runActions cfg actions)).
  apply emits_forEach. intros a. apply perform_noStopLossStop, Hauto.
Qed.

(** The default configuration on the demo wallet, two steps past the
    stop-loss: a further loss is settled and the engine keeps running. *)
Lemma auto_switch_never_stops_on_stop_loss_witness :
  let s := set_martingaleStep 4
             (set_openedBids [callBid "2024-01-01T00:01:00Z"] runningEngine) in
  let actions :=
    [OnEvent (CloseDealBatchEvent
                (batchAt "2024-01-01T00:01:00Z" (inject_Z 99))
                (Some (0%Q, 0%Q)))] in
  autoSwitchDemo DEFAULT_TRADE_CONFIG = true
  /\ stopLossBreached DEFAULT_TRADE_CONFIG s = true
  /\ status (exec (runActions DEFAULT_TRADE_CONFIG actions) s) = Running
  /\ Forall noStopLossStop (outputs (runActions DEFAULT_TRADE_CONFIG actions) s).
Proof.
  intros s actions.
  split; [reflexivity|]. split; [reflexivity|].
  split; [vm_compute; reflexivity|].
  exact (auto_switch_never_stops_on_stop_loss DEFAULT_TRADE_CONFIG actions s
           eq_refl).
Defined.

(** ** A halted engine *)

Lemma maintains_bind {A B : Type} (I : Engine -> Prop) (Q : Output -> Prop)
  (m : M A) (k : A -> M B) :
  maintains I Q m -> (forall a, maintains I Q (k a)) ->
  maintains I Q (bind m k).
Proof.
  intros Hm Hk e He. rewrite exec_bind, outputs_bind.
  destruct (Hm e He) as [He1 Ho1].
  destruct (Hk (result m e) (exec m e) He1) as [He2 Ho2].
  split; [exact He2 | apply Forall_app; split; assumption].
Qed.

Lemma maintains_forEach {A : Type} (I : Engine -> Prop) (Q : Output -> Prop)
  (xs : list A) (body : A -> M unit) :
  (forall x, maintains I Q (body x)) -> maintains I Q (forEach xs body).
Proof.
  intros Hbody. induction xs as [|x xs IH]; cbn [forEach].
  - intros e He. split; [exact He | constructor].
  - apply maintains_bind; [apply Hbody | intros _; exact IH].
Qed.

(** Walks through a computation and shows that it maintains a property of
    the state and of the outputs; [tac] closes the steps that depend on the
    property. *)
Ltac maintained tac :=
  repeat match goal with
         | |- maintains _ _ (bind _ _) => apply maintains_bind; [|intros ?]
         | |- maintains _ _ (forEach _ _) =>
             apply maintains_forEach; intros ?
         | |- maintains _ _ (when ?b _) => destruct b; cbn [when]
         | |- maintains _ _ (if ?b then _ else _) => destruct b
         | |- maintains _ _ (match ?x with _ => _ end) => destruct x
         | |- maintains _ _ _ =>
             first [ solve [tac]
                   | let e := fresh "e" in
                     let He := fresh "He" in
                     solve [intros e He; split;
                            [exact He | repeat constructor]] ]
         end.

Lemma sentFrames_none (outs : list Output) :
  Forall notSent outs -> sentFrames outs = [].
Proof.
  induction 1 as [|o outs Ho _ IH]; [reflexivity|].
  unfold sentFrames in *. cbn [flat_map]. rewrite IH.
  destruct o; try reflexivity. destruct Ho.
Qed.

Lemma stop_halts (msg : StopMsg) : maintains halted notSent (stop msg).
Proof.
  intros e _. split.
  - split; [discriminate | reflexivity].
  - repeat constructor.
Qed.

(** The guard of sendBid: nothing happens unless the engine is running. *)
Lemma sendBid_halted (cfg : TradeConfig) t index bypass clk :
  maintains halted notSent (sendBid cfg t index bypass clk).
Proof.
  intros e He. pose proof He as [Hst _]. unfold sendBid.
  cbv [exec outputs bind this emit fst snd].
  destruct (status e); try contradiction; cbn;
    (split; [exact He | repeat constructor]).
Qed.

(** The guard of sendStreamPing: no ping without an open stream socket. *)
Lemma sendStreamPing_halted (cfg : TradeConfig) :
  maintains halted notSent (sendStreamPing cfg).
Proof.
  intros e He. pose proof He as [_ Hsock]. unfold sendStreamPing.
  cbv [exec outputs bind this fst snd]. rewrite Hsock. cbn.
  split; [exact He | constructor].
Qed.

Ltac halts cfg :=
  maintained ltac:(first [ apply stop_halts
                         | apply sendBid_halted
                         | apply sendStreamPing_halted ]).

Lemma perform_halted (cfg : TradeConfig) (a : Action) :
  maintains halted notSent (perform cfg a).
Proof.
  destruct a as [ev| | |]; cbn [perform].
  - destruct ev; cbn [handleSocketEvent];
      cbv beta zeta delta [handlePhxReply handleOpened handleBalanceChanged
        handleCloseDealBatch handleCloseDealBatch_settle
        handleCloseDealBatch_resume refreshProfitFromApi applyRiskRules
        stopProfitCheck persistBotState applyCooldown settleBid settleTail
        settleWin settleLoss];
      halts cfg.
  - apply sendBid_halted.
  - unfold queueFastReentry_resume, computeTrend_Fast. halts cfg.
  - unfold applyResumeState. halts cfg.
Qed.

(** X10. A halted engine stays silent: when the engine is not running and
    its stream socket is not open, no sequence of socket events, bid
    requests, fast re-entries and resumes makes it send a frame on either
    channel, and the engine is still halted afterwards.  [stop] leaves the
    engine in such a state. *)
Theorem halted_engine_sends_nothing (cfg : TradeConfig)
  (actions : list Action) (s : Engine) :
  status s <> Running ->
  isOpen (streamSocket s) = false ->
  sentFrames (outputs (runActions cfg actions) s) = []
  /\ halted (exec (runActions cfg actions) s)
  /\ forall msg e, halted (exec (stop msg) e).
Proof.
  intros Hst Hsock.
  destruct (maintains_forEach halted notSent actions (perform cfg)
              (perform_halted cfg) s (conj Hst Hsock)) as [Hhalted Hquiet].
  split; [apply sentFrames_none, Hquiet|]. split; [exact Hhalted|].
  intros msg e. split; [discriminate | reflexivity].
Qed.

(** The running engine with an opened bid is stopped; the settlement of the
    bid and a bid request that arrive afterwards send nothing. *)
Lemma halted_engine_sends_nothing_witness :
  let s := exec (stop StopProfitReached)
             (set_openedBids [callBid "2024-01-01T00:01:00Z"] runningEngine) in
  let actions :=
    [OnEvent (CloseDealBatchEvent
                (batchAt "2024-01-01T00:01:00Z" (inject_Z 99))
                (Some (0%Q, 0%Q)));
     OnBid Call 0 true sampleClock] in
  status s <> Running
  /\ isOpen (streamSocket s) = false
  /\ sentFrames (outputs (runActions DEFAULT_TRADE_CONFIG actions) s) = [].
Proof.
  intros s actions.
  assert (H1 : status s <> Running) by discriminate.
  assert (H2 : isOpen (streamSocket s) = false) by reflexivity.
  split; [exact H1|]. split; [exact H2|].
  exact (proj1 (halted_engine_sends_nothing DEFAULT_TRADE_CONFIG actions s
                  H1 H2)).
Defined.

(** ** What a bid puts on the wire *)

Lemma outputs_this_bind {B : Type} (k : Engine -> M B) (e : Engine) :
  outputs (bind this k) e = outputs (k e) e.
Proof. rewrite outputs_bind. reflexivity. Qed.

Lemma sentFrames_app (a b : list Output) :
  sentFrames (a ++ b) = sentFrames a ++ sentFrames b.
Proof. apply flat_map_app. Qed.

Lemma sentFrames_bind {A B : Type} (m : M A) (k : A -> M B) (e : Engine) :
  sentFrames (outputs (bind m k) e)
  = sentFrames (outputs m e)
    ++ sentFrames (outputs (k (result m e)) (exec m e)).
Proof. rewrite outputs_bind. apply sentFrames_app. Qed.

(** The frames of the loop over the amounts. *)
Lemma sendAmounts_frames (cfg : TradeConfig) now index ex t total amounts :
  forall amountIndex e,
    sentFrames
      (outputs (sendAmounts cfg now index ex t total amountIndex amounts) e)
    = match bidChannel e with
      | Some ch =>
          bidFrames cfg now index ex t
            (if forceDemo e then Demo else currentWalletType e)
            (lookupRef "bo" (joinRefs e)) ch (nextRef e) amountIndex amounts
      | None => []
      end.
Proof.
  induction amounts as [|a rest IH]; intros amountIndex e.
  - cbn. destruct (bidChannel e); reflexivity.
  - cbn [sendAmounts bidFrames]. rewrite outputs_this_bind.
    rewrite !sentFrames_bind, IH. unfold bidChannel.
    destruct (isOpen (streamSocket e)) eqn:Hstream;
      [|destruct (tradeSocket e) eqn:Htrade];
      cbn; rewrite ?Hstream, ?Htrade; reflexivity.
Qed.

Lemma bidFrames_amounts (cfg : TradeConfig) now index ex t wallet boRef ch
  amounts :
  forall ref amountIndex,
    bidAmountsOf
      (bidFrames cfg now index ex t wallet boRef ch ref amountIndex amounts)
    = amounts.
Proof.
  induction amounts as [|a rest IH]; intros ref amountIndex;
    [reflexivity|].
  cbn [bidFrames]. unfold bidAmountsOf in *. cbn [flat_map snd app].
  rewrite IH. reflexivity.
Qed.

Lemma bidFrames_refs (cfg : TradeConfig) now index ex t wallet boRef ch
  amounts :
  forall ref amountIndex,
    map (fun cf => frameRef (snd cf))
      (bidFrames cfg now index ex t wallet boRef ch ref amountIndex amounts)
    = refsFrom ref (List.length amounts).
Proof.
  induction amounts as [|a rest IH]; intros ref amountIndex;
    [reflexivity|].
  cbn [bidFrames map snd frameRef List.length refsFrom]. rewrite IH.
  reflexivity.
Qed.

Lemma bidFrames_channel (cfg : TradeConfig) now index ex t wallet boRef ch
  amounts :
  forall ref amountIndex,
    Forall (fun cf => fst cf = ch)
      (bidFrames cfg now index ex t wallet boRef ch ref amountIndex amounts).
Proof.
  induction amounts as [|a rest IH]; intros ref amountIndex; cbn [bidFrames];
    constructor; [reflexivity | apply IH].
Qed.

(** The amounts depend on the inputs of a bid only. *)
Lemma calculateBidAmounts_inputs (cfg : TradeConfig) (s1 s2 : Engine) :
  placeInputs s1 = placeInputs s2 ->
  result (calculateBidAmounts cfg) s1 = result (calculateBidAmounts cfg) s2.
Proof.
  unfold placeInputs. intros H.
  injection H as H1 H2 H3 H4 H5 H6 H7 _ _ _ _.
  unfold_methods. unfold rawAmountOf, stepForBid.
  cbv [result bind this assign emit ret fst snd].
  rewrite ?H1, ?H2, ?H3, ?H4, ?H5, ?H6, ?H7.
  repeat (match goal with
          | |- context [if ?c then _ else _] => destruct c
          end;
          cbv beta iota zeta delta [fst snd];
          cbn [userCurrency martingaleStep switchDemoActive forceDemo
               currentWalletType balanceDemo balanceReal set_status];
          rewrite ?H1, ?H2, ?H3, ?H4, ?H5, ?H6, ?H7); reflexivity.
Qed.

Lemma calculateBidAmounts_notSent (cfg : TradeConfig) :
  emits notSent (calculateBidAmounts cfg).
Proof. unfold_methods. trace. Qed.

(** When amounts come back the engine is as it was. *)
Lemma calculateBidAmounts_returns (cfg : TradeConfig) (s : Engine) :
  result (calculateBidAmounts cfg) s <> [] ->
  exec (calculateBidAmounts cfg) s = s.
Proof.
  intros Hne.
  destruct (calculateBidAmounts_cases cfg s) as (Hlow & Hhigh & Hmid).
  cbv zeta in Hlow, Hhigh, Hmid.
  set (currency := toUpperCase (userCurrency s)) in *.
  destruct (Z.lt_ge_cases (computedBid cfg s) (minBidFor currency))
    as [Hlt|Hge]; [destruct (Hlow Hlt); contradiction|].
  destruct (Z.lt_ge_cases (maxBidFor currency) (computedBid cfg s))
    as [Hbig|Hfit]; [apply Hhigh, Hbig|].
  destruct (Hmid (conj Hge Hfit)) as [[_ Hsame]|[Hr _]];
    [exact Hsame | contradiction].
Qed.

Lemma chooseTrend_outputs (cfg : TradeConfig) (t : Trend) (e : Engine) :
  outputs (chooseTrend cfg t) e = [].
Proof.
  unfold chooseTrend. cbv [outputs bind this assign ret fst snd].
  repeat match goal with
         | |- context [if ?c then _ else _] => destruct c
         | |- context [match ?c with Some _ => _ | None => _ end] =>
             destruct c
         end; reflexivity.
Qed.

Lemma chooseTrend_inputs (cfg : TradeConfig) (t : Trend) :
  keeps placeInputs (chooseTrend cfg t).
Proof. unfold chooseTrend. frame. Qed.

Lemma bidPlaced_inputs (cfg : TradeConfig) index clk (s0 s : Engine) frames
  s' :
  placeInputs s0 = placeInputs s ->
  bidPlaced cfg index clk s0 frames s' -> bidPlaced cfg index clk s frames s'.
Proof.
  intros Hin. pose proof (calculateBidAmounts_inputs cfg s0 s Hin) as Hcalc.
  unfold placeInputs in Hin. injection Hin; intros.
  unfold bidPlaced, bidChannel in *. rewrite Hcalc in *.
  repeat match goal with
         | Heq : _ s0 = _ s |- _ => try rewrite Heq in *; clear Heq
         end.
  assumption.
Qed.

Lemma exec_assign_bind {V B : Type} (f : V -> Engine -> Engine) (v : V)
  (k : unit -> M B) (e : Engine) :
  exec (bind (assign f v) k) e = exec (k tt) (f v e).
Proof. rewrite exec_bind. reflexivity. Qed.

Lemma outputs_assign_bind {V B : Type} (f : V -> Engine -> Engine) (v : V)
  (k : unit -> M B) (e : Engine) :
  outputs (bind (assign f v) k) e = outputs (k tt) (f v e).
Proof. rewrite outputs_bind. reflexivity. Qed.

Lemma exec_emit_bind {B : Type} (o : Output) (k : unit -> M B) (e : Engine) :
  exec (bind (emit o) k) e = exec (k tt) e.
Proof. rewrite exec_bind. reflexivity. Qed.

Lemma outputs_emit_bind {B : Type} (o : Output) (k : unit -> M B)
  (e : Engine) :
  outputs (bind (emit o) k) e = o :: outputs (k tt) e.
Proof. rewrite outputs_bind. reflexivity. Qed.

Lemma sendBid_place_sent (cfg : TradeConfig) t index clk (e : Engine) :
  sentFrames (outputs (sendBid_place cfg t index clk) e) <> [] ->
  bidPlaced cfg index clk e
    (sentFrames (outputs (sendBid_place cfg t index clk) e))
    (exec (sendBid_place cfg t index clk) e).
Proof.
  unfold sendBid_place.
  rewrite sentFrames_bind, exec_bind, chooseTrend_outputs.
  cbn [sentFrames flat_map app].
  set (tr := result (chooseTrend cfg t) e).
  set (s0 := exec (chooseTrend cfg t) e).
  intros Hsent.
  apply (bidPlaced_inputs cfg index clk s0 e);
    [apply chooseTrend_inputs|].
  revert Hsent. rewrite sentFrames_bind, exec_bind.
  rewrite (sentFrames_none _ (calculateBidAmounts_notSent cfg s0)).
  cbn [app].
  set (amounts := result (calculateBidAmounts cfg) s0).
  destruct (size amounts =? 0) eqn:Hnone;
    [intros Hsent; exfalso; apply Hsent; reflexivity|].
  assert (Hne : amounts <> [])
    by (intros Heq; rewrite Heq in Hnone; discriminate).
  rewrite (calculateBidAmounts_returns cfg s0 Hne).
  rewrite outputs_assign_bind, exec_assign_bind.
  set (s1 := set_lastBidAmount (hd_error amounts)
               (set_lastBidAt (nowMs clk) s0)).
  assert (Hrun :
    forall k : M unit,
      sentFrames
        (outputs (when (size amounts >? 1)
                    (emit (Log (LogBidSplit (sum amounts) (size amounts)))) ;;
                  assign set_lastBidAmount (hd_error amounts) ;; k)
           (set_lastBidAt (nowMs clk) s0))
      = sentFrames (outputs k s1)
      /\ exec (when (size amounts >? 1)
                 (emit (Log (LogBidSplit (sum amounts) (size amounts)))) ;;
               assign set_lastBidAmount (hd_error amounts) ;; k)
           (set_lastBidAt (nowMs clk) s0)
         = exec k s1).
  { intros k. destruct (size amounts >? 1); cbn [when].
    - rewrite outputs_emit_bind, exec_emit_bind, outputs_assign_bind,
        exec_assign_bind. split; reflexivity.
    - unfold skip. rewrite outputs_bind, exec_bind, outputs_assign_bind,
        exec_assign_bind. split; reflexivity. }
  destruct (Hrun (sendAmounts cfg (nowMs clk) index
                    (expireAtOf cfg (zone clk) (nowMs clk)) tr
                    (size amounts) 0 amounts ;;
                  assign set_bidInFlightUntil
                    (Some (nowEnd clk
                           + (if strategy_eqb (strategy cfg) Flash5st
                              then 5000 else 10000))) ;;
                  s <- this ;;
                  assign set_lastBidStep (martingaleStep s) ;;
                  assign set_lastBidWasSwitchDemo (forceDemo s) ;;
                  persistBotState)) as [Hout Hexec].
  cbv beta. rewrite Hout, Hexec. clear Hrun Hout Hexec.
  rewrite sentFrames_bind, exec_bind, sendAmounts_exec, sendAmounts_frames.
  match goal with
  | |- context [sentFrames (outputs ?post ?x)] =>
      change (sentFrames (outputs post x)) with (@nil (Channel * Frame))
  end.
  rewrite app_nil_r.
  change (bidChannel s1) with (bidChannel s0).
  intros Hsent. unfold bidPlaced. fold amounts.
  destruct (bidChannel s0) as [ch|] eqn:Hch;
    [|exfalso; apply Hsent; reflexivity].
  split; [exact Hne|]. split; [exists tr, ch; split; reflexivity|].
  repeat split; reflexivity.
Qed.

Lemma sentFrames_cons (o : Output) (outs : list Output) :
  notSent o -> sentFrames (o :: outs) = sentFrames outs.
Proof. destruct o; intros H; try reflexivity. destruct H. Qed.

Lemma sendBid_cooldown_sent (cfg : TradeConfig) t index clk (e : Engine) :
  sentFrames (outputs (sendBid_cooldown cfg t index clk) e) <> [] ->
  bidPlaced cfg index clk e
    (sentFrames (outputs (sendBid_cooldown cfg t index clk) e))
    (exec (sendBid_cooldown cfg t index clk) e).
Proof.
  unfold sendBid_cooldown. rewrite outputs_this_bind, exec_this_bind.
  destruct (cooldownActive e); [|apply sendBid_place_sent].
  rewrite outputs_assign_bind, exec_assign_bind, outputs_emit_bind,
    exec_emit_bind.
  rewrite sentFrames_cons by exact I.
  destruct (cooldownCount e + 1 <=? cooldownMax e);
    [intros H; exfalso; apply H; reflexivity|].
  rewrite !outputs_assign_bind, !exec_assign_bind.
  intros Hsent.
  match goal with
  | |- bidPlaced _ _ _ _ (sentFrames (outputs _ ?e0)) _ =>
      apply (bidPlaced_inputs cfg index clk e0 e); [reflexivity|]
  end.
  apply sendBid_place_sent, Hsent.
Qed.

(** A call of sendBid that sends frames found the engine running and past
    every guard, and leaves the bid placed. *)
Lemma sendBid_sent (cfg : TradeConfig) t index bypass clk (s : Engine) :
  sentFrames (outputs (sendBid cfg t index bypass clk) s) <> [] ->
  status s = Running
  /\ bidPlaced cfg index clk s
       (sentFrames (outputs (sendBid cfg t index bypass clk) s))
       (exec (sendBid cfg t index bypass clk) s).
Proof.
  unfold sendBid. rewrite outputs_this_bind, exec_this_bind.
  destruct (status_eqb (status s) Running) eqn:Hrun; cbn [negb];
    [|intros H; exfalso; apply H; reflexivity].
  rewrite !outputs_emit_bind, !exec_emit_bind.
  rewrite !sentFrames_cons by exact I.
  destruct (intervalGuard cfg bypass clk s) as [[elapsed m]|];
    [intros H; exfalso; apply H; reflexivity|].
  destruct (bidInFlight clk s);
    [intros H; exfalso; apply H; reflexivity|].
  destruct ((size (openedBids s) >? 0) || (size (pendingUUIDs s) >? 0));
    [intros H; exfalso; apply H; reflexivity|].
  destruct (negb (tradeReady s) || negb (streamReady s));
    [intros H; exfalso; apply H; reflexivity|].
  destruct (negb (isOpen (tradeSocket s)));
    [intros H; exfalso; apply H; reflexivity|].
  intros Hsent. split.
  - destruct (status s); try discriminate; reflexivity.
  - apply sendBid_cooldown_sent, Hsent.
Qed.

(** The amounts that come back add up to the computed bid. *)
Lemma calculateBidAmounts_total (cfg : TradeConfig) (s : Engine) :
  result (calculateBidAmounts cfg) s <> [] ->
  sum (result (calculateBidAmounts cfg) s) = computedBid cfg s.
Proof.
  intros Hne.
  destruct (currency_bounds (toUpperCase (userCurrency s))) as [Hpos Hroom].
  destruct (calculateBidAmounts_cases cfg s) as (Hlow & Hhigh & Hmid).
  cbv zeta in Hlow, Hhigh, Hmid.
  set (currency := toUpperCase (userCurrency s)) in *.
  destruct (Z.lt_ge_cases (computedBid cfg s) (minBidFor currency))
    as [Hlt|Hge]; [destruct (Hlow Hlt); contradiction|].
  destruct (Z.lt_ge_cases (maxBidFor currency) (computedBid cfg s))
    as [Hbig|Hfit].
  - destruct (Hhigh Hbig) as [Hsplit _].
    destruct (splitBidAmounts_spec _ _ Hpos Hroom _ Hbig)
      as (chunks & Hsplit' & Hsum & _).
    rewrite Hsplit in Hsplit'. injection Hsplit' as ->. exact Hsum.
  - destruct (Hmid (conj Hge Hfit)) as [[Hr _]|[Hr _]]; [|contradiction].
    rewrite Hr. cbn. lia.
Qed.

(** X11. What a bid puts on the wire.  When sendBid sends frames, they are
    the bid-create frames of the amounts calculateBidAmounts returns for the
    state, one frame per amount and in order; the amounts add up to the
    computed bid; the frames carry consecutive refs from nextRef on and
    nextRef moves past them; all go out on one channel, the stream socket
    when it is open and the trade socket otherwise; lastBidStep records the
    martingale step and lastBidAmount the first amount. *)
Theorem sendBid_frames (cfg : TradeConfig) (t : Trend) (index : Z)
  (bypass : bool) (clk : Clock) (s : Engine) :
  let frames := sentFrames (outputs (sendBid cfg t index bypass clk) s) in
  let s' := exec (sendBid cfg t index bypass clk) s in
  let amounts := result (calculateBidAmounts cfg) s in
  frames <> [] ->
  bidAmountsOf frames = amounts
  /\ sum amounts = computedBid cfg s
  /\ map (fun cf => frameRef (snd cf)) frames
     = refsFrom (nextRef s) (List.length amounts)
  /\ nextRef s' = nextRef s + size amounts
  /\ (exists ch, bidChannel s = Some ch
                 /\ Forall (fun cf => fst cf = ch) frames)
  /\ lastBidStep s' = martingaleStep s
  /\ lastBidAmount s' = hd_error amounts.
Proof.
  intros frames s' amounts Hsent.
  destruct (sendBid_sent cfg t index bypass clk s Hsent) as [_ Hplaced].
  fold frames s' in Hplaced. unfold bidPlaced in Hplaced. fold amounts in Hplaced.
  destruct Hplaced
    as (Hne & (tr & ch & Hch & Hframes) & Href & _ & Hstep & Hamount & _ & _).
  rewrite Hframes.
  split; [apply bidFrames_amounts|].
  split; [apply calculateBidAmounts_total, Hne|].
  split; [apply bidFrames_refs|].
  split; [exact Href|].
  split; [exists ch; split; [exact Hch | apply bidFrames_channel]|].
  split; [exact Hstep | exact Hamount].
Qed.

(** A USD bid of 6000.00 goes out in chunks, each in its own frame. *)
Lemma sendBid_frames_witness :
  let s := poorUsdEngine in
  let frames :=
    sentFrames (outputs (sendBid largeUsdConfig Call 0 false sampleClock) s) in
  frames <> []
  /\ (List.length frames > 1)%nat
  /\ bidAmountsOf frames = result (calculateBidAmounts largeUsdConfig) s
  /\ sum (bidAmountsOf frames) = 600000.
Proof.
  intros s frames.
  assert (Hne : frames <> []) by (vm_compute; discriminate).
  pose proof (sendBid_frames largeUsdConfig Call 0 false sampleClock s Hne)
    as (Hamounts & Hsum & _).
  fold frames in Hamounts.
  split; [exact Hne|].
  split; [vm_compute; repeat constructor|].
  split; [exact Hamounts|].
  rewrite Hamounts, Hsum. vm_compute. reflexivity.
Defined.

(** ** The in-flight window *)

(** X12. After a bid has been sent, a further call of sendBid whose clock
    reads less than the end of the in-flight window (the bid's time plus
    10 seconds, 5 under the Flash strategy) sends nothing and leaves the
    engine as it is. *)
Theorem sendBid_holds_while_in_flight (cfg : TradeConfig) (t t' : Trend)
  (index index' : Z) (bypass bypass' : bool) (clk clk' : Clock)
  (s : Engine) :
  sentFrames (outputs (sendBid cfg t index bypass clk) s) <> [] ->
  0 <= nowEnd clk ->
  nowGuard clk' < nowEnd clk + bidCooldownMs cfg ->
  let s' := exec (sendBid cfg t index bypass clk) s in
  sentFrames (outputs (sendBid cfg t' index' bypass' clk') s') = []
  /\ exec (sendBid cfg t' index' bypass' clk') s' = s'.
Proof.
  intros Hsent Hnow Hearly s'.
  destruct (sendBid_sent cfg t index bypass clk s Hsent) as [_ Hplaced].
  fold s' in Hplaced.
  destruct Hplaced as (_ & _ & _ & Hflight & _).
  assert (Hguard : bidInFlight clk' s' = true).
  { unfold bidInFlight. rewrite Hflight.
    assert (0 < bidCooldownMs cfg)
      by (unfold bidCooldownMs; destruct (strategy_eqb _ _); lia).
    apply andb_true_iff. split.
    - apply negb_true_iff, Z.eqb_neq. lia.
    - apply Z.ltb_lt. exact Hearly. }
  unfold sendBid. rewrite outputs_this_bind, exec_this_bind.
  destruct (status_eqb (status s') Running); cbn [negb];
    [|split; reflexivity].
  rewrite !outputs_emit_bind, !exec_emit_bind.
  rewrite !sentFrames_cons by exact I.
  destruct (intervalGuard cfg bypass' clk' s') as [[elapsed m]|];
    [split; reflexivity|].
  rewrite Hguard. split; reflexivity.
Qed.

Lemma sendBid_holds_while_in_flight_witness :
  let s' := exec (sendBid DEFAULT_TRADE_CONFIG Call 0 false sampleClock)
              runningEngine in
  let later := {| zone := fixedZone 420; nowMs := 1700000009000;
                  nowGuard := 1700000009001; nowEnd := 1700000009002 |} in
  sentFrames (outputs (sendBid DEFAULT_TRADE_CONFIG Call 0 false sampleClock)
                runningEngine) <> []
  /\ nowGuard later < nowEnd sampleClock + bidCooldownMs DEFAULT_TRADE_CONFIG
  /\ sentFrames (outputs (sendBid DEFAULT_TRADE_CONFIG Put 0 true later) s')
     = [].
Proof.
  intros s' later.
  assert (H1 : sentFrames
                 (outputs (sendBid DEFAULT_TRADE_CONFIG Call 0 false
                             sampleClock) runningEngine) <> [])
    by (vm_compute; discriminate).
  assert (H2 : nowGuard later
               < nowEnd sampleClock + bidCooldownMs DEFAULT_TRADE_CONFIG)
    by (vm_compute; reflexivity).
  split; [exact H1|]. split; [exact H2|].
  exact (proj1 (sendBid_holds_while_in_flight DEFAULT_TRADE_CONFIG Call Put
                  0 0 false true sampleClock later runningEngine H1
                  ltac:(vm_compute; discriminate) H2)).
Defined.

(** ** Persisting and restoring the bot state *)

(** X13. What persistBotState writes, loadBotState restores: an engine that
    finds the stored item reads back the step and the switch-demo flag of
    the last bid, and the trend and the amount of the last bid when there
    were any (its own otherwise); the fast trend follows the restored trend
    and the repeat trend is cleared. *)
Theorem persisted_state_is_restored (s fresh : Engine) :
  storage fresh = storage (exec persistBotState s) ->
  let r := exec loadBotState fresh in
  lastBidStep r = lastBidStep s
  /\ lastBidWasSwitchDemo r = lastBidWasSwitchDemo s
  /\ lastSignalTrend r = orElse (lastSignalTrend s) (lastSignalTrend fresh)
  /\ lastFastBidTrend r = lastSignalTrend r
  /\ fastRepeatTrend r = None
  /\ lastBidAmount r = orElse (lastBidAmount s) (lastBidAmount fresh).
Proof.
  intros Hst r. subst r. unfold loadBotState. rewrite exec_this_bind, Hst.
  cbn. repeat split; reflexivity.
Qed.

Lemma persisted_state_is_restored_witness :
  let s := set_lastBidStep 3
             (set_lastSignalTrend (Some Put) runningEngine) in
  let fresh := set_storage (storage (exec persistBotState s)) initialEngine in
  let r := exec loadBotState fresh in
  storage fresh = storage (exec persistBotState s)
  /\ lastBidStep r = 3
  /\ lastSignalTrend r = Some Put.
Proof.
  intros s fresh r.
  assert (Hst : storage fresh = storage (exec persistBotState s))
    by (vm_compute; reflexivity).
  pose proof (persisted_state_is_restored s fresh Hst) as (H1 & _ & H2 & _).
  split; [exact Hst|]. subst r.
  split; [rewrite H1 | rewrite H2]; vm_compute; reflexivity.
Defined.

(** ** From a bid in flight to the resumed ladder *)

(** X14. A bid that is still open when the app restarts is resumed one step
    up.  When sendBid has sent a bid at step k, an engine that finds the
    stored state and an opened deal in the history computes the resume state
    UNCLOSED_BID with resumeStep k + 1, keeps it as pending, and applying it
    sets martingaleStep to clampStep (k + 1), at most 100, with repeatStep 0
    and the next bid taken from the signal. *)
Theorem open_bid_resumes_one_step_up (cfg : TradeConfig)
  (parseDate : string -> option Z) (t : Trend) (index : Z) (bypass : bool)
  (clk : Clock) (s fresh : Engine) (requests : list Settled) :
  sentFrames (outputs (sendBid cfg t index bypass clk) s) <> [] ->
  storage fresh = storage (exec (sendBid cfg t index bypass clk) s) ->
  filter isOpened (flat_map dealsOf requests) <> [] ->
  let state := result (checkResumeState parseDate requests) fresh in
  shouldResume state = true
  /\ reason state = UNCLOSED_BID
  /\ resumeStep state = martingaleStep s + 1
  /\ pendingResumeState (exec (checkResumeState parseDate requests) fresh)
     = Some state
  /\ forall e,
       let e' := exec (applyResumeState cfg state) e in
       martingaleStep e'
       = Z.min (clampStep cfg (martingaleStep s + 1)) MAX_K_STEP
       /\ repeatStep e' = 0
       /\ shouldUseSignal e' = true.
Proof.
  intros Hsent Hst Hopen state.
  destruct (sendBid_sent cfg t index bypass clk s Hsent) as [_ Hplaced].
  destruct Hplaced as (_ & _ & _ & _ & _ & _ & _ & Hstored).
  rewrite Hstored in Hst.
  assert (Hstate :
    state = {| shouldResume := true; resumeStep := martingaleStep s + 1;
               reason := UNCLOSED_BID;
               lastDeal := hd_error (filter isOpened
                                       (flat_map dealsOf requests)) |}
    /\ pendingResumeState (exec (checkResumeState parseDate requests) fresh)
       = Some state).
  { subst state.
    unfold checkResumeState, loadBotState, computeResumeState.
    cbv [result exec bind this assign ret fst snd]. rewrite Hst. cbn.
    destruct (filter isOpened (flat_map dealsOf requests)) as [|d l];
      [contradiction|].
    cbn. split; reflexivity. }
  destruct Hstate as [Hstate Hpending]. rewrite Hpending, Hstate.
  repeat split; reflexivity.
Qed.

Lemma open_bid_resumes_one_step_up_witness :
  let cfg := DEFAULT_TRADE_CONFIG in
  let s := set_martingaleStep 1 runningEngine in
  let s' := exec (sendBid cfg Call 0 false sampleClock) s in
  let fresh := set_storage (storage s') initialEngine in
  let requests :=
    [historyOf [dealWith "opened" "2024-01-01T00:00:00Z" JUndefined]] in
  let state := result (checkResumeState (fun _ => None) requests) fresh in
  sentFrames (outputs (sendBid cfg Call 0 false sampleClock) s) <> []
  /\ filter isOpened (flat_map dealsOf requests) <> []
  /\ resumeStep state = 2
  /\ martingaleStep (exec (applyResumeState cfg state) runningEngine) = 2.
Proof.
  intros cfg s s' fresh requests state.
  assert (H1 : sentFrames (outputs (sendBid cfg Call 0 false sampleClock) s)
               <> []) by (vm_compute; discriminate).
  assert (H2 : filter isOpened (flat_map dealsOf requests) <> [])
    by (vm_compute; discriminate).
  assert (Hst : storage fresh
                = storage (exec (sendBid cfg Call 0 false sampleClock) s))
    by (vm_compute; reflexivity).
  pose proof (open_bid_resumes_one_step_up cfg (fun _ => None) Call 0 false
                sampleClock s fresh requests H1 Hst H2)
    as (_ & _ & H3 & _ & H4).
  split; [exact H1|]. split; [exact H2|]. subst state.
  split; [rewrite H3; vm_compute; reflexivity|].
  destruct (H4 runningEngine) as [H5 _]. rewrite H5. vm_compute. reflexivity.
Defined.

(** ** The deal that decides the resume state *)

Section Newest.

Variable parseDate : string -> option Z.

Lemma newerFirst_dated (a b : DealItem) :
  dated parseDate a -> dated parseDate b ->
  newerFirst parseDate a b
  = createdAtMs parseDate b - createdAtMs parseDate a.
Proof.
  unfold dated, newerFirst, createdAtMs.
  destruct (createdMs parseDate a); destruct (createdMs parseDate b);
    intros Ha Hb; try contradiction; reflexivity.
Qed.

Lemma insertSorted_In (x d : DealItem) (l : list DealItem) :
  In d (insertSorted parseDate x l) <-> d = x \/ In d l.
Proof.
  induction l as [|y l IH]; cbn [insertSorted].
  - cbn. intuition congruence.
  - destruct (newerFirst parseDate y x >? 0); cbn [In].
    + intuition congruence.
    + rewrite IH. intuition congruence.
Qed.

Lemma insertSorted_headNewest (x : DealItem) (l : list DealItem) :
  dated parseDate x -> Forall (dated parseDate) l ->
  headNewest parseDate l -> headNewest parseDate (insertSorted parseDate x l).
Proof.
  intros Hx Hl Hhead. destruct l as [|y l]; cbn [insertSorted].
  - cbn. constructor; [lia | constructor].
  - inversion Hl as [|? ? Hy Hrest]; subst.
    rewrite (newerFirst_dated y x Hy Hx).
    destruct (Z.gtb_spec (createdAtMs parseDate x - createdAtMs parseDate y) 0)
      as [Hnewer|Holder]; cbn [headNewest] in *.
    + constructor; [lia|].
      eapply Forall_impl; [|exact Hhead]. cbn. intros d Hd. lia.
    + inversion Hhead as [|? ? Hyy Htail]; subst.
      constructor; [exact Hyy|].
      apply Forall_forall. intros d Hd. apply insertSorted_In in Hd.
      destruct Hd as [->|Hd]; [lia|].
      rewrite Forall_forall in Htail. apply Htail, Hd.
Qed.

Lemma sortDeals_from (l : list DealItem) :
  forall acc,
    Forall (dated parseDate) l -> Forall (dated parseDate) acc ->
    headNewest parseDate acc ->
    let sorted := fold_left (fun acc x => insertSorted parseDate x acc) l acc in
    headNewest parseDate sorted
    /\ forall d, In d sorted <-> In d acc \/ In d l.
Proof.
  induction l as [|x l IH]; intros acc Hl Hacc Hhead; cbn [fold_left].
  - split; [exact Hhead|]. cbn. intuition.
  - inversion Hl as [|? ? Hx Hrest]; subst.
    destruct (IH (insertSorted parseDate x acc) Hrest) as [Hsorted Hin].
    + apply Forall_forall. intros d Hd. apply insertSorted_In in Hd.
      destruct Hd as [->|Hd]; [exact Hx|].
      rewrite Forall_forall in Hacc. apply Hacc, Hd.
    + apply insertSorted_headNewest; assumption.
    + split; [exact Hsorted|]. intros d. rewrite Hin, insertSorted_In.
      cbn [In]. intuition congruence.
Qed.

(** X15. Without an opened deal the resume state is decided by the newest
    deal of the history.  When every creation time parses, the deal
    computeResumeState reports as lastDeal is a deal of the fetched lists
    whose creation time is not before that of any other deal with a creation
    time; a win of 0 on it resumes the ladder one step up as LAST_BID_LOST;
    with no dated deal at all nothing is resumed. *)
Theorem computeResumeState_reads_newest_deal (s : Engine)
  (requests : list Settled) :
  let deals := flat_map dealsOf requests in
  let state := result (computeResumeState parseDate requests) s in
  filter isOpened deals = [] ->
  Forall (dated parseDate) (filter hasCreatedAt deals) ->
  match lastDeal state with
  | Some last =>
      In last deals
      /\ hasCreatedAt last = true
      /\ Forall (fun d => createdAtMs parseDate d <= createdAtMs parseDate last)
           (filter hasCreatedAt deals)
      /\ (forall w, safeNumber (deal_win last) = Some w -> (w == 0)%Q ->
          state = {| shouldResume := true; resumeStep := lastBidStep s + 1;
                     reason := LAST_BID_LOST; lastDeal := Some last |})
  | None => filter hasCreatedAt deals = [] /\ shouldResume state = false
  end.
Proof.
  intros deals state Hnone Hdated.
  destruct (sortDeals_from (filter hasCreatedAt deals) [] Hdated
              (Forall_nil _) I) as [Hhead Hin].
  fold (sortDeals parseDate (filter hasCreatedAt deals)) in Hhead, Hin.
  assert (Hstate :
    state
    = match hd_error (sortDeals parseDate (filter hasCreatedAt deals)) with
      | None => {| shouldResume := false; resumeStep := 0; reason := NONE;
                   lastDeal := None |}
      | Some last =>
          match safeNumber (deal_win last) with
          | Some w =>
              if Qeq_bool w 0 then
                {| shouldResume := true; resumeStep := lastBidStep s + 1;
                   reason := LAST_BID_LOST; lastDeal := Some last |}
              else if lastBidWasSwitchDemo s then
                {| shouldResume := true; resumeStep := lastBidStep s + 1;
                   reason := LAST_BID_WON_IN_SWITCH_DEMO;
                   lastDeal := Some last |}
              else
                {| shouldResume := false; resumeStep := 0; reason := NONE;
                   lastDeal := Some last |}
          | None => {| shouldResume := false; resumeStep := 0; reason := NONE;
                       lastDeal := Some last |}
          end
      end).
  { subst state. unfold computeResumeState.
    cbv [result bind this ret fst snd]. fold deals. rewrite Hnone. cbn [size List.length Z.of_nat Z.gtb Z.compare].
    destruct (hd_error _) as [last|]; [|reflexivity].
    destruct (safeNumber (deal_win last)) as [w|]; [|reflexivity].
    destruct (Qeq_bool w 0); [reflexivity|].
    destruct (lastBidWasSwitchDemo s); reflexivity. }
  destruct (sortDeals parseDate (filter hasCreatedAt deals)) as [|last rest]
    eqn:Hsorted; cbn [hd_error] in Hstate.
  - rewrite Hstate. cbn. split; [|reflexivity].
    destruct (filter hasCreatedAt deals) as [|d l]; [reflexivity|].
    exfalso. apply (proj2 (Hin d)). right. left. reflexivity.
  - assert (Hlast : lastDeal state = Some last).
    { rewrite Hstate. destruct (safeNumber (deal_win last)) as [w|];
        [destruct (Qeq_bool w 0); [|destruct (lastBidWasSwitchDemo s)]|];
        reflexivity. }
    rewrite Hlast.
    assert (Hmem : In last (filter hasCreatedAt deals)).
    { destruct (proj1 (Hin last) (or_introl eq_refl)) as [[]|H]. exact H. }
    apply filter_In in Hmem as [Hmem Hcreated].
    split; [exact Hmem|]. split; [exact Hcreated|]. split.
    + cbn [headNewest] in Hhead. rewrite Forall_forall in *.
      intros d Hd. apply Hhead. apply Hin. right. exact Hd.
    + intros w Hw Hzero. rewrite Hstate, Hw.
      apply Qeq_bool_iff in Hzero. rewrite Hzero. reflexivity.
Qed.

End Newest.

(** Two closed deals, the newer one lost: the ladder resumes one step up. *)
Lemma computeResumeState_reads_newest_deal_witness :
  let requests :=
    [historyOf [dealWith "closed" "2024-01-01T00:01:00Z" (JNumber 5)];
     historyOf [dealWith "closed" "2024-01-01T00:05:00Z" (JNumber 0)]] in
  let s := set_lastBidStep 1 runningEngine in
  let state := result (computeResumeState parseMinute requests) s in
  filter isOpened (flat_map dealsOf requests) = []
  /\ Forall (dated parseMinute) (filter hasCreatedAt (flat_map dealsOf requests))
  /\ lastDeal state
     = Some (dealWith "closed" "2024-01-01T00:05:00Z" (JNumber 0))
  /\ reason state = LAST_BID_LOST
  /\ resumeStep state = 2.
Proof.
  intros requests s state.
  assert (H1 : filter isOpened (flat_map dealsOf requests) = [])
    by reflexivity.
  assert (H2 : Forall (dated parseMinute)
                 (filter hasCreatedAt (flat_map dealsOf requests)))
    by (repeat constructor; discriminate).
  pose proof (computeResumeState_reads_newest_deal parseMinute s requests
                H1 H2) as H.
  fold state in H.
  assert (Hlast : lastDeal state
                  = Some (dealWith "closed" "2024-01-01T00:05:00Z" (JNumber 0)))
    by (vm_compute; reflexivity).
  rewrite Hlast in H. destruct H as (_ & _ & _ & Hlost).
  specialize (Hlost 0%Q eq_refl (Qeq_refl 0)).
  split; [exact H1|]. split; [exact H2|]. split; [exact Hlast|].
  rewrite Hlost. split; reflexivity.
Defined.

(** ** The minimum interval between bids *)

(** X16. After a bid has been sent, a bid request that does not bypass the
    interval guard sends nothing and changes nothing while less than the
    minimum interval minus 250 ms has passed since the bid; the minimum
    interval is 5 seconds under the Flash strategy and max(1, interval)
    minutes otherwise, and the Signal strategy has no such guard. *)
Theorem sendBid_keeps_minimum_interval (cfg : TradeConfig) (t t' : Trend)
  (index index' : Z) (bypass : bool) (clk clk' : Clock) (s : Engine)
  (minInterval : Z) :
  sentFrames (outputs (sendBid cfg t index bypass clk) s) <> [] ->
  strategy cfg <> Signal ->
  minIntervalMs cfg = Some minInterval ->
  nowMs clk' - nowMs clk < minInterval - 250 ->
  let s' := exec (sendBid cfg t index bypass clk) s in
  sentFrames (outputs (sendBid cfg t' index' false clk') s') = []
  /\ exec (sendBid cfg t' index' false clk') s' = s'.
Proof.
  intros Hsent Hstrategy Hmin Hearly s'.
  destruct (sendBid_sent cfg t index bypass clk s Hsent) as [_ Hplaced].
  fold s' in Hplaced.
  destruct Hplaced as (_ & _ & _ & _ & _ & _ & Hat & _).
  assert (Hguard : intervalGuard cfg false clk' s'
                   = Some (nowMs clk' - nowMs clk, minInterval)).
  { unfold intervalGuard. unfold minIntervalMs in Hmin.
    assert (Hnot : strategy_eqb (strategy cfg) Signal = false)
      by (destruct (strategy cfg); try reflexivity; contradiction).
    rewrite Hnot, Hat. cbn [negb andb].
    destruct (strategy_eqb (strategy cfg) Flash5st).
    - injection Hmin as <-.
      destruct (Z.ltb_spec (nowMs clk' - nowMs clk) (5000 - 250));
        [reflexivity | lia].
    - destruct (intervalMinutes cfg) as [n|]; [|discriminate].
      injection Hmin as <-.
      destruct (Z.ltb_spec (nowMs clk' - nowMs clk) (n * 60000 - 250));
        [reflexivity | lia]. }
  unfold sendBid. rewrite outputs_this_bind, exec_this_bind.
  destruct (status_eqb (status s') Running); cbn [negb];
    [|split; reflexivity].
  rewrite !outputs_emit_bind, !exec_emit_bind.
  rewrite !sentFrames_cons by exact I.
  rewrite Hguard. split; reflexivity.
Qed.

Lemma sendBid_keeps_minimum_interval_witness :
  let cfg := momentumConfig in
  let s' := exec (sendBid cfg Call 0 false sampleClock) runningEngine in
  let later := {| zone := fixedZone 420; nowMs := 1700000030000;
                  nowGuard := 1700000030001; nowEnd := 1700000030002 |} in
  sentFrames (outputs (sendBid cfg Call 0 false sampleClock) runningEngine)
  <> []
  /\ minIntervalMs cfg = Some 60000
  /\ nowMs later - nowMs sampleClock < 60000 - 250
  /\ sentFrames (outputs (sendBid cfg Put 0 false later) s') = [].
Proof.
  intros cfg s' later.
  assert (H1 : sentFrames
                 (outputs (sendBid cfg Call 0 false sampleClock)
                    runningEngine) <> [])
    by (vm_compute; discriminate).
  assert (H2 : minIntervalMs cfg = Some 60000) by reflexivity.
  assert (H3 : nowMs later - nowMs sampleClock < 60000 - 250)
    by (vm_compute; reflexivity).
  split; [exact H1|]. split; [exact H2|]. split; [exact H3|].
  exact (proj1 (sendBid_keeps_minimum_interval cfg Call Put 0 0 false
                  sampleClock later runningEngine 60000 H1
                  ltac:(discriminate) H2 H3)).
Defined.

(** ** The cooldown *)

Lemma cooldown_pass_skips (cfg : TradeConfig) t index clk (s : Engine) :
  cooldownActive s = true ->
  cooldownCount s + 1 <= cooldownMax s ->
  exec (sendBid_cooldown cfg t index clk) s
  = set_cooldownCount (cooldownCount s + 1) s
  /\ sentFrames (outputs (sendBid_cooldown cfg t index clk) s) = [].
Proof.
  intros Hactive Hroom. unfold sendBid_cooldown.
  rewrite outputs_this_bind, exec_this_bind, Hactive.
  rewrite outputs_assign_bind, exec_assign_bind, outputs_emit_bind,
    exec_emit_bind.
  destruct (Z.leb_spec (cooldownCount s + 1) (cooldownMax s)); [|lia].
  split; reflexivity.
Qed.

(** X17. The cooldown holds back the bids that follow it.  While the
    cooldown is active with the counter at c, the next cooldownMax - c
    requests that reach the cooldown step of sendBid send nothing and only
    move the counter to cooldownMax; the request after them clears the
    cooldown and goes on to place its bid. *)
Theorem cooldown_holds_back_bids (cfg : TradeConfig)
  (requests : list (Trend * Z * Clock)) (t : Trend) (index : Z) (clk : Clock)
  (s : Engine) :
  cooldownActive s = true ->
  cooldownCount s + size requests = cooldownMax s ->
  let s' := exec (cooldownPasses cfg requests) s in
  sentFrames (outputs (cooldownPasses cfg requests) s) = []
  /\ s' = set_cooldownCount (cooldownMax s) s
  /\ exec (sendBid_cooldown cfg t index clk) s'
     = exec (sendBid_place cfg t index clk)
         (set_cooldownCount 0 (set_cooldownActive false s'))
  /\ sentFrames (outputs (sendBid_cooldown cfg t index clk) s')
     = sentFrames (outputs (sendBid_place cfg t index clk)
                     (set_cooldownCount 0 (set_cooldownActive false s'))).
Proof.
  intros Hactive Hcount s'.
  assert (Hrun : forall reqs e,
             cooldownActive e = true ->
             cooldownCount e + size reqs <= cooldownMax e ->
             exec (cooldownPasses cfg reqs) e
             = set_cooldownCount (cooldownCount e + size reqs) e
             /\ sentFrames (outputs (cooldownPasses cfg reqs) e) = []).
  { induction reqs as [|r reqs IH]; intros e Hact Hroom.
    - cbn. rewrite Z.add_0_r. split; [destruct e|]; reflexivity.
    - unfold cooldownPasses in *. cbn [forEach].
      unfold size in Hroom. cbn [List.length] in Hroom.
      rewrite Nat2Z.inj_succ in Hroom.
      destruct (cooldown_pass_skips cfg (fst (fst r)) (snd (fst r)) (snd r) e
                  Hact ltac:(lia)) as [Hexec Hout].
      rewrite exec_bind, sentFrames_bind, Hexec, Hout.
      destruct (IH (set_cooldownCount (cooldownCount e + 1) e) Hact
                  ltac:(cbn [cooldownCount set_cooldownCount cooldownMax];
                        unfold size; lia)) as [Hexec' Hout'].
      rewrite Hexec', Hout'. split; [|reflexivity].
      cbn [cooldownCount set_cooldownCount].
      replace (cooldownCount e + 1 + size reqs)
        with (cooldownCount e + size (r :: reqs))
        by (unfold size; cbn [List.length]; lia).
      reflexivity. }
  destruct (Hrun requests s Hactive ltac:(lia)) as [Hexec Hout].
  fold s' in Hexec. rewrite Hcount in Hexec.
  split; [exact Hout|]. split; [exact Hexec|].
  unfold sendBid_cooldown.
  rewrite outputs_this_bind, exec_this_bind, Hexec.
  cbn [cooldownActive set_cooldownCount cooldownCount cooldownMax].
  rewrite Hactive.
  rewrite outputs_assign_bind, exec_assign_bind, outputs_emit_bind,
    exec_emit_bind, sentFrames_cons by exact I.
  destruct (Z.leb_spec (cooldownMax s + 1) (cooldownMax s)); [lia|].
  rewrite !outputs_assign_bind, !exec_assign_bind.
  split; reflexivity.
Qed.

(** A win under the Momentum strategy starts the cooldown at 1 of 5: four
    requests are held back and the fifth sends the bid. *)
Lemma cooldown_holds_back_bids_witness :
  let cfg := momentumConfig in
  let s := exec (settleWin cfg) runningEngine in
  let request := (Call, 0, sampleClock) in
  let requests := [request; request; request; request] in
  let s' := exec (cooldownPasses cfg requests) s in
  cooldownActive s = true
  /\ cooldownCount s + size requests = cooldownMax s
  /\ sentFrames (outputs (cooldownPasses cfg requests) s) = []
  /\ sentFrames (outputs (sendBid_cooldown cfg Call 0 sampleClock) s') <> [].
Proof.
  intros cfg s request requests s'.
  assert (H1 : cooldownActive s = true) by reflexivity.
  assert (H2 : cooldownCount s + size requests = cooldownMax s)
    by reflexivity.
  split; [exact H1|]. split; [exact H2|].
  split.
  - exact (proj1 (cooldown_holds_back_bids cfg requests Call 0 sampleClock s
                    H1 H2)).
  - vm_compute. discriminate.
Defined.

(** ** The profit target *)

(** With the target reached, the rest of the handler stops the engine or
    switches it to the demo wallet. *)
Lemma resume_at_profit_target (cfg : TradeConfig)
  (demoTotal realTotal target : Q) (s : Engine) :
  stopProfitAfter cfg = Some target ->
  (0 < target)%Q ->
  (target * 100
   <= if wallet_eqb (if forceDemo s then Demo else currentWalletType s) Demo
      then demoTotal else realTotal)%Q ->
  let s' := exec (handleCloseDealBatch_resume cfg
                    (Some (demoTotal, realTotal))) s in
  (profitDemo s', profitReal s') = (demoTotal, realTotal)
  /\ (status s' = Stopped
      \/ (switchDemoActive s = false /\ switchDemoActive s' = true)).
Proof.
  intros Htarget Hpos Hreached s'.
  assert (Hpositive : Qgtb target 0 = true) by (apply Qltb_lt; exact Hpos).
  subst s'. unfold handleCloseDealBatch_resume, refreshProfitFromApi.
  rewrite !exec_bind.
  set (s1 := exec (sendStreamPing cfg) _).
  assert (Hs1 : (profitDemo s1, profitReal s1, forceDemo s1,
                 currentWalletType s1, switchDemoActive s1)
                = (demoTotal, realTotal, forceDemo s, currentWalletType s,
                   switchDemoActive s)).
  { subst s1. unfold sendStreamPing. rewrite exec_this_bind.
    match goal with
    | |- context [if ?c then _ else _] => destruct c; reflexivity
    end. }
  injection Hs1 as Hd Hr Hf Hw Hsd.
  set (s2 := exec (emit (RefreshEvent RefreshTrackedProfit)) s1).
  change s2 with s1. clear s2.
  assert (Hcheck : forall e,
             (profitDemo e, profitReal e, forceDemo e, currentWalletType e)
             = (demoTotal, realTotal, forceDemo s, currentWalletType s) ->
             status (exec (stopProfitCheck cfg) e) = Stopped
             /\ (profitDemo (exec (stopProfitCheck cfg) e),
                 profitReal (exec (stopProfitCheck cfg) e))
                = (demoTotal, realTotal)).
  { intros e He. injection He as Hed Her Hef Hew.
    unfold stopProfitCheck. rewrite Htarget, Hpositive, exec_this_bind.
    rewrite exec_emit_bind.
    assert (Hle : Qle_bool (target * 100) (getCurrentProfit e) = true).
    { apply Qle_bool_iff. unfold getCurrentProfit.
      rewrite Hef, Hew, Hed, Her. exact Hreached. }
    rewrite Hle. cbn [when]. rewrite <- Hed, <- Her.
    split; reflexivity. }
  unfold applyRiskRules. rewrite exec_this_bind.
  destruct (skipStopLossOnce s1).
  - rewrite exec_assign_bind.
    destruct (Hcheck (set_skipStopLossOnce false s1)) as [Hstop Hprofit].
    + cbn [profitDemo profitReal forceDemo currentWalletType
           set_skipStopLossOnce]. congruence.
    + split; [exact Hprofit | left; exact Hstop].
  - destruct (stopLossBreached cfg s1) eqn:Hbreach.
    + destruct (shouldSwitchToDemo cfg s1 && allowAutoSwitch s1) eqn:Hswitch.
      * split; [cbn; congruence|]. right. split; [|reflexivity].
        unfold stopLossBreached in Hbreach. rewrite Hsd in Hbreach.
        destruct (switchDemoActive s); [discriminate | reflexivity].
      * destruct (negb (autoSwitchDemo cfg)).
        -- split; [cbn; congruence | left; reflexivity].
        -- destruct (Hcheck s1) as [Hstop Hprofit]; [congruence|].
           split; [exact Hprofit | left; exact Hstop].
    + destruct (Hcheck s1) as [Hstop Hprofit]; [congruence|].
      split; [exact Hprofit | left; exact Hstop].
Qed.

(** With the target at 0, below it or not a number, the check does
    nothing. *)
Lemma stopProfitCheck_off (cfg : TradeConfig) :
  (forall target, stopProfitAfter cfg = Some target -> (target <= 0)%Q) ->
  stopProfitCheck cfg = skip.
Proof.
  intros Hoff. unfold stopProfitCheck.
  destruct (stopProfitAfter cfg) as [target|]; [|reflexivity].
  assert (Hle : Qgtb target 0 = false)
    by (apply Qltb_ge, Hoff; reflexivity).
  rewrite Hle. reflexivity.
Qed.

Lemma stop_noStopProfitStop (k : Z) :
  emits noStopProfitStop (stop (StopLossReached k)).
Proof. unfold_methods. trace. Qed.

(** X18. After the profit refresh the engine holds the profits the deal
    history reported.  With a profit target set (stopProfitAfter a number
    above 0), when the reported profit of the wallet in use has reached the
    target (stopProfitAfter times 100, in minor units), the rest of
    handleCloseDealBatch ends with the engine stopped, unless this
    evaluation of the risk rules is the one that moves the engine into
    switch-demo mode, which returns before the target is looked at.  With
    stopProfitAfter at 0, below 0 or not a number the rule is off: whatever
    the profit, the rest of the handler does not stop the engine for the
    profit target. *)
Theorem profit_target_stops_engine (cfg : TradeConfig)
  (demoTotal realTotal : Q) (s : Engine) :
  let resume := handleCloseDealBatch_resume cfg (Some (demoTotal, realTotal)) in
  let s' := exec resume s in
  let reported :=
    if wallet_eqb (if forceDemo s then Demo else currentWalletType s) Demo
    then demoTotal else realTotal in
  (profitDemo s', profitReal s') = (demoTotal, realTotal)
  /\ (forall target,
         stopProfitAfter cfg = Some target ->
         (0 < target)%Q ->
         (target * 100 <= reported)%Q ->
         status s' = Stopped
         \/ (switchDemoActive s = false /\ switchDemoActive s' = true))
  /\ ((forall target, stopProfitAfter cfg = Some target -> (target <= 0)%Q) ->
      Forall noStopProfitStop (outputs resume s)).
Proof.
  intros resume s' reported. split; [|split].
  - subst s' resume. unfold handleCloseDealBatch_resume, refreshProfitFromApi.
    rewrite !exec_bind.
    set (s1 := exec (sendStreamPing cfg) _).
    assert (Hs1 : (profitDemo s1, profitReal s1) = (demoTotal, realTotal)).
    { subst s1. unfold sendStreamPing. rewrite exec_this_bind.
      match goal with
      | |- context [if ?c then _ else _] => destruct c; reflexivity
      end. }
    assert (K : keeps (fun e => (profitDemo e, profitReal e))
                  (applyRiskRules cfg)) by (unfold_methods; frame).
    pose proof (K (exec (emit (RefreshEvent RefreshTrackedProfit)) s1)) as HK.
    cbv beta in HK. rewrite HK. exact Hs1.
  - intros target Htarget Hpos Hreached.
    exact (proj2 (resume_at_profit_target cfg demoTotal realTotal target s
                    Htarget Hpos Hreached)).
  - intros Hoff. subst resume. clear s' reported. revert s.
    change (emits noStopProfitStop
              (handleCloseDealBatch_resume cfg (Some (demoTotal, realTotal)))).
    unfold handleCloseDealBatch_resume, applyRiskRules.
    rewrite (stopProfitCheck_off cfg Hoff).
    unfold refreshProfitFromApi, sendStreamPing, persistBotState, skip.
    pose proof stop_noStopProfitStop as Hstop.
    trace.
Qed.

Lemma profit_target_stops_engine_witness :
  let cfg := profitTargetConfig in
  let s := runningEngine in
  let s' := exec (handleCloseDealBatch_resume cfg
                    (Some (inject_Z 5000, 0%Q))) s in
  stopProfitAfter cfg = Some (inject_Z 50)
  /\ (0 < inject_Z 50)%Q
  /\ status s = Running
  /\ status s' = Stopped.
Proof.
  intros cfg s s'.
  assert (Hpos : (0 < inject_Z 50)%Q) by (vm_compute; reflexivity).
  destruct (proj1 (proj2 (profit_target_stops_engine cfg (inject_Z 5000) 0%Q
                            s))
              (inject_Z 50) eq_refl Hpos ltac:(vm_compute; discriminate))
    as [Hstop|[_ Hswitch]].
  - split; [reflexivity|]. split; [exact Hpos|].
    split; [reflexivity | exact Hstop].
  - exfalso. revert Hswitch. vm_compute. discriminate.
Defined.

(** ** Trends from candles *)

Lemma green_not_red (c : CandlePoint) :
  isGreen c = true -> isRed c = false.
Proof.
  unfold isGreen, isRed, Qgtb. intros Hg. apply Qltb_lt in Hg.
  apply Qltb_ge. lra.
Qed.

(** X19. computeTrend never signals against the last candle.  Under the
    Momentum strategy a trend comes back only when the last candle has its
    colour (green for call, red for put), be it through two candles of one
    colour or through the five-minute fallback, and it clears the timer of
    the fallback; the fallback does not fire before five minutes have
    passed.  Under the Fast strategy a green or red last candle decides the
    trend.  So whenever Momentum yields a trend, Fast yields the same one,
    and without candles both yield none. *)
Theorem computeTrend_follows_last_candle (candles : list CandlePoint)
  (now : Z) (since : option Z) (s : Engine) :
  let momentum := fst (computeTrend_Momentum candles now since) in
  let timer := snd (computeTrend_Momentum candles now since) in
  let fast := result (computeTrend_Fast candles) s in
  match fromEnd 1 candles with
  | None => momentum = None /\ fast = None
  | Some last =>
      (momentum = Some Call -> isGreen last = true)
      /\ (momentum = Some Put -> isRed last = true)
      /\ (momentum <> None -> timer = None)
      /\ (isGreen last = true -> fast = Some Call)
      /\ (isRed last = true -> fast = Some Put)
      /\ (forall t, momentum = Some t -> fast = Some t)
      /\ (forall prev started,
             fromEnd 2 candles = Some prev ->
             isGreen prev && isGreen last = false ->
             isRed prev && isRed last = false ->
             since = Some started -> started <> 0 ->
             now - started < 5 * 60 * 1000 ->
             momentum = None /\ timer = since)
  end.
Proof.
  intros momentum timer fast.
  assert (Hfast : forall last, fromEnd 1 candles = Some last ->
                    (isGreen last = true -> fast = Some Call)
                    /\ (isRed last = true -> fast = Some Put)).
  { intros last Hlast. subst fast. unfold computeTrend_Fast.
    rewrite result_bind. cbv beta. rewrite Hlast. split.
    - intros Hg. rewrite Hg. reflexivity.
    - intros Hr. destruct (isGreen last) eqn:Hg.
      + apply green_not_red in Hg. congruence.
      + rewrite Hr. reflexivity. }
  assert (Hmomentum : forall last, fromEnd 1 candles = Some last ->
                        (momentum = Some Call -> isGreen last = true)
                        /\ (momentum = Some Put -> isRed last = true)
                        /\ (momentum <> None -> timer = None)).
  { intros last Hlast. subst momentum timer. unfold computeTrend_Momentum.
    rewrite Hlast.
    destruct (fromEnd 2 candles) as [prev|];
      [|cbn; repeat split; congruence].
    destruct (isGreen prev) eqn:Hgp; destruct (isGreen last) eqn:Hgl;
      destruct (isRed prev) eqn:Hrp; destruct (isRed last) eqn:Hrl;
      cbn [andb fst snd]; try (repeat split; congruence);
      destruct since as [started|]; cbn [fst snd];
      try (repeat split; congruence);
      destruct (started =? 0); cbn [fst snd];
      try (repeat split; congruence);
      destruct (now - started >=? 5 * 60 * 1000); cbn [fst snd];
      repeat split; congruence. }
  destruct (fromEnd 1 candles) as [last|] eqn:Hlast.
  - destruct (Hfast last eq_refl) as [Hfg Hfr].
    destruct (Hmomentum last eq_refl) as (Hmc & Hmp & Hmt).
    split; [exact Hmc|]. split; [exact Hmp|]. split; [exact Hmt|].
    split; [exact Hfg|]. split; [exact Hfr|]. split.
    + intros [|] Ht; [apply Hfg, Hmc, Ht | apply Hfr, Hmp, Ht].
    + intros prev started Hprev Hgreen Hred Hsince Hstarted Hearly.
      subst momentum timer. unfold computeTrend_Momentum.
      rewrite Hprev, Hlast, Hgreen, Hred, Hsince.
      destruct (Z.eqb_spec started 0); [contradiction|].
      destruct (Z.geb_spec (now - started) (5 * 60 * 1000)); [lia|].
      split; reflexivity.
  - subst momentum fast. split.
    + unfold computeTrend_Momentum. rewrite Hlast.
      destruct (fromEnd 2 candles); reflexivity.
    + unfold computeTrend_Fast. rewrite result_bind. cbv beta.
      rewrite Hlast. reflexivity.
Qed.

(** * The native engine *)

(** ** Loops with binary fuel *)

Lemma iterateN_add {St Res : Type} (step : St -> Loop St Res) (n m : nat) :
  forall s,
    iterateN step (n + m) s
    = match iterateN step n s with
      | Done r => Done r
      | More s' => iterateN step m s'
      end.
Proof.
  induction n as [|n IH]; intros s; cbn [iterateN Nat.add]; [reflexivity|].
  destruct (step s) as [r|s']; [reflexivity | apply IH].
Qed.

Lemma iterate_iterateN {St Res : Type} (step : St -> Loop St Res) (fuel : positive) :
  forall s, iterate step fuel s = iterateN step (Pos.to_nat fuel) s.
Proof.
  induction fuel as [p IH|p IH|]; intros s; cbn [iterate].
  - rewrite Pos2Nat.inj_xI.
    replace (S (2 * Pos.to_nat p))%nat
      with (1 + (Pos.to_nat p + Pos.to_nat p))%nat
      by lia.
    cbn [Nat.add iterateN]. destruct (step s) as [r|s']; [reflexivity|].
    rewrite iterateN_add, <- !IH. destruct (iterate step p s'); [reflexivity|].
    apply IH.
  - rewrite Pos2Nat.inj_xO.
    replace (2 * Pos.to_nat p)%nat with (Pos.to_nat p + Pos.to_nat p)%nat
      by lia.
    rewrite iterateN_add, <- !IH. destruct (iterate step p s); [reflexivity|].
    apply IH.
  - change (Pos.to_nat 1) with 1%nat. cbn [iterateN].
    destruct (step s); reflexivity.
Qed.

Lemma iterateN_done {St Res : Type} (step : St -> Loop St Res) (n m : nat) (s : St)
  (r : Res) :
  iterateN step n s = Done r -> (n <= m)%nat -> iterateN step m s = Done r.
Proof.
  revert m s. induction n as [|n IH]; intros m s; cbn [iterateN];
    [discriminate|].
  intros Hdone Hle. destruct m as [|m]; [lia|]. cbn [iterateN].
  destruct (step s) as [r'|s']; [exact Hdone|].
  apply IH; [exact Hdone | lia].
Qed.

(** A loop that ends within [n] rounds ends within any larger fuel. *)
Lemma iterate_done {St Res : Type} (step : St -> Loop St Res) (n : nat)
  (fuel : positive) (s : St) (r : Res) :
  iterateN step n s = Done r -> (n <= Pos.to_nat fuel)%nat ->
  iterate step fuel s = Done r.
Proof.
  intros Hdone Hle. rewrite iterate_iterateN.
  apply (iterateN_done step n); assumption.
Qed.

(** ** The overflow of the IDR maximum bid *)

Lemma native_wrap_range (z : Z) :
  Native.INT_MIN <= Native.wrap z <= Native.INT_MAX.
Proof.
  unfold Native.wrap, Native.INT_MIN, Native.INT_MAX.
  pose proof (Z.mod_pos_bound (z + 2 ^ 31) (2 ^ 32) ltac:(lia)). lia.
Qed.

Lemma native_wrap_small (z : Z) :
  Native.INT_MIN <= z <= Native.INT_MAX -> Native.wrap z = z.
Proof.
  unfold Native.wrap, Native.INT_MIN, Native.INT_MAX. intros Hz.
  rewrite Z.mod_small; lia.
Qed.

Lemma native_wrap_high (z : Z) :
  Native.INT_MAX < z <= Native.INT_MAX + 2 ^ 32 ->
  Native.wrap z = z - 2 ^ 32.
Proof.
  unfold Native.wrap, Native.INT_MIN, Native.INT_MAX. intros Hz.
  replace (z + 2 ^ 31) with (z - 2 ^ 31 + 1 * 2 ^ 32) by lia.
  rewrite Z.mod_add by lia. rewrite Z.mod_small; lia.
Qed.

Lemma native_idr_bounds (cur : string) :
  String.eqb cur "USD" = false -> String.eqb cur "EUR" = false ->
  Native.bidBounds cur = (1400000, nativeIdrMaxBid).
Proof.
  intros Husd Heur. unfold Native.bidBounds. rewrite Husd, Heur.
  reflexivity.
Qed.

(** One round of the split loop against the overflowed maximum: the
    maximum itself is emitted and [remaining] grows. *)
Lemma native_splitStep_idr (remaining : Z) (chunks : list Z) :
  0 < remaining <= Native.INT_MAX ->
  Native.splitStep 1400000 nativeIdrMaxBid (remaining, chunks)
  = More (Native.wrap (remaining - nativeIdrMaxBid),
          chunks ++ [nativeIdrMaxBid]).
Proof.
  unfold Native.INT_MAX, nativeIdrMaxBid. intros Hr. cbn [Native.splitStep].
  destruct (Z.gtb_spec remaining 0); [|lia].
  destruct (Z.leb_spec remaining (-1189934592)); [lia|].
  assert (Hnext : (Native.wrap (remaining - -1189934592) >? 0)
                  && (Native.wrap (remaining - -1189934592) <? 1400000)
                  = false).
  { destruct (Z.le_gt_cases remaining 957549055).
    - rewrite native_wrap_small
        by (unfold Native.INT_MIN, Native.INT_MAX; lia).
      destruct (Z.ltb_spec (remaining - -1189934592) 1400000); [lia|].
      apply andb_false_r.
    - rewrite native_wrap_high
        by (unfold Native.INT_MIN, Native.INT_MAX; lia).
      destruct (Z.gtb_spec (remaining - -1189934592 - 2 ^ 32) 0); [lia|].
      reflexivity. }
  rewrite Hnext. reflexivity.
Qed.

Lemma native_splitStep_done (minBid maxBid remaining : Z)
  (chunks : list Z) :
  remaining <= 0 ->
  Native.splitStep minBid maxBid (remaining, chunks) = Done chunks.
Proof.
  intros Hr. cbn [Native.splitStep].
  destruct (Z.gtb_spec remaining 0); [lia | reflexivity].
Qed.

(** Against the overflowed maximum the split loop emits the maximum itself
    once or twice and ends when [remaining] has wrapped. *)
Lemma native_split_idr (total : Z) :
  0 < total <= Native.INT_MAX ->
  Native.splitBidAmounts total 1400000 nativeIdrMaxBid
  = Some (if total <=? 957549055
          then [nativeIdrMaxBid; nativeIdrMaxBid] else [nativeIdrMaxBid]).
Proof.
  intros Htotal. pose proof Htotal as Hrange.
  unfold Native.INT_MAX in Hrange.
  unfold Native.splitBidAmounts.
  destruct (Z.leb_spec total nativeIdrMaxBid) as [Hle|_];
    [unfold nativeIdrMaxBid in Hle; lia|].
  assert (Hfuel : (3 <= Pos.to_nat (2 ^ 32))%nat).
  { change 3%nat with (Pos.to_nat 3). apply Pos2Nat.inj_le.
    vm_compute. discriminate. }
  destruct (Z.leb_spec total 957549055) as [Hlow|Hhigh].
  - rewrite (iterate_done _ 3 _ _ [nativeIdrMaxBid; nativeIdrMaxBid]);
      [reflexivity | | exact Hfuel].
    cbn [iterateN]. rewrite native_splitStep_idr by exact Htotal.
    assert (Hsecond : Native.wrap (total - nativeIdrMaxBid)
                      = total + 1189934592)
      by (unfold nativeIdrMaxBid; rewrite native_wrap_small;
          unfold Native.INT_MIN, Native.INT_MAX; lia).
    rewrite Hsecond.
    rewrite native_splitStep_idr by (unfold Native.INT_MAX; lia).
    rewrite native_splitStep_done; [reflexivity|].
    unfold nativeIdrMaxBid. rewrite native_wrap_high;
      unfold Native.INT_MIN, Native.INT_MAX; lia.
  - rewrite (iterate_done _ 2 _ _ [nativeIdrMaxBid]);
      [reflexivity | | lia].
    cbn [iterateN]. rewrite native_splitStep_idr by exact Htotal.
    rewrite native_splitStep_done; [reflexivity|].
    unfold nativeIdrMaxBid. rewrite native_wrap_high;
      unfold Native.INT_MIN, Native.INT_MAX; lia.
Qed.

(** X20. In the native engine the maximum bid of a currency other than USD
    and EUR, 74000000 * 100, is an [Int] product and wraps to -1189934592.
    For such a currency calculateBidAmounts therefore never returns the raw
    amount: it returns no amount when it reports an error, and otherwise one
    or two amounts, each equal to the wrapped maximum. *)
Theorem native_idr_bid_overflows (config : Native.Config)
  (switchDemoActive : bool) (martingaleStep : Z) :
  String.eqb (Native.currency config) "USD" = false ->
  String.eqb (Native.currency config) "EUR" = false ->
  let r := Native.calculateBidAmounts config switchDemoActive martingaleStep in
  Native.bidBounds (Native.currency config) = (1400000, nativeIdrMaxBid)
  /\ exists amounts,
       snd r = Some amounts
       /\ Forall (fun a => a = nativeIdrMaxBid) amounts
       /\ (fst r = None -> (1 <= List.length amounts <= 2)%nat)
       /\ (fst r <> None -> amounts = []).
Proof.
  intros Husd Heur r.
  pose proof (native_idr_bounds _ Husd Heur) as Hbounds.
  split; [exact Hbounds|].
  subst r. unfold Native.calculateBidAmounts. rewrite Hbounds, Husd, Heur.
  cbv zeta.
  match goal with
  | |- context [Native.wrap (?a * 100) <=? 0] =>
      set (raw := Native.wrap (a * 100));
      pose proof (native_wrap_range (a * 100)) as Hrange; fold raw in Hrange
  end.
  destruct (Z.leb_spec raw 0);
    [exists []; cbn; repeat split; try constructor; congruence|].
  destruct (Z.ltb_spec raw 1400000);
    [exists []; cbn; repeat split; try constructor; congruence|].
  destruct (Z.gtb_spec raw nativeIdrMaxBid) as [_|Hle];
    [|unfold nativeIdrMaxBid in Hle; lia].
  cbn [fst snd]. rewrite native_split_idr by lia.
  destruct (raw <=? 957549055); eexists; (split; [reflexivity|]);
    repeat split; repeat constructor; try congruence; cbn; lia.
Qed.

(** The default configuration: the bid of 14000.00 goes out as two amounts
    of -1189934592. *)
Lemma native_idr_bid_overflows_witness :
  String.eqb (Native.currency nativeDefaultConfig) "USD" = false
  /\ String.eqb (Native.currency nativeDefaultConfig) "EUR" = false
  /\ exists amounts,
       snd (Native.calculateBidAmounts nativeDefaultConfig false 0)
       = Some amounts
       /\ Forall (fun a => a = nativeIdrMaxBid) amounts
       /\ (1 <= List.length amounts <= 2)%nat.
Proof.
  split; [reflexivity|]. split; [reflexivity|].
  destruct (native_idr_bid_overflows nativeDefaultConfig false 0
              eq_refl eq_refl) as (_ & amounts & Hr & Hall & Hlen & _).
  exists amounts. split; [exact Hr|]. split; [exact Hall|].
  apply Hlen. reflexivity.
Defined.

(** ** The expiry in both engines *)



(** * The trade configuration *)

Lemma get_app (k : string) (a b : TradeSettings.Obj) :
  TradeSettings.get k (a ++ b)
  = if hasOwn k a then TradeSettings.get k a else TradeSettings.get k b.
Proof.
  induction a as [|[k' v] a IH]; [reflexivity|].
  cbn [app TradeSettings.get hasOwn existsb fst].
  destruct (String.eqb k' k); [reflexivity | exact IH].
Qed.

Lemma get_missing (k : string) (o : TradeSettings.Obj) :
  hasOwn k o = false -> TradeSettings.get k o = TradeSettings.VUndefined.
Proof.
  induction o as [|[k' v] o IH]; [reflexivity|].
  cbn [TradeSettings.get hasOwn existsb fst].
  destruct (String.eqb k' k); [discriminate | exact IH].
Qed.

(** Writing again what an object already holds changes no reading. *)
Lemma get_rewritten (k : string) (keys : list string)
  (m rest : TradeSettings.Obj) :
  TradeSettings.get k rest = TradeSettings.get k m ->
  TradeSettings.get k
    (map (fun key => (key, TradeSettings.get key m)) keys ++ rest)
  = TradeSettings.get k m.
Proof.
  intros Hrest. induction keys as [|key keys IH]; [exact Hrest|].
  cbn [map app TradeSettings.get].
  destruct (String.eqb_spec key k) as [->|_]; [reflexivity | exact IH].
Qed.

Lemma upperAscii_idempotent (c : ascii) :
  upperAscii (upperAscii c) = upperAscii c.
Proof. destruct c as [[] [] [] [] [] [] [] []]; reflexivity. Qed.

Lemma toUpperCase_idempotent (s : string) :
  toUpperCase (toUpperCase s) = toUpperCase s.
Proof.
  induction s as [|c s IH]; [reflexivity|].
  cbn [toUpperCase]. rewrite upperAscii_idempotent, IH. reflexivity.
Qed.

Lemma toUpperCase_nonEmpty (s : string) :
  nonEmpty (toUpperCase s) = nonEmpty s.
Proof. destruct s; reflexivity. Qed.

Lemma truthy_toStr (v : TradeSettings.Value) :
  TradeSettings.truthy v = true ->
  nonEmpty (TradeSettings.toStr v) = true.
Proof.
  destruct v as [| |[]|s]; try discriminate; intros H;
    [reflexivity | exact H].
Qed.

Lemma stringOrDefault_amount (k : string) (raw : TradeSettings.Obj) :
  k = "bidAmountIdr" \/ k = "bidAmountUsd" \/ k = "bidAmountEur" ->
  exists amount,
    TradeSettings.stringOrDefault k raw = TradeSettings.VString amount
    /\ nonEmpty amount = true.
Proof.
  intros Hk. unfold TradeSettings.stringOrDefault.
  destruct (TradeSettings.truthy (TradeSettings.get k raw)) eqn:Ht.
  - eexists. split; [reflexivity | apply truthy_toStr, Ht].
  - destruct Hk as [ -> | [ -> | -> ] ]; eexists; split; reflexivity.
Qed.

(** The entries normalizeTradeConfig always writes: a strategy that is not
    the legacy name, a currency in upper case, and three bid amounts, none
    of the last four empty. *)
Lemma normalizeTradeConfig_written (raw : TradeSettings.Obj) :
  let m := TradeSettings.normalizeTradeConfig (Some raw) in
  exists strategy currency idr usd eur,
    TradeSettings.get "strategy" m = TradeSettings.VString strategy
    /\ String.eqb strategy "Analysis" = false
    /\ TradeSettings.get "currency" m = TradeSettings.VString currency
    /\ nonEmpty currency = true
    /\ toUpperCase currency = currency
    /\ TradeSettings.get "bidAmountIdr" m = TradeSettings.VString idr
    /\ nonEmpty idr = true
    /\ TradeSettings.get "bidAmountUsd" m = TradeSettings.VString usd
    /\ nonEmpty usd = true
    /\ TradeSettings.get "bidAmountEur" m = TradeSettings.VString eur
    /\ nonEmpty eur = true.
Proof.
  intros m. subst m. unfold TradeSettings.normalizeTradeConfig.
  destruct (stringOrDefault_amount "bidAmountIdr" raw (or_introl eq_refl))
    as (idr & Hidr & Hidr').
  destruct (stringOrDefault_amount "bidAmountUsd" raw
              (or_intror (or_introl eq_refl))) as (usd & Husd & Husd').
  destruct (stringOrDefault_amount "bidAmountEur" raw
              (or_intror (or_intror eq_refl))) as (eur & Heur & Heur').
  rewrite Hidr, Husd, Heur.
  set (rawStrategy :=
         if TradeSettings.truthy (TradeSettings.get "strategy" raw)
         then TradeSettings.toStr (TradeSettings.get "strategy" raw)
         else EmptyString).
  assert (Hstrategy :
    String.eqb (if String.eqb rawStrategy "Analysis" then "Flash 5st"
                else rawStrategy) "Analysis" = false)
    by (destruct (String.eqb rawStrategy "Analysis") eqn:H;
        [reflexivity | exact H]).
  assert (Hcurrency :
    exists currency,
      (if TradeSettings.truthy (TradeSettings.get "currency" raw)
       then TradeSettings.VString
              (toUpperCase (TradeSettings.toStr
                              (TradeSettings.get "currency" raw)))
       else TradeSettings.get "currency" TradeSettings.DEFAULT_TRADE_CONFIG)
      = TradeSettings.VString currency
      /\ nonEmpty currency = true /\ toUpperCase currency = currency).
  { destruct (TradeSettings.truthy (TradeSettings.get "currency" raw)) eqn:Ht.
    - eexists. split; [reflexivity|]. split.
      + rewrite toUpperCase_nonEmpty. apply truthy_toStr, Ht.
      + apply toUpperCase_idempotent.
    - exists "IDR". repeat split; reflexivity. }
  destruct Hcurrency as (currency & Hcur & Hcur1 & Hcur2). rewrite Hcur.
  destruct (TradeSettings.truthy (TradeSettings.get "bidAmount" raw)
            && _ && _ && _) eqn:Hlegacy.
  - apply andb_true_iff in Hlegacy as [Hlegacy _].
    apply andb_true_iff in Hlegacy as [Hlegacy _].
    apply andb_true_iff in Hlegacy as [Hlegacy _].
    apply truthy_toStr in Hlegacy.
    eexists _, currency, _, _, _.
    repeat split; try reflexivity; assumption.
  - eexists _, currency, idr, usd, eur.
    repeat split; try reflexivity; assumption.
Qed.

(** The result holds every key of the defaults. *)
Lemma normalizeTradeConfig_keys (raw : TradeSettings.Obj) (k : string) :
  hasOwn k TradeSettings.DEFAULT_TRADE_CONFIG = true ->
  hasOwn k (TradeSettings.normalizeTradeConfig (Some raw)) = true.
Proof.
  intros Hk. unfold TradeSettings.normalizeTradeConfig,
    TradeSettings.spread.
  destruct (_ && _ && _ && _); unfold hasOwn in *;
    rewrite !existsb_app, Hk, !orb_true_r; reflexivity.
Qed.

(** X22. normalizeTradeConfig is idempotent: normalizing a normalized
    configuration changes no setting.  (The settings screen normalizes the
    stored settings and start normalizes them again.) *)
Theorem normalizeTradeConfig_idempotent (raw : option TradeSettings.Obj)
  (k : string) :
  let once := TradeSettings.normalizeTradeConfig raw in
  TradeSettings.get k (TradeSettings.normalizeTradeConfig (Some once))
  = TradeSettings.get k once.
Proof.
  intros once.
  assert (Hw : exists strategy currency idr usd eur,
             TradeSettings.get "strategy" once = TradeSettings.VString strategy
             /\ String.eqb strategy "Analysis" = false
             /\ TradeSettings.get "currency" once
                = TradeSettings.VString currency
             /\ nonEmpty currency = true
             /\ toUpperCase currency = currency
             /\ TradeSettings.get "bidAmountIdr" once
                = TradeSettings.VString idr
             /\ nonEmpty idr = true
             /\ TradeSettings.get "bidAmountUsd" once
                = TradeSettings.VString usd
             /\ nonEmpty usd = true
             /\ TradeSettings.get "bidAmountEur" once
                = TradeSettings.VString eur
             /\ nonEmpty eur = true).
  { destruct raw as [r|]; [apply normalizeTradeConfig_written|].
    exists "Signal", "IDR", "14000", "1", "1". repeat split; reflexivity. }
  assert (Hkeys : forall key,
             hasOwn key TradeSettings.DEFAULT_TRADE_CONFIG = true ->
             hasOwn key once = true).
  { intros key. destruct raw as [r|]; [apply normalizeTradeConfig_keys|].
    subst once. unfold TradeSettings.normalizeTradeConfig,
      TradeSettings.spread. rewrite app_nil_r. exact (fun H => H). }
  destruct Hw as (strategy & currency & idr & usd & eur & Hs & Hs' & Hc & Hc'
                  & Hc'' & Hi & Hi' & Hu & Hu' & He & He').
  clearbody once.
  unfold TradeSettings.normalizeTradeConfig, TradeSettings.stringOrDefault.
  rewrite Hs, Hc, Hi, Hu, He.
  cbn [TradeSettings.truthy TradeSettings.toStr].
  rewrite Hi', Hu', He', Hc', Hc''. cbn [negb andb].
  rewrite !andb_false_r.
  assert (Hagain : (if nonEmpty strategy then strategy else EmptyString)
                   = strategy) by (destruct strategy; reflexivity).
  rewrite Hagain, Hs'.
  rewrite <- Hs, <- Hc, <- Hi, <- Hu, <- He.
  unfold TradeSettings.spread.
  apply (get_rewritten k
           ["strategy"; "currency"; "bidAmountIdr"; "bidAmountUsd";
            "bidAmountEur"] once).
  rewrite get_app. destruct (hasOwn k once) eqn:Hown; [reflexivity|].
  destruct (hasOwn k TradeSettings.DEFAULT_TRADE_CONFIG) eqn:Hdef.
  - rewrite (Hkeys k Hdef) in Hown. discriminate.
  - rewrite (get_missing k once Hown). apply get_missing, Hdef.
Qed.

(** X23. What normalizeTradeConfig does about missing settings.  The
    currency and the three bid amounts are never empty afterwards, since an
    empty or missing one is replaced (by its default, or by the legacy
    single bid amount); the legacy strategy name Analysis never comes out;
    but a missing strategy is not replaced by the default: it comes out as
    the empty string. *)
Theorem normalizeTradeConfig_missing_settings (raw : TradeSettings.Obj) :
  let m := TradeSettings.normalizeTradeConfig (Some raw) in
  (forall k,
      In k ["currency"; "bidAmountIdr"; "bidAmountUsd"; "bidAmountEur"] ->
      exists text,
        TradeSettings.get k m = TradeSettings.VString text
        /\ nonEmpty text = true)
  /\ TradeSettings.get "strategy" m <> TradeSettings.VString "Analysis"
  /\ (TradeSettings.truthy (TradeSettings.get "strategy" raw) = false ->
      TradeSettings.get "strategy" m = TradeSettings.VString EmptyString
      /\ TradeSettings.get "strategy" TradeSettings.DEFAULT_TRADE_CONFIG
         = TradeSettings.VString "Signal").
Proof.
  intros m.
  destruct (normalizeTradeConfig_written raw)
    as (strategy & currency & idr & usd & eur & Hs & Hs' & Hc & Hc' & _
        & Hi & Hi' & Hu & Hu' & He & He').
  fold m in Hs, Hc, Hi, Hu, He.
  split; [|split].
  - intros k [ <- | [ <- | [ <- | [ <- | [] ] ] ] ]; eexists; split; eassumption.
  - rewrite Hs. intros Heq. injection Heq as ->. discriminate.
  - intros Hmissing. split; [|reflexivity].
    subst m. unfold TradeSettings.normalizeTradeConfig. rewrite Hmissing.
    destruct (_ && _ && _ && _); reflexivity.
Qed.

Lemma normalizeTradeConfig_missing_settings_witness :
  let m := TradeSettings.normalizeTradeConfig (Some legacySettings) in
  let bare := TradeSettings.normalizeTradeConfig
                (Some [("currency", TradeSettings.VString "usd")]) in
  TradeSettings.get "strategy" m = TradeSettings.VString "Flash 5st"
  /\ TradeSettings.get "bidAmountUsd" m = TradeSettings.VString "25"
  /\ TradeSettings.truthy
       (TradeSettings.get "strategy"
          [("currency", TradeSettings.VString "usd")]) = false
  /\ TradeSettings.get "strategy" bare = TradeSettings.VString EmptyString.
Proof.
  intros m bare.
  split; [reflexivity|]. split; [reflexivity|]. split; [reflexivity|].
  exact (proj1 (proj2 (proj2 (normalizeTradeConfig_missing_settings
                                [("currency", TradeSettings.VString "usd")]))
                  eq_refl)).
Defined.

(** * Refs on the wire *)

Lemma risingWithin_from (lo lo' hi : Z) (refs : list Z) :
  lo <= lo' -> risingWithin lo' refs hi -> risingWithin lo refs hi.
Proof.
  intros Hle. destruct refs as [|r rest]; cbn [risingWithin].
  - lia.
  - intros [Hr Hrest]. split; [lia | exact Hrest].
Qed.

Lemma risingWithin_app (a b : list Z) :
  forall lo mid hi,
    risingWithin lo a mid -> risingWithin mid b hi ->
    risingWithin lo (a ++ b) hi.
Proof.
  induction a as [|r a IH]; intros lo mid hi Ha Hb; cbn [app risingWithin] in *.
  - apply (risingWithin_from lo mid); assumption.
  - destruct Ha as [Hr Ha]. split; [exact Hr|]. apply (IH _ mid); assumption.
Qed.

Lemma risingWithin_bounds (refs : list Z) :
  forall lo hi,
    risingWithin lo refs hi -> Forall (fun r => lo <= r < hi) refs /\ lo <= hi.
Proof.
  induction refs as [|r rest IH]; intros lo hi H; cbn [risingWithin] in H.
  - split; [constructor | exact H].
  - destruct H as [Hr Hrest]. destruct (IH _ _ Hrest) as [Hall Hle].
    split; [|lia]. constructor; [lia|].
    eapply Forall_impl; [|exact Hall]. cbn. intros x Hx. lia.
Qed.

Lemma risingWithin_NoDup (refs : list Z) :
  forall lo hi, risingWithin lo refs hi -> NoDup refs.
Proof.
  induction refs as [|r rest IH]; intros lo hi H; cbn [risingWithin] in H.
  - constructor.
  - destruct H as [_ Hrest]. constructor; [|apply (IH _ _ Hrest)].
    intros Hin. destruct (risingWithin_bounds _ _ _ Hrest) as [Hall _].
    rewrite Forall_forall in Hall. specialize (Hall r Hin). lia.
Qed.

Lemma sentRefs_app (a b : list Output) :
  sentRefs (a ++ b) = sentRefs a ++ sentRefs b.
Proof. unfold sentRefs. rewrite sentFrames_app. apply map_app. Qed.

Lemma freshRefs_bind {A B : Type} (m : M A) (k : A -> M B) :
  freshRefs m -> (forall a, freshRefs (k a)) -> freshRefs (bind m k).
Proof.
  intros Hm Hk e. rewrite outputs_bind, exec_bind, sentRefs_app.
  apply (risingWithin_app _ _ _ (nextRef (exec m e))); [apply Hm | apply Hk].
Qed.

Lemma freshRefs_forEach {A : Type} (xs : list A) (body : A -> M unit) :
  (forall x, freshRefs (body x)) -> freshRefs (forEach xs body).
Proof.
  intros Hbody. induction xs as [|x xs IH]; cbn [forEach].
  - intros e. cbn. lia.
  - apply freshRefs_bind; [apply Hbody | intros _; exact IH].
Qed.

(** The ping takes the ref counter as its ref and moves the counter on. *)
Lemma sendStreamPing_freshRefs (cfg : TradeConfig) :
  freshRefs (sendStreamPing cfg).
Proof.
  intros e. unfold sendStreamPing.
  rewrite outputs_this_bind, exec_this_bind.
  destruct (negb (isOpen (streamSocket e))); [cbn; lia|].
  rewrite outputs_assign_bind, exec_assign_bind, !outputs_emit_bind,
    !exec_emit_bind.
  unfold sentRefs. rewrite sentFrames_cons by exact I.
  destruct (orElse _ _) as [j|]; [destruct (j =? 0)|]; cbn; lia.
Qed.

Lemma bidFrames_rising (cfg : TradeConfig) now index ex t wallet boRef ch
  amounts :
  forall ref amountIndex,
    risingWithin ref
      (map (fun cf => frameRef (snd cf))
         (bidFrames cfg now index ex t wallet boRef ch ref amountIndex
            amounts))
      (ref + size amounts).
Proof.
  induction amounts as [|a rest IH]; intros ref amountIndex.
  - cbn. lia.
  - cbn [bidFrames map snd frameRef risingWithin]. split; [lia|].
    replace (ref + size (a :: rest)) with (ref + 1 + size rest)
      by (unfold size; cbn [List.length]; lia).
    apply IH.
Qed.

Lemma sendAmounts_freshRefs (cfg : TradeConfig) now index ex t total
  amountIndex amounts :
  freshRefs (sendAmounts cfg now index ex t total amountIndex amounts).
Proof.
  intros e. unfold sentRefs.
  rewrite sendAmounts_exec, sendAmounts_frames.
  destruct (bidChannel e).
  - apply bidFrames_rising.
  - cbn. unfold size. lia.
Qed.

(** Walks through a computation and shows that it stamps its frames with
    fresh refs; a step that neither sends nor touches the ref counter is
    closed by computation. *)
Ltac fresh_refs :=
  repeat match goal with
         | |- freshRefs (bind _ _) => apply freshRefs_bind; [|intros ?]
         | |- freshRefs (forEach _ _) => apply freshRefs_forEach; intros ?
         | |- freshRefs (sendStreamPing _) => apply sendStreamPing_freshRefs
         | |- freshRefs (sendAmounts _ _ _ _ _ _ _ _) =>
             apply sendAmounts_freshRefs
         | |- freshRefs (when ?b _) => destruct b; cbn [when]
         | |- freshRefs (if ?b then _ else _) => destruct b
         | |- freshRefs (match ?x with _ => _ end) => destruct x
         | |- freshRefs _ =>
             let e := fresh "e" in
             solve [intros e; exact (Z.le_refl (nextRef e))]
         end.

Lemma sendBid_freshRefs (cfg : TradeConfig) t index bypass clk :
  freshRefs (sendBid cfg t index bypass clk).
Proof.
  cbv beta zeta delta [sendBid sendBid_cooldown sendBid_place chooseTrend
    calculateBidAmounts getBidAmountForCurrency stop setStatus
    resetConnectionState teardownSockets persistBotState].
  fresh_refs.
Qed.

Lemma perform_freshRefs (cfg : TradeConfig) (a : Action) :
  freshRefs (perform cfg a).
Proof.
  destruct a as [ev| | |]; cbn [perform].
  - destruct ev; cbn [handleSocketEvent];
      cbv beta zeta delta [handlePhxReply handleOpened handleBalanceChanged
        handleCloseDealBatch handleCloseDealBatch_settle
        handleCloseDealBatch_resume refreshProfitFromApi applyRiskRules
        stopProfitCheck persistBotState applyCooldown settleBid settleTail
        settleWin settleLoss stop setStatus resetConnectionState
        teardownSockets];
      fresh_refs.
  - apply sendBid_freshRefs.
  - unfold queueFastReentry_resume, computeTrend_Fast.
    repeat match goal with
           | |- freshRefs (sendBid _ _ _ _ _) => apply sendBid_freshRefs
           | |- _ => progress fresh_refs
           end.
  - unfold applyResumeState. fresh_refs.
Qed.

(** X24. Every frame goes out with a ref of its own.  Over any sequence of
    socket events, bid requests, fast re-entries and resumes, the refs of
    the frames sent (bids and pings alike) rise strictly in the order of
    sending, start at the ref counter of the initial state or above and stay
    below the ref counter of the final state; no two frames share a ref and
    the counter never moves back. *)
Theorem refs_on_the_wire_are_fresh (cfg : TradeConfig)
  (actions : list Action) (s : Engine) :
  let refs := sentRefs (outputs (runActions cfg actions) s) in
  let s' := exec (runActions cfg actions) s in
  risingWithin (nextRef s) refs (nextRef s')
  /\ NoDup refs
  /\ Forall (fun r => nextRef s <= r < nextRef s') refs
  /\ nextRef s <= nextRef s'.
Proof.
  intros refs s'.
  assert (Hrise : risingWithin (nextRef s) refs (nextRef s'))
    by (apply (freshRefs_forEach actions (perform cfg)), perform_freshRefs).
  split; [exact Hrise|]. split; [apply (risingWithin_NoDup _ _ _ Hrise)|].
  apply (risingWithin_bounds _ _ _ Hrise).
Qed.

(** A bid and the ping that follows the settlement of its batch. *)
Example refs_of_a_bid_and_a_ping :
  let actions :=
    [OnBid Call 0 false sampleClock;
     OnEvent (PhxReplyBo (Some "4c0f1c6e"));
     OnEvent (OpenedEvent (openedFor "4c0f1c6e" "2024-01-01T00:01:00Z"));
     OnEvent (CloseDealBatchEvent
                (batchAt "2024-01-01T00:01:00Z" (inject_Z 99))
                (Some (0%Q, 0%Q)))] in
  sentRefs (outputs (runActions DEFAULT_TRADE_CONFIG actions) runningEngine)
  = [13; 14].
Proof. vm_compute. reflexivity. Qed.
